(** * StudyTracker: the task repository and its statistics, verified

    A shallow embedding of [src/taskManager.js], of the parts of
    [src/storage.js] it calls, of [Utils.generateId], [Utils.isOverdue]
    and [Utils.getTodayString] from [src/ui.js], and of [addDemoData] and
    [checkDailyReset] from [app.js], followed by the properties that the
    specification states about them and by further properties of the
    code.

    The model:
    - [JS]          : JavaScript values, objects, exceptions, string and
                      array helpers, code with state and exceptions;
    - [JSDate]      : the proleptic Gregorian calendar behind [Date];
    - [Host]        : what the JavaScript engine supplies (Unicode string
                      builtins, [Array.prototype.sort], local time, the
                      parsing of dates outside the ISO format), and what
                      ECMAScript demands of [sort] and [setDate];
    - [LocalTime]   : the start of the local day and the day of the week;
    - [Storage]     : the rolling stats record and the saved tasks, in a
                      [localStorage] that may refuse a write;
    - [TaskManager] : the repository itself;
    - [App]         : the demo data and the daily check;
    - [Mem]         : [getFiltered] and [sortTasks] over a store of mutable
                      arrays, where [sort] works in place;
    - [Spec]        : the vocabulary of the properties, and example data.

    The properties of the specification:
    - [Writes]         : writes that [localStorage] accepts or refuses;
    - [StreakUpdate]   : the streak kept in the stats record;
    - [DerivedStreak]  : the streak computed from the tasks;
    - [CompletionRate] : the completion rate;
    - [IdStrings], [Importing], [Migration] : the ids, import and the
                      migration on load;
    - [Operations], [Identity], [Completion] : what the operations do to
                      the collection, to [id] and [createdAt], and to
                      [completedAt] and [status];
    - [Sorting], [Filtering], [DeadlineOrder] : [sort], [getFiltered] and
                      the order by deadline.

    Further properties of the code:
    - [Repository], [Bulk] : looking up, deleting, clearing, and the bulk
                      operations;
    - [Persistence]    : what is saved, and who writes the stats record;
    - [Statistics]     : the counts by status, category and day;
    - [Deadlines]      : overdue tasks and tasks due today;
    - [Application]    : the first visit and the daily check;
    - [Orders]         : the orders by priority and by creation time;
    - [Queries]        : [getFiltered] under any filters, [export], and
                      what [create] reads;
    - [Identifiers], [Totals] : the ids that [generateId] makes, and the
                      stats record over time;
    - [Failures]       : an update that throws. *)

From Stdlib Require Import ZArith String Ascii List Bool Lia QArith Floats.
From Stdlib Require Import DecimalString.
From Stdlib Require DecimalZ DecimalPos.
From Stdlib Require Import Sorting.Permutation Sorting.Sorted.
From stdpp Require Import base option gmap strings list.

(* ================================================================== *)
(** * JavaScript values *)
(* ================================================================== *)

Module JS.

(** The scalar values that occur as fields of tasks, patches and payloads.
    Numbers are the integral ones (ids of legacy records, counters); every
    number the repository computes on stays far below 2^53, where double
    arithmetic on integers is exact. *)
Inductive val :=
  | VUndef
  | VNull
  | VBool (b : bool)
  | VNum (n : Z)
  | VStr (s : string).

#[global] Instance val_eq_dec : EqDecision val.
Proof. solve_decision. Defined.

(** A plain object: a finite map from property names to values.  Reading a
    property that is not there gives [undefined]. *)
Abbreviation obj := (gmap string val).

Definition prop (o : obj) (k : string) : val := default VUndef (o !! k).

(** [{...a, ...b}]: the properties of [b] win. *)
Definition spread (a b : obj) : obj := b ∪ a.

(** ToBoolean. *)
Definition truthy (v : val) : bool :=
  match v with
  | VUndef | VNull => false
  | VBool b => b
  | VNum n => negb (n =? 0)%Z
  | VStr s => negb (String.eqb s "")
  end.

(** [a || b] *)
Definition or_else (a b : val) : val := if truthy a then a else b.

(** [a === b] on these values (there is no NaN among them). *)
Definition strict_eq (a b : val) : bool := bool_decide (a = b).

(** [v == null]: null or undefined. *)
Definition is_nullish (v : val) : bool :=
  match v with VUndef | VNull => true | _ => false end.

Definition string_of_Z (n : Z) : string :=
  DecimalString.NilZero.string_of_int (Z.to_int n).

(** [String(v)] *)
Definition ToString (v : val) : string :=
  match v with
  | VUndef => "undefined"
  | VNull => "null"
  | VBool true => "true"
  | VBool false => "false"
  | VNum n => string_of_Z n
  | VStr s => s
  end.

(** [typeof v === 'number'] *)
Definition is_number (v : val) : bool :=
  match v with VNum _ => true | _ => false end.

(** What [JSON.parse(JSON.stringify(o))] gives back for an object of
    scalars: [stringify] leaves out the properties whose value is
    [undefined]. *)
Definition JSON_roundtrip (o : obj) : obj :=
  omap (λ v, if decide (v = VUndef) then None else Some v) o.

(** ** Exceptions *)

Inductive error :=
  | TypeError              (* a method called on a value that lacks it *)
  | Error (msg : string).  (* [throw new Error(msg)] *)

Inductive outcome (A : Type) :=
  | Ok (a : A)
  | Throw (e : error).
Arguments Ok {A} a.
Arguments Throw {A} e.

#[global] Instance error_eq_dec : EqDecision error.
Proof. solve_decision. Defined.

Definition obind {A B} (m : outcome A) (f : A → outcome B) : outcome B :=
  match m with Ok a => f a | Throw e => Throw e end.

(** ** Numbers returned by comparators *)

(** What a comparison function hands back to [sort]: a number, NaN, or an
    exception raised while comparing. *)
Inductive cmp_result :=
  | CNum (z : Z)
  | CNaN
  | CThrow (e : error).

(** ** Strings *)

(** [s.startsWith(p)] *)
Definition startsWith (s p : string) : bool := String.prefix p s.

(** [s.includes(sub)] *)
Definition includes (s sub : string) : bool :=
  match String.index 0 sub s with Some _ => true | None => false end.

(** [s.split(c)[0]]: the characters before the first occurrence of [c]. *)
Fixpoint before (c : ascii) (s : string) : string :=
  match s with
  | EmptyString => EmptyString
  | String a r => if Ascii.eqb a c then EmptyString else String a (before c r)
  end.

(** ** Arrays *)

(** [l.filter(p)] when the callback may throw: elements are visited in
    order and the first exception ends the call. *)
Fixpoint filter_throwing {A} (p : A → outcome bool) (l : list A)
  : outcome (list A) :=
  match l with
  | [] => Ok []
  | x :: r =>
      obind (p x) (λ keep,
      obind (filter_throwing p r) (λ r',
      Ok (if keep then x :: r' else r')))
  end.

(** [l.findIndex(p)]; [None] stands for -1. *)
Fixpoint findIndex {A} (p : A → bool) (l : list A) : option nat :=
  match l with
  | [] => None
  | x :: r => if p x then Some O else S <$> findIndex p r
  end.

(** ** Code that changes a state and may throw

    A method body either returns or throws; what it changed before throwing
    stays changed. *)

Definition ST (S A : Type) : Type := S → outcome A * S.

Definition ret {S A} (a : A) : ST S A := λ s, (Ok a, s).

Definition throw {S A} (e : error) : ST S A := λ s, (Throw e, s).

Definition bind {S A B} (m : ST S A) (f : A → ST S B) : ST S B :=
  λ s, match m s with
       | (Ok a, s') => f a s'
       | (Throw e, s') => (Throw e, s')
       end.

Definition lift {S A} (o : outcome A) : ST S A := λ s, (o, s).

Fixpoint mapM {S A B} (f : A → ST S B) (l : list A) : ST S (list B) :=
  match l with
  | [] => ret []
  | x :: r => bind (f x) (λ y, bind (mapM f r) (λ r', ret (y :: r')))
  end.

(** [l.filter(p)] when the callback works on the state (it reads the
    clock, say) and may throw. *)
Fixpoint filterM {S A} (p : A → ST S bool) (l : list A) : ST S (list A) :=
  match l with
  | [] => ret []
  | x :: r =>
      bind (p x) (λ keep, bind (filterM p r) (λ r',
      ret (if keep then x :: r' else r')))
  end.

End JS.
Export JS.

Notation "'let*' x ':=' m ';;' k" := (bind m (λ x, k))
  (at level 10, x binder, m at level 99, k at level 200).
Notation "m ';;' k" := (bind m (λ _, k))
  (at level 100, k at level 200, right associativity).

(* ================================================================== *)
(** * Dates *)
(* ================================================================== *)

Module JSDate.
Local Open Scope Z_scope.

Definition MS_PER_DAY : Z := 1000 * 60 * 60 * 24.

(** Days since 1970-01-01 of a civil date (proleptic Gregorian). *)
Definition days_from_civil (y m d : Z) : Z :=
  let y' := if m <=? 2 then y - 1 else y in
  let era := y' / 400 in
  let yoe := y' - era * 400 in
  let mp := if m >? 2 then m - 3 else m + 9 in
  let doy := (153 * mp + 2) / 5 + d - 1 in
  let doe := yoe * 365 + yoe / 4 - yoe / 100 + doy in
  era * 146097 + doe - 719468.

(** The civil date of a day number. *)
Definition civil_from_days (z : Z) : Z * Z * Z :=
  let z := z + 719468 in
  let era := z / 146097 in
  let doe := z - era * 146097 in
  let yoe := (doe - doe / 1460 + doe / 36524 - doe / 146096) / 365 in
  let y := yoe + era * 400 in
  let doy := doe - (365 * yoe + yoe / 4 - yoe / 100) in
  let mp := (5 * doy + 2) / 153 in
  let d := doy - (153 * mp + 2) / 5 + 1 in
  let m := if mp <? 10 then mp + 3 else mp - 9 in
  ((if m <=? 2 then y + 1 else y), m, d).

Definition is_leap (y : Z) : bool :=
  ((y mod 4 =? 0) && negb (y mod 100 =? 0)) || (y mod 400 =? 0).

Definition days_in_month (y m : Z) : Z :=
  if m =? 2 then (if is_leap y then 29 else 28)
  else if (m =? 4) || (m =? 6) || (m =? 9) || (m =? 11) then 30
  else 31.

(** *** Printing *)

Definition digit (n : Z) : ascii := ascii_of_nat (48 + Z.to_nat (n mod 10)).

(** [n] in decimal on exactly [w] digits (the low ones). *)
Fixpoint pad (w : nat) (n : Z) : string :=
  match w with
  | O => EmptyString
  | S w' => pad w' (n / 10) ++ String (digit n) EmptyString
  end.

Definition year_string (y : Z) : string :=
  if (0 <=? y) && (y <=? 9999) then pad 4 y
  else if y <? 0 then "-" ++ pad 6 (- y)
  else "+" ++ pad 6 y.

(** [new Date(t).toISOString()]: [YYYY-MM-DDTHH:mm:ss.sssZ]. *)
Definition toISOString (t : Z) : string :=
  let day := t / MS_PER_DAY in
  let ms := t mod MS_PER_DAY in
  let '(y, m, d) := civil_from_days day in
  year_string y ++ "-" ++ pad 2 m ++ "-" ++ pad 2 d ++ "T" ++
  pad 2 (ms / 3600000) ++ ":" ++ pad 2 (ms / 60000 mod 60) ++ ":" ++
  pad 2 (ms / 1000 mod 60) ++ "." ++ pad 3 (ms mod 1000) ++ "Z".

(** *** Reading *)

Definition digit_val (a : ascii) : option Z :=
  let n := Z.of_nat (nat_of_ascii a) in
  if (48 <=? n) && (n <=? 57) then Some (n - 48) else None.

(** A run of decimal digits, most significant first. *)
Fixpoint digits_acc (acc : Z) (s : string) : option Z :=
  match s with
  | EmptyString => Some acc
  | String a r =>
      match digit_val a with
      | Some d => digits_acc (acc * 10 + d) r
      | None => None
      end
  end.

Definition number (s : string) : option Z :=
  match s with EmptyString => None | _ => digits_acc 0 s end.

Definition field (s : string) (from len : nat) : option Z :=
  if (from + len <=? String.length s)%nat
  then number (substring from len s) else None.

Definition sep (s : string) (i : nat) (c : ascii) : bool :=
  match String.get i s with Some a => Ascii.eqb a c | None => false end.

Definition valid_date (y m d : Z) : bool :=
  (1 <=? m) && (m <=? 12) && (1 <=? d) && (d <=? days_in_month y m).

(** The date part [YYYY-MM-DD], as a day number. *)
Definition parse_date (s : string) : option Z :=
  if sep s 4 "-" && sep s 7 "-" then
    match field s 0 4, field s 5 2, field s 8 2 with
    | Some y, Some m, Some d =>
        if valid_date y m d then Some (days_from_civil y m d) else None
    | _, _, _ => None
    end
  else None.

(** The time part [THH:mm:ss.sssZ] starting at index 10, in milliseconds. *)
Definition parse_time (s : string) : option Z :=
  if sep s 10 "T" && sep s 13 ":" && sep s 16 ":" && sep s 19 "." && sep s 23 "Z"
  then
    match field s 11 2, field s 14 2, field s 17 2, field s 20 3 with
    | Some h, Some mi, Some se, Some ms =>
        if (h <=? 23) && (mi <=? 59) && (se <=? 59)
        then Some (((h * 60 + mi) * 60 + se) * 1000 + ms) else None
    | _, _, _, _ => None
    end
  else None.

(** The two shapes of the ECMAScript date-time format that this program
    writes: the date alone (midnight UTC) and what [toISOString] prints. *)
Definition parse_iso (s : string) : option Z :=
  if (String.length s =? 10)%nat then
    match parse_date s with
    | Some day => Some (day * MS_PER_DAY)
    | None => None
    end
  else if (String.length s =? 24)%nat then
    match parse_date (substring 0 10 s), parse_time s with
    | Some day, Some ms => Some (day * MS_PER_DAY + ms)
    | _, _ => None
    end
  else None.

End JSDate.
Export JSDate.

(* ================================================================== *)
(** * The host: what the JavaScript engine supplies *)
(* ================================================================== *)

(** The builtins whose result ECMAScript leaves to the implementation or to
    Unicode tables.  Everything below is stated for an arbitrary host; two
    concrete hosts are defined further down to run the code on examples. *)
Class Host := {
  (** [String.prototype.trim] *)
  String_trim : string → string;
  (** [String.prototype.toLowerCase] *)
  String_toLowerCase : string → string;
  (** [String.prototype.localeCompare] *)
  String_localeCompare : string → string → Z;
  (** [Date.parse] on a string that is not in the date-time format handled
      by [parse_iso] (implementation-defined heuristics) *)
  Date_parse_legacy : string → option Z;
  (** the time value after [d.setDate(d.getDate() - i)] on a date with time
      value [t]; local-time arithmetic ([t - i * MS_PER_DAY] wherever the
      zone offset does not change in between) *)
  Date_daysAgo : Z → nat → Z;
  (** [Array.prototype.sort] with a comparison function, as a function from
      the old contents of the array to the new ones *)
  Array_sort : ∀ A : Type, (A → A → cmp_result) → list A → outcome (list A)
}.
Arguments Array_sort {_ A} _ _.

(** ** Comparison functions as [sort] reads them *)

Section SortCompare.
Context {A : Type} (comparefn : A → A → cmp_result).

(** SortCompare: NaN counts as +0; [None] when the call throws. *)
Definition sign (r : cmp_result) : option comparison :=
  match r with
  | CNum z => Some (z ?= 0)%Z
  | CNaN => Some Eq
  | CThrow _ => None
  end.

Definition lt_cf (a b : A) : Prop := sign (comparefn a b) = Some Lt.
Definition eq_cf (a b : A) : Prop := sign (comparefn a b) = Some Eq.
Definition gt_cf (a b : A) : Prop := sign (comparefn a b) = Some Gt.

Definition eq_cfb (a b : A) : bool :=
  match sign (comparefn a b) with Some Eq => true | _ => false end.

(** ECMAScript's "consistent comparison function for a set of values". *)
Record consistent (S : list A) : Prop := {
  cf_total : ∀ a b, a ∈ S → b ∈ S → sign (comparefn a b) ≠ None;
  cf_refl : ∀ a, a ∈ S → eq_cf a a;
  cf_sym : ∀ a b, a ∈ S → b ∈ S → eq_cf a b → eq_cf b a;
  cf_eq_trans : ∀ a b c, a ∈ S → b ∈ S → c ∈ S →
      eq_cf a b → eq_cf b c → eq_cf a c;
  cf_lt_trans : ∀ a b c, a ∈ S → b ∈ S → c ∈ S →
      lt_cf a b → lt_cf b c → lt_cf a c;
  cf_gt_trans : ∀ a b c, a ∈ S → b ∈ S → c ∈ S →
      gt_cf a b → gt_cf b c → gt_cf a c
}.

(** What a sort owes when the comparison function is consistent: the new
    contents are in order, and the values that compare equal keep their
    old relative order. *)
Definition in_order (l : list A) : Prop :=
  StronglySorted (λ a b, ¬ gt_cf a b) l.

Definition stable (old new : list A) : Prop :=
  ∀ a, a ∈ old → List.filter (eq_cfb a) new = List.filter (eq_cfb a) old.

(** The same order read from the last element to the first. *)
Definition descending (l : list A) : Prop :=
  StronglySorted (λ a b, ¬ gt_cf b a) l.

(** *** Insertion sort, the way engines write it for short arrays

    [placed] holds the part already in order, last element first.  The new
    item walks left past every placed element that [moves] says must end
    up to its right. *)
Section Insertion.
Variable moves : A → A → outcome bool.

Fixpoint insert_item (item : A) (placed : list A) : outcome (list A) :=
  match placed with
  | [] => Ok [item]
  | swap :: rest =>
      match moves swap item with
      | Throw e => Throw e
      | Ok true => obind (insert_item item rest) (λ r, Ok (swap :: r))
      | Ok false => Ok (item :: placed)
      end
  end.

Fixpoint insert_all (placed : list A) (todo : list A) : outcome (list A) :=
  match todo with
  | [] => Ok (rev placed)
  | item :: todo' =>
      obind (insert_item item placed) (λ p, insert_all p todo')
  end.
End Insertion.

(** The loop [if (comparefn(swap, item) > 0) a[j+1] = swap; else break]:
    the element already placed is the first argument. *)
Definition moves_left_first (swap item : A) : outcome bool :=
  match comparefn swap item with
  | CNum z => Ok (0 <? z)%Z
  | CNaN => Ok false
  | CThrow e => Throw e
  end.

(** The loop [if (comparefn(item, swap) < 0) a[j+1] = swap; else break]:
    the element being inserted is the first argument. *)
Definition moves_item_first (swap item : A) : outcome bool :=
  match comparefn item swap with
  | CNum z => Ok (z <? 0)%Z
  | CNaN => Ok false
  | CThrow e => Throw e
  end.

Definition sort_left_first (l : list A) : outcome (list A) :=
  insert_all moves_left_first [] l.

Definition sort_item_first (l : list A) : outcome (list A) :=
  insert_all moves_item_first [] l.
End SortCompare.

(** A host's [sort] conforms when it permutes the array, returns whenever
    the comparison function does, and is a stable sort for every consistent
    comparison function. *)
Class SortConforms (H : Host) : Prop := {
  sort_permutes : ∀ A (cmp : A → A → cmp_result) l l',
      Array_sort cmp l = Ok l' → Permutation l l';
  sort_returns : ∀ A (cmp : A → A → cmp_result) l,
      (∀ a b, a ∈ l → b ∈ l → sign (cmp a b) ≠ None) →
      ∃ l', Array_sort cmp l = Ok l';
  sort_in_order : ∀ A (cmp : A → A → cmp_result) l l',
      consistent cmp l → Array_sort cmp l = Ok l' → in_order cmp l';
  sort_stable : ∀ A (cmp : A → A → cmp_result) l l',
      consistent cmp l → Array_sort cmp l = Ok l' → stable cmp l l'
}.

(** ** Local time as ECMAScript defines it

    A time zone is its function [LocalTZA(t, isUTC)]: the offset of local
    time from UTC in milliseconds, at the UTC time [t] when [isUTC] is
    true, and at the local time [t] otherwise (a local time that a
    transition skips or repeats is read with the offset before the
    transition). *)
Definition time_zone : Type := Z → bool → Z.

(** [LocalTime(t)] and [UTC(t)] *)
Definition local_time (tza : time_zone) (t : Z) : Z := (t + tza t true)%Z.

Definition UTC (tza : time_zone) (t : Z) : Z := (t - tza t false)%Z.

(** [d.setDate(d.getDate() - i)] on a date with time value [t]:
    [MakeDay] of the local year, the local month and [getDate() - i] is
    the day [i] days before the local day, [MakeDate] keeps the local
    time within the day, and [UTC] turns the result into a time value.
    (Time values stay far inside the range that [TimeClip] allows.) *)
Definition setDate_back (tza : time_zone) (t : Z) (i : nat) : Z :=
  UTC tza (local_time tza t - Z.of_nat i * MS_PER_DAY).

(** A host's [setDate] conforms for the zone it is in. *)
Class DateConforms (H : Host) (tza : time_zone) : Prop := {
  daysAgo_conforms : ∀ t i, Date_daysAgo t i = setDate_back tza t i
}.

(** The zone of UTC, and the zone of New York with its rules of 2024: five
    hours behind UTC, and four hours from 10 March, 2:00 (07:00 UTC), to
    3 November, 2:00 (06:00 UTC). *)
Definition utc_zone : time_zone := λ _ _, 0%Z.

Definition new_york : time_zone := λ t isUTC,
  let first := (if isUTC then 1710054000000 else 1710039600000)%Z in
  let last := (if isUTC then 1730613600000 else 1730599200000)%Z in
  if ((first <=? t) && (t <? last))%Z then (-14400000)%Z else (-18000000)%Z.

(** ** Hosts to compute with

    All work on ASCII text and reject every date string outside the ISO
    format.  The first two keep UTC as the local zone and differ in the
    argument order their sort passes to the comparison function; the
    third is the first one moved to New York. *)

Definition is_space (a : ascii) : bool :=
  let n := nat_of_ascii a in
  ((9 <=? n) && (n <=? 13))%nat || (n =? 32)%nat.

Fixpoint trim_start (s : string) : string :=
  match s with
  | String a r => if is_space a then trim_start r else s
  | EmptyString => EmptyString
  end.

Fixpoint trim_end (s : string) : string :=
  match s with
  | EmptyString => EmptyString
  | String a r =>
      match trim_end r with
      | EmptyString => if is_space a then EmptyString else String a EmptyString
      | r' => String a r'
      end
  end.

Definition lower (a : ascii) : ascii :=
  let n := nat_of_ascii a in
  if ((65 <=? n) && (n <=? 90))%nat then ascii_of_nat (n + 32) else a.

Fixpoint map_string (f : ascii → ascii) (s : string) : string :=
  match s with
  | EmptyString => EmptyString
  | String a r => String (f a) (map_string f r)
  end.

Definition compare_strings (a b : string) : Z :=
  match String.compare a b with Lt => -1 | Eq => 0 | Gt => 1 end.

Definition host_left_first : Host := {|
  String_trim s := trim_end (trim_start s);
  String_toLowerCase := map_string lower;
  String_localeCompare := compare_strings;
  Date_parse_legacy _ := None;
  Date_daysAgo t i := (t - Z.of_nat i * MS_PER_DAY)%Z;
  Array_sort A cmp := sort_left_first cmp
|}.

Definition host_item_first : Host := {|
  String_trim s := trim_end (trim_start s);
  String_toLowerCase := map_string lower;
  String_localeCompare := compare_strings;
  Date_parse_legacy _ := None;
  Date_daysAgo t i := (t - Z.of_nat i * MS_PER_DAY)%Z;
  Array_sort A cmp := sort_item_first cmp
|}.

Definition host_new_york : Host := {|
  String_trim s := trim_end (trim_start s);
  String_toLowerCase := map_string lower;
  String_localeCompare := compare_strings;
  Date_parse_legacy _ := None;
  Date_daysAgo := setDate_back new_york;
  Array_sort A cmp := sort_left_first cmp
|}.

(** ** Local time

    The two methods of [Date] that read the time zone and are used outside
    the streak computations. *)
Class LocalTime := {
  (** the time value after [d.setHours(0, 0, 0, 0)] on a date with time
      value [t]: the start of the local day that holds [t] *)
  Date_setHours0 : Z → Z;
  (** [d.getDay()]: the local day of the week, 0 for Sunday *)
  Date_getDay : Z → Z
}.

(** A zone that stays [offset] milliseconds ahead of UTC all year
    (1970-01-01 was a Thursday). *)
Definition fixed_offset (offset : Z) : LocalTime := {|
  Date_setHours0 t := ((t + offset) / MS_PER_DAY * MS_PER_DAY - offset)%Z;
  Date_getDay t := (((t + offset) / MS_PER_DAY + 4) mod 7)%Z
|}.

(* ================================================================== *)
(** * Storage (src/storage.js) *)
(* ================================================================== *)

Module Storage.
Local Open Scope Z_scope.

(** One entry of [dailyStats]. *)
Record DayStat := { completed : Z; created : Z }.

(** The rolling stats record kept under [KEYS.STATS]. *)
Record Stats := {
  totalTasksCreated : Z;
  totalTasksCompleted : Z;
  currentStreak : Z;
  longestStreak : Z;
  lastActiveDate : val;
  dailyStats : gmap string DayStat
}.

(** What [localStorage] holds for the two keys the repository uses: the
    values whose JSON text was last written ([None] while a key has never
    been written); and how it answers [setItem]: the calls are numbered,
    and a call that is not accepted throws (the quota is exceeded, or the
    browser has storage switched off).  A [localStorage] that cannot be
    read either is one that holds nothing: [load] then returns the default
    value.  The keys hold what this program writes there: an array of
    task objects, a stats record. *)
Record store := {
  stored_tasks : option (list obj);
  stored_stats : option Stats;
  setItem_accepts : nat → bool;
  setItem_calls : nat
}.

Definition no_stats : Stats := {|
  totalTasksCreated := 0;
  totalTasksCompleted := 0;
  currentStreak := 0;
  longestStreak := 0;
  lastActiveDate := VNull;
  dailyStats := ∅
|}.

(** Whether the next call of [setItem] is accepted. *)
Definition accepted (st : store) : bool :=
  setItem_accepts st (setItem_calls st).

(** [getTasks]: [load(KEYS.TASKS, [])], which parses the text that
    [stringify] made of the saved array. *)
Definition getTasks (st : store) : list obj :=
  JSON_roundtrip <$> default [] (stored_tasks st).

(** [saveTasks]: [save(KEYS.TASKS, tasks)].  When [setItem] throws, [save]
    catches the exception, and the key keeps what it held; [save] then
    returns false instead of true, which no caller in the task manager
    reads. *)
Definition saveTasks (ts : list obj) (st : store) : store :=
  {| stored_tasks := if accepted st then Some ts else stored_tasks st;
     stored_stats := stored_stats st;
     setItem_accepts := setItem_accepts st;
     setItem_calls := S (setItem_calls st) |}.

(** [getStats]: [load(KEYS.STATS, { totalTasksCreated: 0, ... })] *)
Definition getStats (st : store) : Stats := default no_stats (stored_stats st).

(** [saveStats]: [save(KEYS.STATS, stats)] *)
Definition saveStats (s : Stats) (st : store) : store :=
  {| stored_tasks := stored_tasks st;
     stored_stats := if accepted st then Some s else stored_stats st;
     setItem_accepts := setItem_accepts st;
     setItem_calls := S (setItem_calls st) |}.

(** The partial entry handed to [updateDailyStats]. *)
Record DayPatch := { set_completed : option Z; set_created : option Z }.

Definition updateDailyStats (date : string) (data : DayPatch) (st : store)
  : store :=
  let stats := getStats st in
  let entry := default {| completed := 0; created := 0 |}
                       (dailyStats stats !! date) in
  let entry' := {| completed := default (completed entry) (set_completed data);
                   created := default (created entry) (set_created data) |} in
  saveStats {| totalTasksCreated := totalTasksCreated stats;
               totalTasksCompleted := totalTasksCompleted stats;
               currentStreak := currentStreak stats;
               longestStreak := longestStreak stats;
               lastActiveDate := lastActiveDate stats;
               dailyStats := <[date := entry']> (dailyStats stats) |} st.

(** [t.status === 'completed' && t.completedAt && t.completedAt.startsWith(date)],
    the test that [getCompletedCountByDate] and the date-bucketed statistics
    of the task manager share.  A [completedAt] that is truthy but not a
    string has no [startsWith]. *)
Definition completed_on (date : string) (t : obj) : outcome bool :=
  if strict_eq (prop t "status") (VStr "completed") then
    if truthy (prop t "completedAt") then
      match prop t "completedAt" with
      | VStr s => Ok (startsWith s date)
      | _ => Throw TypeError
      end
    else Ok false
  else Ok false.

Definition getCompletedCountByDate (date : string) (st : store) : outcome Z :=
  obind (filter_throwing (completed_on date) (getTasks st))
        (λ l, Ok (Z.of_nat (length l))).

End Storage.

(* ================================================================== *)
(** * The task manager (src/taskManager.js) *)
(* ================================================================== *)

Module TaskManager.

(** [TaskManager.filters] *)
Record Filters := {
  status : val;
  category : val;
  search : val;
  sortBy : val
}.

(** The clock and the random source, as the sequences of values that the
    successive calls return, with the number of calls made so far. *)
Record World := {
  clock : nat → Z;
  clock_reads : nat;
  random : nat → string;
  random_draws : nat
}.

Record state := {
  tasks : list obj;
  filters : Filters;
  storage : Storage.store;
  world : World
}.

(** A method of the task manager. *)
Abbreviation M := (ST state).

Definition get_tasks : M (list obj) := λ s, (Ok (tasks s), s).

Definition set_tasks (ts : list obj) : M unit := λ s,
  (Ok tt, {| tasks := ts; filters := filters s;
             storage := storage s; world := world s |}).

Definition get_storage : M Storage.store := λ s, (Ok (storage s), s).

Definition set_storage (st : Storage.store) : M unit := λ s,
  (Ok tt, {| tasks := tasks s; filters := filters s;
             storage := st; world := world s |}).

(** [new Date()] / [Date.now()]: the next reading of the clock. *)
Definition new_Date : M Z := λ s,
  let w := world s in
  (Ok (clock w (clock_reads w)),
   {| tasks := tasks s; filters := filters s; storage := storage s;
      world := {| clock := clock w; clock_reads := S (clock_reads w);
                  random := random w; random_draws := random_draws w |} |}).

(** [Math.random().toString(36).substr(2, 9)]: the next draw, already
    printed in base 36. *)
Definition Math_random_chars : M string := λ s,
  let w := world s in
  (Ok (random w (random_draws w)),
   {| tasks := tasks s; filters := filters s; storage := storage s;
      world := {| clock := clock w; clock_reads := clock_reads w;
                  random := random w; random_draws := S (random_draws w) |} |}).

Section WithHost.
Context {host : Host}.

(** ** Utils *)

(** [Utils.generateId] *)
Definition generateId : M val :=
  let* now := new_Date ;;
  let* r := Math_random_chars ;;
  ret (VStr (string_of_Z now ++ "-" ++ r)).

(** [new Date().toISOString()] *)
Definition now_iso : M val :=
  let* t := new_Date ;; ret (VStr (toISOString t)).

(** [Utils.getTodayString] *)
Definition getTodayString : M string :=
  let* t := new_Date ;; ret (before "T" (toISOString t)).

(** [new Date(v)], as a time value; [None] is the invalid date. *)
Definition Date_of (v : val) : option Z :=
  match v with
  | VUndef => None
  | VNull => Some 0%Z
  | VBool b => Some (if b then 1 else 0)%Z
  | VNum n => if (Z.abs n <=? 8640000000000000)%Z then Some n else None
  | VStr s =>
      match parse_iso s with
      | Some t => Some t
      | None => Date_parse_legacy s
      end
  end.

(** [a - b] on two dates or numbers; NaN as soon as one is invalid. *)
Definition Number_minus (a b : option Z) : option Z :=
  match a, b with
  | Some x, Some y => Some (x - y)%Z
  | _, _ => None
  end.

(** ** Persistence *)

(** [save] *)
Definition save : M unit :=
  let* ts := get_tasks ;;
  let* st := get_storage ;;
  set_storage (Storage.saveTasks ts st).

(** ** Statistics record *)

(** [diffDays = (todayDate - lastDate) / (1000 * 60 * 60 * 24)], an exact
    quotient (both operands are integers below 2^54, so the rounding of the
    double quotient cannot move it across 1). *)
Definition diffDays (today lastActive : val) : option Q :=
  match Number_minus (Date_of today) (Date_of lastActive) with
  | Some d => Some (inject_Z d / inject_Z MS_PER_DAY)%Q
  | None => None
  end.

(** The body of [updateStats] between [Storage.getStats()] and
    [Storage.saveStats(stats)], given the value of [Utils.getTodayString()]. *)
Definition updateStats_record (action : string) (today : string)
    (stats : Storage.Stats) : Storage.Stats :=
  let created :=
    if String.eqb action "created"
    then (Storage.totalTasksCreated stats + 1)%Z
    else Storage.totalTasksCreated stats in
  let completed :=
    if String.eqb action "created" then Storage.totalTasksCompleted stats
    else if String.eqb action "completed"
    then (Storage.totalTasksCompleted stats + 1)%Z
    else Storage.totalTasksCompleted stats in
  let lastActive := Storage.lastActiveDate stats in
  let current :=
    if truthy lastActive then
      match diffDays (VStr today) lastActive with
      | Some d =>
          if Qeq_bool d 1 then (Storage.currentStreak stats + 1)%Z
          else if negb (Qle_bool d 1) then 1%Z
          else Storage.currentStreak stats
      | None => Storage.currentStreak stats
      end
    else 1%Z in
  let longest :=
    if (Storage.longestStreak stats <? current)%Z then current
    else Storage.longestStreak stats in
  {| Storage.totalTasksCreated := created;
     Storage.totalTasksCompleted := completed;
     Storage.currentStreak := current;
     Storage.longestStreak := longest;
     Storage.lastActiveDate := VStr today;
     Storage.dailyStats := Storage.dailyStats stats |}.

(** [updateStats] *)
Definition updateStats (action : string) : M unit :=
  let* st := get_storage ;;
  let stats := Storage.getStats st in
  let* today := getTodayString ;;
  set_storage (Storage.saveStats (updateStats_record action today stats) st).

(** ** Loading *)

(** [!task.id || typeof task.id === 'number'] *)
Definition needs_migration (task : obj) : bool :=
  negb (truthy (prop task "id")) || is_number (prop task "id").

(** The object built for one task by the [map] in [migrateOldData]. *)
Definition migrate_task (task : obj) : M obj :=
  let* id := (if truthy (prop task "id")
         then ret (VStr (ToString (prop task "id")))
         else generateId) ;;
  let priority := or_else (prop task "priority") (VStr "medium") in
  let* createdAt := (if truthy (prop task "createdAt")
                then ret (prop task "createdAt")
                else now_iso) ;;
  ret (<["createdAt" := createdAt]>
        (<["priority" := priority]> (<["id" := id]> task))).

(** [migrateOldData] *)
Definition migrateOldData : M unit :=
  let* ts := get_tasks ;;
  if existsb needs_migration ts then
    let* ts' := mapM migrate_task ts ;;
    set_tasks ts' ;;
    save
  else ret tt.

(** [init] *)
Definition init : M unit :=
  let* st := get_storage ;;
  set_tasks (Storage.getTasks st) ;;
  migrateOldData.

(** ** Create, update, delete *)

(** [v.trim()] *)
Definition trim (v : val) : M string :=
  match v with
  | VStr s => ret (String_trim s)
  | _ => throw TypeError
  end.

(** [create] *)
Definition create (taskData : obj) : M obj :=
  let* id := generateId ;;
  let* title := trim (prop taskData "title") ;;
  let* description := trim (or_else (prop taskData "description") (VStr "")) ;;
  let* createdAt := now_iso ;;
  let task : obj :=
    <["id" := id]> (
    <["title" := VStr title]> (
    <["description" := VStr description]> (
    <["category" := or_else (prop taskData "category") (VStr "study")]> (
    <["priority" := or_else (prop taskData "priority") (VStr "medium")]> (
    <["deadline" := prop taskData "deadline"]> (
    <["status" := VStr "pending"]> (
    <["createdAt" := createdAt]> (
    <["completedAt" := VNull]> ∅)))))))) in
  let* ts := get_tasks ;;
  set_tasks (ts ++ [task]) ;;
  save ;;
  updateStats "created" ;;
  ret task.

(** "Handle status change to completed": the body of the first [if] of
    [update]; the result is the patch with its new [completedAt]. *)
Definition handle_change_to_completed (updates : obj) : M obj :=
  let* now := now_iso ;;
  updateStats "completed" ;;
  let* today := getTodayString ;;
  let* st := get_storage ;;
  let* n := lift (Storage.getCompletedCountByDate today st) ;;
  let* st := get_storage ;;
  set_storage (Storage.updateDailyStats today
    {| Storage.set_completed := Some (n + 1)%Z;
       Storage.set_created := None |} st) ;;
  ret (<["completedAt" := now]> updates).

(** [update]: the result is the updated task ([None] for [null]) together
    with the patch object as the call leaves it, since [update] writes
    [completedAt] into the object it was given. *)
Definition update (id : val) (updates : obj) : M (option obj * obj) :=
  let* ts := get_tasks ;;
  match findIndex (λ t, strict_eq (prop t "id") id) ts with
  | None => ret (None, updates)
  | Some index =>
      let old := default ∅ (ts !! index) in
      let oldStatus := prop old "status" in
      let newStatus := prop updates "status" in
      let* updates :=
        (if strict_eq newStatus (VStr "completed")
            && negb (strict_eq oldStatus (VStr "completed"))
         then handle_change_to_completed updates
         else ret updates) ;;
      let updates :=
        if strict_eq oldStatus (VStr "completed")
           && negb (strict_eq newStatus (VStr "completed"))
        then <["completedAt" := VNull]> updates
        else updates in
      let task := spread old updates in
      let* ts := get_tasks ;;
      set_tasks (<[index := task]> ts) ;;
      save ;;
      ret (Some task, updates)
  end.

(** [delete] *)
Definition delete (id : val) : M bool :=
  let* ts := get_tasks ;;
  let initialLength := length ts in
  let ts' := List.filter (λ t, negb (strict_eq (prop t "id") id)) ts in
  set_tasks ts' ;;
  if (length ts' <? initialLength)%nat then save ;; ret true
  else ret false.

(** [clearCompleted] *)
Definition clearCompleted : M nat :=
  let* ts := get_tasks ;;
  let completedCount :=
    length (List.filter
      (λ t, strict_eq (prop t "status") (VStr "completed")) ts) in
  set_tasks (List.filter
    (λ t, negb (strict_eq (prop t "status") (VStr "completed"))) ts) ;;
  save ;;
  ret completedCount.

(** [bulkUpdate]: every call of [update] receives the same patch object,
    with whatever the earlier calls wrote into it. *)
Fixpoint bulkUpdate_from (count : nat) (ids : list val) (updates : obj)
  : M (nat * obj) :=
  match ids with
  | [] => ret (count, updates)
  | id :: rest =>
      let* r := update id updates ;;
      bulkUpdate_from (match fst r with Some _ => S count | None => count end)
        rest (snd r)
  end.

Definition bulkUpdate (ids : list val) (updates : obj) : M (nat * obj) :=
  bulkUpdate_from 0 ids updates.

(** [bulkDelete] *)
Definition bulkDelete (ids : list val) : M nat :=
  let* ts := get_tasks ;;
  let initialLength := length ts in
  let ts' := List.filter
    (λ t, negb (existsb (strict_eq (prop t "id")) ids)) ts in
  set_tasks ts' ;;
  (if (length ts' <? initialLength)%nat then save else ret tt) ;;
  ret (initialLength - length ts')%nat.

(** ** Queries *)

(** [getById] *)
Definition getById (id : val) : M (option obj) :=
  let* ts := get_tasks ;;
  ret (List.find (λ t, strict_eq (prop t "id") id) ts).

(** [getAll] *)
Definition getAll : M (list obj) := get_tasks.

(** The comparison functions of [sortTasks]. *)

Definition of_difference (d : option Z) : cmp_result :=
  match d with Some z => CNum z | None => CNaN end.

(** [new Date(b.createdAt) - new Date(a.createdAt)] *)
Definition compare_newest (a b : obj) : cmp_result :=
  of_difference
    (Number_minus (Date_of (prop b "createdAt")) (Date_of (prop a "createdAt"))).

(** [if (!a.deadline) return 1; if (!b.deadline) return -1;
     return new Date(a.deadline) - new Date(b.deadline)] *)
Definition compare_deadline (a b : obj) : cmp_result :=
  if negb (truthy (prop a "deadline")) then CNum 1
  else if negb (truthy (prop b "deadline")) then CNum (-1)
  else of_difference
    (Number_minus (Date_of (prop a "deadline")) (Date_of (prop b "deadline"))).

(** [priorityOrder[p]] with [priorityOrder = { high: 0, medium: 1, low: 2 }];
    [None] for anything that is not a number. *)
Definition priorityOrder (p : val) : option Z :=
  let key := ToString p in
  if String.eqb key "high" then Some 0%Z
  else if String.eqb key "medium" then Some 1%Z
  else if String.eqb key "low" then Some 2%Z
  else None.

(** [priorityOrder[a.priority] - priorityOrder[b.priority]] *)
Definition compare_priority (a b : obj) : cmp_result :=
  of_difference
    (Number_minus (priorityOrder (prop a "priority"))
                (priorityOrder (prop b "priority"))).

(** [a.title.localeCompare(b.title)] *)
Definition compare_alphabetical (a b : obj) : cmp_result :=
  match prop a "title" with
  | VStr s => CNum (String_localeCompare s (ToString (prop b "title")))
  | _ => CThrow TypeError
  end.

(** [sortTasks], on the contents of the arrays: the argument is copied and
    the copy is sorted.  (The arrays themselves are in [Mem] below.) *)
Definition sortTasks (tasks : list obj) (sortBy : val) : outcome (list obj) :=
  let sorted := tasks in
  if strict_eq sortBy (VStr "newest") then Array_sort compare_newest sorted
  else if strict_eq sortBy (VStr "deadline")
  then Array_sort compare_deadline sorted
  else if strict_eq sortBy (VStr "priority")
  then Array_sort compare_priority sorted
  else if strict_eq sortBy (VStr "alphabetical")
  then Array_sort compare_alphabetical sorted
  else Ok sorted.

(** [v.toLowerCase()] *)
Definition toLowerCase (v : val) : outcome string :=
  match v with
  | VStr s => Ok (String_toLowerCase s)
  | _ => Throw TypeError
  end.

(** The callback of the search filter:
    [t.title.toLowerCase().includes(searchLower) ||
     (t.description && t.description.toLowerCase().includes(searchLower))] *)
Definition matches_search (searchLower : string) (t : obj) : outcome bool :=
  obind (toLowerCase (prop t "title")) (λ title,
  if includes title searchLower then Ok true
  else if truthy (prop t "description") then
    obind (toLowerCase (prop t "description")) (λ d,
    Ok (includes d searchLower))
  else Ok false).

(** The body of [getFiltered] as a function of the two fields it reads. *)
Definition filtered (f : Filters) (tasks : list obj) : outcome (list obj) :=
  let result := tasks in
  let result :=
    if negb (strict_eq (status f) (VStr "all"))
    then List.filter (λ t, strict_eq (prop t "status") (status f)) result
    else result in
  let result :=
    if negb (strict_eq (category f) (VStr "all"))
    then List.filter (λ t, strict_eq (prop t "category") (category f)) result
    else result in
  obind
    (if truthy (search f) then
       obind (toLowerCase (search f)) (λ searchLower,
       filter_throwing (matches_search searchLower) result)
     else Ok result) (λ result,
  sortTasks result (sortBy f)).

(** [getFiltered] *)
Definition getFiltered : M (list obj) := λ s,
  (filtered (filters s) (tasks s), s).

(** [setFilter]; a key other than the four of [Filters] adds a property
    that nothing reads. *)
Definition setFilter (key : string) (value : val) : M unit := λ s,
  let f := filters s in
  (Ok tt,
   {| tasks := tasks s;
      filters :=
        {| status := if String.eqb key "status" then value else status f;
           category := if String.eqb key "category" then value else category f;
           search := if String.eqb key "search" then value else search f;
           sortBy := if String.eqb key "sortBy" then value else sortBy f |};
      storage := storage s; world := world s |}).

(** ** Completion statistics *)

Record CompletionStats := {
  total : nat;
  completed : nat;
  pending : nat;
  inProgress : nat;
  skipped : nat;
  completionRate : Z
}.

Definition with_status (st : string) (tasks : list obj) : list obj :=
  List.filter (λ t, strict_eq (prop t "status") (VStr st)) tasks.

(** An array length as a Number. *)
Definition number_of_nat (n : nat) : float :=
  PrimFloat.of_uint63 (Uint63.of_Z (Z.of_nat n)).

(** [Math.round]: the nearest integer, ties towards +infinity; the value of
    the double is read exactly from its mantissa and exponent.  (Infinities
    and NaN, which [getStats] never produces, are sent to 0.) *)
Definition Math_round (x : float) : Z :=
  match Prim2SF x with
  | S754_finite sgn m e =>
      let n := if sgn then Z.neg m else Z.pos m in
      if (0 <=? e)%Z then (n * 2 ^ e)%Z
      else ((2 * n + 2 ^ (- e)) / 2 ^ (- e + 1))%Z
  | _ => 0%Z
  end.

(** [total > 0 ? Math.round((completed / total) * 100) : 0], in doubles. *)
Definition completion_rate (completed total : nat) : Z :=
  if (0 <? total)%nat
  then Math_round
         (PrimFloat.mul
            (PrimFloat.div (number_of_nat completed) (number_of_nat total))
            100%float)
  else 0%Z.

(** [getStats] *)
Definition getStats (tasks : list obj) : CompletionStats :=
  let total := length tasks in
  let completed := length (with_status "completed" tasks) in
  {| total := total;
     completed := completed;
     pending := length (with_status "pending" tasks);
     inProgress := length (with_status "in-progress" tasks);
     skipped := length (with_status "skipped" tasks);
     completionRate := completion_rate completed total |}.

(** ** Streak *)

(** [dateStr] in the [i]-th round of the loop of [getStreak]. *)
Definition dateStr (today : Z) (i : nat) : string :=
  before "T" (toISOString (Date_daysAgo today i)).

(** The loop [for (let i = 0; i < 365; i++)] of [getStreak], with
    [rounds = 365 - i] rounds to go. *)
Fixpoint streak_from (today : Z) (tasks : list obj)
    (rounds i streak : nat) : outcome nat :=
  match rounds with
  | O => Ok streak
  | S rounds' =>
      obind (filter_throwing (Storage.completed_on (dateStr today i)) tasks)
      (λ l,
        let completed := length l in
        if (0 <? completed)%nat
        then streak_from today tasks rounds' (S i) (S streak)
        else if (0 <? i)%nat then Ok streak
        else streak_from today tasks rounds' (S i) streak)
  end.

(** [getStreak] *)
Definition getStreak : M nat :=
  let* today := new_Date ;;
  let* ts := get_tasks ;;
  lift (streak_from today ts 365 0 0).

(** ** Import *)

(** An element of the [tasks] array as [JSON.parse] delivers it: a scalar
    (null, a boolean, a number, a string) or an object.  An array among
    the elements counts as the object of its indices. *)
Inductive element :=
  | Primitive (v : val)
  | Object (o : obj).

(** The [tasks] property of an import payload: absent or a scalar, an
    object that is not an array, or an array. *)
Inductive tasks_value :=
  | Scalar (v : val)
  | PlainObject
  | ArrayOf (elements : list element).

(** [{ tasks, exportDate, version }] *)
Record payload := {
  payload_tasks : tasks_value;
  exportDate : val;
  version : val
}.

(** What [import] is called with, which is what [JSON.parse] made of the
    file: a scalar, or an object (an array at the top is an object
    without [tasks]). *)
Inductive import_data :=
  | NoObject (v : val)
  | Data (p : payload).

(** [data.tasks]: a scalar other than [null] and [undefined] has no such
    property; [null] and [undefined] have no properties to read. *)
Definition tasks_of (data : import_data) : outcome tasks_value :=
  match data with
  | Data p => Ok (payload_tasks p)
  | NoObject v => if is_nullish v then Throw TypeError else Ok (Scalar VUndef)
  end.

Definition tasks_truthy (t : tasks_value) : bool :=
  match t with Scalar v => truthy v | _ => true end.

Definition Array_isArray (t : tasks_value) : bool :=
  match t with ArrayOf _ => true | _ => false end.

Definition elements_of (t : tasks_value) : list element :=
  match t with ArrayOf l => l | _ => [] end.

(** The characters of a string under their indices, from index [i] on. *)
Fixpoint characters (i : nat) (s : string) : obj :=
  match s with
  | EmptyString => ∅
  | String a r =>
      <[string_of_Z (Z.of_nat i) := VStr (String a EmptyString)]>
        (characters (S i) r)
  end.

(** What [{...t}] copies: the properties of an object, the characters of a
    string, nothing from another scalar. *)
Definition own_properties (t : element) : obj :=
  match t with
  | Object o => o
  | Primitive (VStr s) => characters 0 s
  | Primitive _ => ∅
  end.

(** [t.createdAt] *)
Definition createdAt_of (t : element) : outcome val :=
  match t with
  | Object o => Ok (prop o "createdAt")
  | Primitive v => if is_nullish v then Throw TypeError else Ok VUndef
  end.

(** The object built for one element by the [map] in [import]:
    [{ ...t, id: Utils.generateId(),
       createdAt: t.createdAt || new Date().toISOString() }]; the id is
    made before [t.createdAt] is read. *)
Definition import_task (t : element) : M obj :=
  let* id := generateId ;;
  let* createdAt := lift (createdAt_of t) ;;
  let* createdAt := (if truthy createdAt then ret createdAt else now_iso) ;;
  ret (<["createdAt" := createdAt]> (<["id" := id]> (own_properties t))).

(** [import] *)
Definition import (data : import_data) : M nat :=
  let* tasks_ := lift (tasks_of data) ;;
  if negb (tasks_truthy tasks_) || negb (Array_isArray tasks_)
  then throw (Error "Invalid task data")
  else
    let* newTasks := mapM import_task (elements_of tasks_) ;;
    let* ts := get_tasks ;;
    set_tasks (ts ++ newTasks) ;;
    save ;;
    ret (length newTasks).

End WithHost.

(** ** The other queries *)

Section Queries.
Context {host : Host} {zone : LocalTime}.

(** [clearFilters] *)
Definition clearFilters : M unit := λ s,
  (Ok tt,
   {| tasks := tasks s;
      filters := {| status := VStr "all"; category := VStr "all";
                    search := VStr ""; sortBy := VStr "newest" |};
      storage := storage s; world := world s |}).

(** [getByStatus] *)
Definition getByStatus (st : val) : M (list obj) :=
  let* ts := get_tasks ;;
  ret (List.filter (λ t, strict_eq (prop t "status") st) ts).

(** [getByCategory] *)
Definition getByCategory (cat : val) : M (list obj) :=
  let* ts := get_tasks ;;
  ret (List.filter (λ t, strict_eq (prop t "category") cat) ts).

(** [Utils.isOverdue]: both dates are moved to the start of their local
    day and compared; an invalid date compares false. *)
Definition isOverdue (dateString : val) : M bool :=
  if negb (truthy dateString) then ret false
  else
    let date := Date_of dateString in
    let* today := new_Date ;;
    let today := Date_setHours0 today in
    let date := Date_setHours0 <$> date in
    ret (match date with Some d => (d <? today)%Z | None => false end).

(** The callback of [getOverdue]:
    [t.status !== 'completed' && t.status !== 'skipped' && t.deadline &&
     Utils.isOverdue(t.deadline)] *)
Definition is_overdue_task (t : obj) : M bool :=
  if negb (strict_eq (prop t "status") (VStr "completed"))
     && negb (strict_eq (prop t "status") (VStr "skipped"))
     && truthy (prop t "deadline")
  then isOverdue (prop t "deadline")
  else ret false.

(** [getOverdue] *)
Definition getOverdue : M (list obj) :=
  let* ts := get_tasks ;;
  filterM is_overdue_task ts.

(** [getDueToday] *)
Definition getDueToday : M (list obj) :=
  let* today := getTodayString ;;
  let* ts := get_tasks ;;
  ret (List.filter (λ t,
         negb (strict_eq (prop t "status") (VStr "completed"))
         && negb (strict_eq (prop t "status") (VStr "skipped"))
         && strict_eq (prop t "deadline") (VStr today)) ts).

(** [getCategoryDistribution]: the object that the [forEach] over the four
    categories fills, one count per category. *)
Definition categories : list string := ["study"; "work"; "personal"; "health"].

Definition getCategoryDistribution : M (gmap string nat) :=
  let* ts := get_tasks ;;
  ret (foldl (λ distribution cat,
         <[cat := length (List.filter
                    (λ t, strict_eq (prop t "category") (VStr cat)) ts)]>
           distribution)
       ∅ categories).

(** [getActivityLevel] *)
Definition getActivityLevel (count : Z) : Z :=
  if (count =? 0)%Z then 0%Z
  else if (count =? 1)%Z then 1%Z
  else if (count <=? 3)%Z then 2%Z
  else if (count <=? 5)%Z then 3%Z
  else 4%Z.

(** One entry of the array that [getDailyActivity] returns. *)
Record Activity := {
  date : string;
  count : nat;
  level : Z
}.

(** The loop [for (let i = days - 1; i >= 0; i--)] of [getDailyActivity]
    with [rounds = i + 1] rounds to go; every round pushes one entry. *)
Fixpoint daily_activity_from (today : Z) (tasks : list obj) (rounds : nat)
    (activity : list Activity) : outcome (list Activity) :=
  match rounds with
  | O => Ok activity
  | S i =>
      obind (filter_throwing (Storage.completed_on (dateStr today i)) tasks)
      (λ l,
        let completed := length l in
        daily_activity_from today tasks i
          (activity ++ [ {| date := dateStr today i;
                            count := completed;
                            level := getActivityLevel (Z.of_nat completed) |} ]))
  end.

(** [getDailyActivity(days = 30)]; [None] is the call without argument. *)
Definition getDailyActivity (days : option Z) : M (list Activity) :=
  let days := default 30%Z days in
  let* today := new_Date ;;
  let* ts := get_tasks ;;
  lift (daily_activity_from today ts (Z.to_nat days) []).

(** [{ labels, data }] *)
Record WeeklyData := {
  labels : list val;
  data : list nat
}.

Definition day_names : list string :=
  ["Sun"; "Mon"; "Tue"; "Wed"; "Thu"; "Fri"; "Sat"].

(** [days[n]] *)
Definition day_name (n : Z) : val :=
  if (n <? 0)%Z then VUndef
  else match day_names !! Z.to_nat n with
       | Some name => VStr name
       | None => VUndef
       end.

(** The first loop of [getWeeklyData], [for (let i = 6; i >= 0; i--)] with
    [rounds = i + 1] rounds to go: [data[6 - i] = count]. *)
Fixpoint weekly_data_from (today : Z) (tasks : list obj) (rounds : nat)
    (data : list nat) : outcome (list nat) :=
  match rounds with
  | O => Ok data
  | S i =>
      obind (filter_throwing (Storage.completed_on (dateStr today i)) tasks)
      (λ l, weekly_data_from today tasks i (<[(6 - i)%nat := length l]> data))
  end.

(** The second loop: [labels.push(days[date.getDay()])]. *)
Fixpoint weekly_labels_from (today : Z) (rounds : nat) (labels : list val)
  : list val :=
  match rounds with
  | O => labels
  | S i =>
      weekly_labels_from today i
        (labels ++ [day_name (Date_getDay (Date_daysAgo today i))])
  end.

(** [getWeeklyData] *)
Definition getWeeklyData : M WeeklyData :=
  let data := replicate 7 O in
  let* today := new_Date ;;
  let* ts := get_tasks ;;
  let* data := lift (weekly_data_from today ts 7 data) ;;
  let labels := weekly_labels_from today 7 [] in
  ret {| labels := labels; data := data |}.

(** [export], up to the call of [Utils.downloadJSON]: the object and the
    file name that the call receives. *)
Definition export : M (payload * string) :=
  let* ts := get_tasks ;;
  let* exportDate := now_iso ;;
  let data := {| payload_tasks := ArrayOf (Object <$> ts);
                 exportDate := exportDate;
                 version := VStr "1.0" |} in
  let* today := getTodayString ;;
  ret (data, "tasks-" +:+ today +:+ ".json").

End Queries.
End TaskManager.

(* ================================================================== *)
(** * The application (app.js) *)
(* ================================================================== *)

Module App.
Import TaskManager.

Section WithHost.
Context {host : Host}.

(** The array [demoTasks] of [addDemoData]; its elements are built in
    order, and five of their fields read the clock. *)
Definition demoTasks : M (list obj) :=
  let* deadline1 := getTodayString ;;
  let* now2 := new_Date ;;
  let deadline2 := before "T" (toISOString (now2 + 86400000)%Z) in
  let* deadline3 := getTodayString ;;
  let* completedAt3 := now_iso ;;
  let* now4 := new_Date ;;
  let deadline4 := before "T" (toISOString (now4 + 172800000)%Z) in
  ret [ <["title" := VStr "Complete CS Assignment"]> (
        <["description" :=
            VStr "Finish the data structures homework before the deadline."]> (
        <["category" := VStr "study"]> (
        <["priority" := VStr "high"]> (
        <["deadline" := VStr deadline1]> (
        <["status" := VStr "in-progress"]> ∅)))));
        <["title" := VStr "Read Research Paper"]> (
        <["description" :=
            VStr "Read and summarize the latest ML research paper."]> (
        <["category" := VStr "study"]> (
        <["priority" := VStr "medium"]> (
        <["deadline" := VStr deadline2]> (
        <["status" := VStr "pending"]> ∅)))));
        <["title" := VStr "Morning Exercise"]> (
        <["description" := VStr "30 minutes of cardio workout."]> (
        <["category" := VStr "health"]> (
        <["priority" := VStr "medium"]> (
        <["deadline" := VStr deadline3]> (
        <["status" := VStr "completed"]> (
        <["completedAt" := completedAt3]> ∅))))));
        <["title" := VStr "Update Resume"]> (
        <["description" :=
            VStr "Update CV with recent projects and skills."]> (
        <["category" := VStr "work"]> (
        <["priority" := VStr "low"]> (
        <["deadline" := VStr deadline4]> (
        <["status" := VStr "pending"]> ∅))))) ].

(** [addDemoData]; the result tells whether the welcome toast is shown. *)
Definition addDemoData : M bool :=
  let* tasks := getAll ;;
  if (length tasks =? 0)%nat then
    let* demo := demoTasks ;;
    mapM create demo ;;
    ret true
  else ret false.

(** [checkDailyReset]; the result tells whether the toast about the reset
    streak is shown. *)
Definition checkDailyReset : M bool :=
  let* st := get_storage ;;
  let stats := Storage.getStats st in
  let* today := getTodayString ;;
  if truthy (Storage.lastActiveDate stats)
     && negb (strict_eq (Storage.lastActiveDate stats) (VStr today))
  then
    match diffDays (VStr today) (Storage.lastActiveDate stats) with
    | Some d => ret (negb (Qle_bool d 1))
    | None => ret false
    end
  else ret false.

End WithHost.
End App.

(* ================================================================== *)
(** * Arrays as mutable objects *)
(* ================================================================== *)

(** [getFiltered] and [sortTasks] once more, this time on arrays that live
    in a store and are named by their address: [[...a]] and [a.filter(p)]
    make a new array, [a.sort(f)] rewrites [a] itself and returns it.  This
    is the level at which "does not mutate the collection" says something. *)
Module Mem.
Import TaskManager.

Record state := {
  this_tasks : nat;                 (* the array [TaskManager.tasks] *)
  this_filters : Filters;           (* the object [TaskManager.filters] *)
  arrays : gmap nat (list obj)      (* the contents of every live array *)
}.

Definition allocate (l : list obj) : ST state nat := λ s,
  let a := fresh (dom (arrays s)) in
  (Ok a, {| this_tasks := this_tasks s; this_filters := this_filters s;
            arrays := <[a := l]> (arrays s) |}).

Definition contents (a : nat) : ST state (list obj) := λ s,
  (Ok (default [] (arrays s !! a)), s).

Definition overwrite (a : nat) (l : list obj) : ST state unit := λ s,
  (Ok tt, {| this_tasks := this_tasks s; this_filters := this_filters s;
             arrays := <[a := l]> (arrays s) |}).

Definition get_this_tasks : ST state nat := λ s, (Ok (this_tasks s), s).

Definition get_this_filters : ST state Filters := λ s, (Ok (this_filters s), s).

Section WithHost.
Context {host : Host}.

(** [[...a]] *)
Definition copy (a : nat) : ST state nat :=
  let* l := contents a ;; allocate l.

(** [a.filter(p)] *)
Definition Array_filter (p : obj → outcome bool) (a : nat) : ST state nat :=
  let* l := contents a ;;
  let* l' := lift (filter_throwing p l) ;;
  allocate l'.

(** [a.sort(comparefn)]: in place; the array is returned.  If the
    comparison function throws, the array keeps its contents. *)
Definition Array_sort_in_place (comparefn : obj → obj → cmp_result) (a : nat)
  : ST state nat :=
  let* l := contents a ;;
  let* l' := lift (Array_sort comparefn l) ;;
  overwrite a l' ;;
  ret a.

(** [sortTasks] *)
Definition sortTasks (tasks : nat) (sortBy : val) : ST state nat :=
  let* sorted := copy tasks ;;
  if strict_eq sortBy (VStr "newest")
  then Array_sort_in_place compare_newest sorted
  else if strict_eq sortBy (VStr "deadline")
  then Array_sort_in_place compare_deadline sorted
  else if strict_eq sortBy (VStr "priority")
  then Array_sort_in_place compare_priority sorted
  else if strict_eq sortBy (VStr "alphabetical")
  then Array_sort_in_place compare_alphabetical sorted
  else ret sorted.

(** [getFiltered] *)
Definition getFiltered : ST state nat :=
  let* tasks := get_this_tasks ;;
  let* result := copy tasks ;;
  let* f := get_this_filters ;;
  let* result :=
    (if negb (strict_eq (status f) (VStr "all"))
     then
       let* f := get_this_filters ;;
       Array_filter (λ t, Ok (strict_eq (prop t "status") (status f))) result
     else ret result) ;;
  let* f := get_this_filters ;;
  let* result :=
    (if negb (strict_eq (category f) (VStr "all"))
     then
       let* f := get_this_filters ;;
       Array_filter (λ t, Ok (strict_eq (prop t "category") (category f)))
                    result
     else ret result) ;;
  let* f := get_this_filters ;;
  let* result :=
    (if truthy (search f) then
       let* searchLower := lift (toLowerCase (search f)) ;;
       Array_filter (matches_search searchLower) result
     else ret result) ;;
  let* f := get_this_filters ;;
  sortTasks result (sortBy f).

End WithHost.
End Mem.

(* ================================================================== *)
(** * The vocabulary of the specification *)
(* ================================================================== *)

(** The notions that the properties below are stated with.  None of them
    is used by the model above. *)
Module Spec.
Import TaskManager.

Section WithHost.
Context {host : Host}.

(** ** Rolling streak *)

(** The date that [Utils.getTodayString()] returns when called in [s]. *)
Definition today_in (s : state) : string :=
  before "T" (toISOString (clock (world s) (clock_reads (world s)))).

(** Milliseconds from the day [lastActive] to the day [today], as [Date]
    reads the two; [None] when one of them is not a date. *)
Definition elapsed (lastActive : val) (today : string) : option Z :=
  match Date_of lastActive, Date_of (VStr today) with
  | Some l, Some t => Some (t - l)%Z
  | _, _ => None
  end.

(** ** Derived streak *)

(** A [completedAt] as the data model types it: a timestamp or null. *)
Definition timestamp_or_null (v : val) : Prop :=
  match v with VStr _ | VNull | VUndef => True | _ => False end.

(** Round [i] of the loop of [getStreak] finds a completed task: a task
    whose status is [completed] and whose [completedAt] starts with the
    date of that round. *)
Definition completed_that_day (today : Z) (tasks : list obj) (i : nat) : bool :=
  existsb (λ t,
    strict_eq (prop t "status") (VStr "completed") &&
    match prop t "completedAt" with
    | VStr at_ => startsWith at_ (dateStr today i)
    | _ => false
    end) tasks.

(** The number of the UTC calendar day that holds the time [t], counted
    from 1970-01-01, and the date [YYYY-MM-DD] of the day with number
    [d]. *)
Definition day_of (t : Z) : Z := (t / MS_PER_DAY)%Z.

Definition date_of_day (d : Z) : string :=
  before "T" (toISOString (d * MS_PER_DAY)).

(** The calendar day [d] has a completed task: a task whose status is
    [completed] and whose [completedAt] starts with the date of [d]. *)
Definition completed_on_day (tasks : list obj) (d : Z) : bool :=
  existsb (λ t,
    strict_eq (prop t "status") (VStr "completed") &&
    match prop t "completedAt" with
    | VStr at_ => startsWith at_ (date_of_day d)
    | _ => false
    end) tasks.

(** The calendar day [d] has a task whose [completedAt] lies on it,
    whatever the status of the task. *)
Definition completedAt_on_day (tasks : list obj) (d : Z) : bool :=
  existsb (λ t,
    match prop t "completedAt" with
    | VStr at_ => startsWith at_ (date_of_day d)
    | _ => false
    end) tasks.

(** Going back [i] days in local time from the time [t] lands on the UTC
    calendar day [i] days before the day of [t], for every [i] below
    [days]. *)
Definition in_step (tza : time_zone) (t : Z) (days : nat) : bool :=
  forallb (λ i, (day_of (setDate_back tza t i) =? day_of t - Z.of_nat i)%Z)
          (seq 0 days).

(** At the time [t], and at the same local time of day on each of the
    [days] days before, the zone has one and the same offset from UTC. *)
Definition steady (tza : time_zone) (t : Z) (days : nat) : Prop :=
  ∀ i, i < days →
    tza (local_time tza t - Z.of_nat i * MS_PER_DAY)%Z false = tza t true.

(** The walk of the specification over at most 365 days: [stop] is the
    first day other than today without a completion (365 if there is
    none); every day from yesterday to the day after [stop] counts, and
    today counts if and only if it has a completion. *)
Definition streak_walk (counts : nat → bool) (streak : nat) : Prop :=
  ∃ stop : nat,
    (1 ≤ stop ≤ 365)%nat ∧
    (∀ i, (1 ≤ i < stop)%nat → counts i = true) ∧
    ((stop < 365)%nat → counts stop = false) ∧
    streak = ((if counts O then 1 else 0) + (stop - 1))%nat.

(** ** Completion rate *)

(** [round(100 * completed / total)] on exact numbers, halves rounded up;
    0 for an empty collection. *)
Definition rounded_percentage (completed total : nat) : Z :=
  if (total =? 0)%nat then 0%Z
  else ((200 * Z.of_nat completed + Z.of_nat total) / (2 * Z.of_nat total))%Z.

(** ** Import *)

(** From [s] to [s'] only the clock was read and the random source drawn
    from. *)
Definition only_time_passes (s s' : state) : Prop :=
  tasks s' = tasks s ∧ filters s' = filters s ∧ storage s' = storage s ∧
  clock (world s') = clock (world s) ∧ random (world s') = random (world s) ∧
  clock_reads (world s) ≤ clock_reads (world s') ∧
  random_draws (world s) ≤ random_draws (world s').

(** An id made by [Utils.generateId] in world [w] after [reads] readings of
    the clock and [draws] draws: a later reading, a dash, a later draw. *)
Definition generated_after (w : World) (reads draws : nat) (id : val) : Prop :=
  ∃ k j, reads ≤ k ∧ draws ≤ j ∧
         id = VStr (string_of_Z (clock w k) +:+ "-" +:+ random w j).

(** [createdAt] after [t.createdAt || new Date().toISOString()]. *)
Definition createdAt_or_now (w : World) (reads : nat) (t : obj) (v : val) : Prop :=
  if truthy (prop t "createdAt") then v = prop t "createdAt"
  else ∃ k, reads ≤ k ∧ v = VStr (toISOString (clock w k)).

(** What [import] makes of the element [t] of the payload in state [s]:
    the same properties, except for a generated [id] and a defaulted
    [createdAt]. *)
Definition imported_in (s : state) (t : element) (new : obj) : Prop :=
  ∃ id createdAt,
    new = <["createdAt" := createdAt]> (<["id" := id]> (own_properties t)) ∧
    generated_after (world s) (clock_reads (world s)) (random_draws (world s)) id ∧
    createdAt_or_now (world s) (clock_reads (world s)) (own_properties t)
      createdAt.

(** The element is [null] or [undefined]. *)
Definition is_null_element (t : element) : bool :=
  match t with Primitive v => is_nullish v | Object _ => false end.

(** The id that [Utils.generateId] makes from the time [now] and the
    characters [r]. *)
Definition id_of (now : Z) (r : string) : val :=
  VStr (string_of_Z now +:+ "-" +:+ r).

(** What [import] makes of the element number [i] of the payload: its id
    comes from a reading of the clock that is not among the first
    [reads + i], and from draw number [draws + i]. *)
Definition imported_as (w : World) (reads draws i : nat) (t : element)
    (new : obj) : Prop :=
  ∃ k createdAt,
    reads + i ≤ k ∧
    new = <["createdAt" := createdAt]>
            (<["id" := id_of (clock w k) (random w (draws + i))]>
               (own_properties t)) ∧
    createdAt_or_now w k (own_properties t) createdAt.

(** ** Operations and their sequences *)

(** The patch object as [update] leaves it when it is applied to the task
    [old] at time [now]. *)
Definition patched (old updates : obj) (now : val) : obj :=
  let to_completed :=
    strict_eq (prop updates "status") (VStr "completed")
    && negb (strict_eq (prop old "status") (VStr "completed")) in
  let from_completed :=
    strict_eq (prop old "status") (VStr "completed")
    && negb (strict_eq (prop updates "status") (VStr "completed")) in
  let u := if to_completed then <["completedAt" := now]> updates else updates in
  if from_completed then <["completedAt" := VNull]> u else u.

(** The public operations that change the collection. *)
Inductive operation :=
  | Create (taskData : obj)
  | Update (id : val) (patch : obj)
  | Delete (id : val)
  | ClearCompleted
  | BulkUpdate (ids : list val) (patch : obj)
  | BulkDelete (ids : list val)
  | Import (data : import_data).

Definition perform (o : operation) : M unit :=
  match o with
  | Create taskData => create taskData ;; ret tt
  | Update id patch => update id patch ;; ret tt
  | Delete id => delete id ;; ret tt
  | ClearCompleted => clearCompleted ;; ret tt
  | BulkUpdate ids patch => bulkUpdate ids patch ;; ret tt
  | BulkDelete ids => bulkDelete ids ;; ret tt
  | Import data => import data ;; ret tt
  end.

(** The state after a sequence of operations; an operation that throws
    leaves what it had done so far, and the sequence goes on. *)
Fixpoint run (ops : list operation) (s : state) : state :=
  match ops with
  | [] => s
  | o :: rest => run rest (snd (perform o s))
  end.

(** ** [completedAt] and [status] *)

(** [completedAt] is non-null if and only if [status] is [completed]. *)
Definition completion_matches (t : obj) : bool :=
  Bool.eqb (negb (is_nullish (prop t "completedAt")))
           (strict_eq (prop t "status") (VStr "completed")).

(** A patch that names a status and does not contradict itself: if it
    carries a [completedAt] at all, that one is non-null exactly when the
    status it carries is [completed]. *)
Definition patch_agrees (p : obj) : Prop :=
  is_Some (p !! "status") ∧
  (p !! "completedAt" = None ∨ completion_matches p = true).

Definition keeps_completion (o : operation) : Prop :=
  match o with
  | Update _ patch | BulkUpdate _ patch => patch_agrees patch
  | Import data =>
      ∀ tasks_, tasks_of data = Ok tasks_ →
        Forall (λ t, completion_matches (own_properties t) = true)
               (elements_of tasks_)
  | _ => True
  end.

(** ** Identity of a task *)

Definition identity (t : obj) : val * val := (prop t "id", prop t "createdAt").

(** A patch that names neither [id] nor [createdAt]. *)
Definition patch_spares_identity (p : obj) : Prop :=
  p !! "id" = None ∧ p !! "createdAt" = None.

Definition spares_identity (o : operation) : Prop :=
  match o with
  | Update _ patch | BulkUpdate _ patch => patch_spares_identity patch
  | _ => True
  end.

(** What one operation may do to the collection: an update leaves every
    task in place with its identity; a deletion removes tasks and leaves
    the others as they are; a creation or an import appends. *)
Definition identities_after (o : operation) (old new : list obj) : Prop :=
  match o with
  | Update _ _ | BulkUpdate _ _ => identity <$> new = identity <$> old
  | Delete _ | ClearCompleted | BulkDelete _ =>
      ∃ keep : obj → bool, new = List.filter keep old
  | Create _ | Import _ => ∃ added, new = old ++ added
  end.

(** The same along a sequence of operations. *)
Fixpoint identities_along (ops : list operation) (old new : list obj) : Prop :=
  match ops with
  | [] => new = old
  | o :: rest =>
      ∃ mid, identities_after o old mid ∧ identities_along rest mid new
  end.

(** ** Filtering and sorting *)

(** The comparison function that [sortTasks] hands to [sort] for a mode;
    [None] for a mode it does not know, where it returns the copy as it
    is. *)
Definition comparison_of (sortBy : val) : option (obj → obj → cmp_result) :=
  if strict_eq sortBy (VStr "newest") then Some compare_newest
  else if strict_eq sortBy (VStr "deadline") then Some compare_deadline
  else if strict_eq sortBy (VStr "priority") then Some compare_priority
  else if strict_eq sortBy (VStr "alphabetical") then Some compare_alphabetical
  else None.

(** Nothing that existed in [m0] has changed in [m]: the manager still
    points to the same array and the same filters, and every array of
    [m0] has the contents it had. *)
Definition untouched (m0 m : Mem.state) : Prop :=
  Mem.this_tasks m = Mem.this_tasks m0 ∧
  Mem.this_filters m = Mem.this_filters m0 ∧
  ∀ a l, Mem.arrays m0 !! a = Some l → Mem.arrays m !! a = Some l.

(** The call that ended in [m], with result [r], computed [expected] in
    an array that did not exist in [m0] (or threw what [expected] throws),
    and left [m0] untouched. *)
Definition computes (m0 m : Mem.state) (r : outcome nat)
    (expected : outcome (list obj)) : Prop :=
  untouched m0 m ∧
  match r, expected with
  | Ok a, Ok l => Mem.arrays m0 !! a = None ∧ Mem.arrays m !! a = Some l
  | Throw e, Throw e' => e = e'
  | _, _ => False
  end.

(** The ids of a result, to read examples by. *)
Definition ids_of (r : outcome (list obj)) : outcome (list val) :=
  obind r (λ l, Ok ((λ t, prop t "id") <$> l)).

(** A task whose deadline is present and a date: [d] is its time value. *)
Definition dated (t : obj) (d : Z) : Prop :=
  truthy (prop t "deadline") = true ∧ Date_of (prop t "deadline") = Some d.

(** ** Migration *)

(** What the migration makes of the record [t] in state [s]: an [id] that
    is a string (the old id printed, or a generated one where there was
    none), the old priority or [medium], the old [createdAt] or the
    current time; every other property as it was. *)
Definition migrated_in (s : state) (t new : obj) : Prop :=
  ∃ id createdAt,
    new = <["createdAt" := createdAt]>
            (<["priority" := or_else (prop t "priority") (VStr "medium")]>
               (<["id" := id]> t)) ∧
    (if truthy (prop t "id") then id = VStr (ToString (prop t "id"))
     else generated_after (world s) (clock_reads (world s))
            (random_draws (world s)) id) ∧
    createdAt_or_now (world s) (clock_reads (world s)) t createdAt.

(** The payload with the incoming ids struck out. *)
Definition without_id (t : element) : element :=
  match t with
  | Object o => Object (base.delete "id" o)
  | Primitive v => Primitive v
  end.

Definition without_ids (data : import_data) : import_data :=
  match data with
  | NoObject v => NoObject v
  | Data p =>
      Data {| payload_tasks :=
                match payload_tasks p with
                | ArrayOf l => ArrayOf (without_id <$> l)
                | other => other
                end;
              exportDate := exportDate p;
              version := version p |}
  end.

(** ** What is saved, and the stats record *)

(** [localStorage] accepts every write from now on. *)
Definition writable (st : Storage.store) : Prop :=
  ∀ n, Storage.setItem_calls st ≤ n → Storage.setItem_accepts st n = true.

(** [localStorage] refuses every write from now on: the browser has
    storage switched off, or the quota is used up. *)
Definition unwritable (st : Storage.store) : Prop :=
  ∀ n, Storage.setItem_calls st ≤ n → Storage.setItem_accepts st n = false.

(** What [create] does to [localStorage] when it appends a task: it writes
    the collection [ts], and then a stats record that counts one more
    task created. *)
Definition created_into (st st1 : Storage.store) (ts : list obj) : Prop :=
  ∃ stats' : Storage.Stats,
    st1 = Storage.saveStats stats' (Storage.saveTasks ts st) ∧
    Storage.totalTasksCreated stats' =
      (Storage.totalTasksCreated (Storage.getStats st) + 1)%Z.

(** The saved collection is the collection in memory, as JSON renders
    it. *)
Definition in_sync (s : state) : Prop :=
  Storage.getTasks (storage s) = JSON_roundtrip <$> tasks s.

(** In sync, with a [localStorage] that accepts every write. *)
Definition saving (s : state) : Prop := in_sync s ∧ writable (storage s).

(** The operations that have no reason to write the stats record: all but
    [create] and the updates whose patch sets the status to [completed]. *)
Definition leaves_stats (o : operation) : Prop :=
  match o with
  | Create _ => False
  | Update _ patch | BulkUpdate _ patch =>
      prop patch "status" ≠ VStr "completed"
  | _ => True
  end.

(** The task counts as completed on the day [day] ([YYYY-MM-DD]). *)
Definition completed_on_date (day : string) (t : obj) : bool :=
  strict_eq (prop t "status") (VStr "completed") &&
  match prop t "completedAt" with
  | VStr at_ => startsWith at_ day
  | _ => false
  end.

(** The [completed] and [created] counters of a day in the stats record;
    0 for a day without entry. *)
Definition completed_counter (day : string) (s : state) : Z :=
  match Storage.dailyStats (Storage.getStats (storage s)) !! day with
  | Some entry => Storage.completed entry
  | None => 0%Z
  end.

Definition created_counter (day : string) (s : state) : Z :=
  match Storage.dailyStats (Storage.getStats (storage s)) !! day with
  | Some entry => Storage.created entry
  | None => 0%Z
  end.

(** ** Statistics *)

(** The four statuses that [getStats] counts. *)
Definition known_statuses : list val :=
  [VStr "completed"; VStr "pending"; VStr "in-progress"; VStr "skipped"].

(** The categories of [getCategoryDistribution], as values. *)
Definition known_categories : list val := VStr <$> categories.

(** The number that a distribution holds for a category; 0 when it has
    none. *)
Definition count_in (distribution : gmap string nat) (cat : string) : nat :=
  default O (distribution !! cat).

(** The entry that round [i] of the loop of [getDailyActivity] makes: the
    date of the round, the number of tasks completed on it, and the level
    of that number. *)
Definition activity_entry (today : Z) (ts : list obj) (i : nat) : Activity :=
  let completed :=
    length (List.filter (completed_on_date (dateStr today i)) ts) in
  {| date := dateStr today i;
     count := completed;
     level := getActivityLevel (Z.of_nat completed) |}.

(** The entry of the activity graph for the calendar day [d]: its date,
    the number of tasks completed on it, and the level of that number. *)
Definition activity_of_day (ts : list obj) (d : Z) : Activity :=
  let completed :=
    length (List.filter (completed_on_date (date_of_day d)) ts) in
  {| date := date_of_day d;
     count := completed;
     level := getActivityLevel (Z.of_nat completed) |}.

(** ** Orders by a key *)

(** [a] may stand before [b] in the order by [key]: both have a key, and
    the one of [a] is not the greater. *)
Definition rank_le (key : obj → option Z) (a b : obj) : Prop :=
  match key a, key b with
  | Some x, Some y => (x ≤ y)%Z
  | _, _ => False
  end.

(** The key of [t] is [k]. *)
Definition same_key (key : obj → option Z) (k : Z) (t : obj) : bool :=
  match key t with Some x => (x =? k)%Z | None => false end.


Definition newest_rank (t : obj) : option Z :=
  Z.opp <$> Date_of (prop t "createdAt").

(** ** What the filters let through *)

(** The task passes the three filters: each of them is switched off or
    matches. *)
Definition passes (f : Filters) (t : obj) : Prop :=
  (status f = VStr "all" ∨ prop t "status" = status f) ∧
  (category f = VStr "all" ∨ prop t "category" = category f) ∧
  (truthy (search f) = false ∨
   ∃ q, toLowerCase (search f) = Ok q ∧ matches_search q t = Ok true).

(** ** What [create] reads *)

(** The fields of the form, the only ones that [create] looks at. *)
Definition form_fields : list string :=
  ["title"; "description"; "category"; "priority"; "deadline"].

(** The data have a title that is a string, and a description that is a
    string or falsy ([create] calls [trim] on the title and on
    [description || '']). *)
Definition well_formed (taskData : obj) : bool :=
  match prop taskData "title",
        or_else (prop taskData "description") (VStr "") with
  | VStr _, VStr _ => true
  | _, _ => false
  end.

(** ** The stats record over time *)

(** From [old] to [new] the two totals and the longest streak have not
    fallen, and if the current streak was not above the longest one, it is
    not now. *)
Definition grown (old new : Storage.Stats) : Prop :=
  (Storage.totalTasksCreated old ≤ Storage.totalTasksCreated new)%Z ∧
  (Storage.totalTasksCompleted old ≤ Storage.totalTasksCompleted new)%Z ∧
  (Storage.longestStreak old ≤ Storage.longestStreak new)%Z ∧
  ((Storage.currentStreak old ≤ Storage.longestStreak old)%Z →
   (Storage.currentStreak new ≤ Storage.longestStreak new)%Z).

End WithHost.

(** ** Ids *)

(** The string holds no dash. *)
Fixpoint no_dash (s : string) : bool :=
  match s with
  | EmptyString => true
  | String a r => negb (Ascii.eqb a "-") && no_dash r
  end.

(** ** Outcomes of calls *)

(** The call returned. *)
Definition returned {A} (o : outcome A) : bool :=
  match o with Ok _ => true | Throw _ => false end.

(** The call of [update] returned a task, not [null]. *)
Definition returned_task {A B} (o : outcome (option A * B)) : bool :=
  match o with Ok (Some _, _) => true | _ => false end.

(** ** States to run the code on *)

(** A clock that starts at 2024-02-29T12:34:56.789Z and advances by one
    millisecond per reading, and a random source whose draws differ. *)
Definition leap_day_noon : World := {|
  clock := λ n, (1709210096789 + Z.of_nat n)%Z;
  clock_reads := 0;
  random := λ n, "k3j2h1g" +:+ pad 2 (Z.of_nat n);
  random_draws := 0
|}.

(** An evening in New York, 19:30 on the day the clocks went forward:
    2024-03-10T23:30:00.000Z. *)
Definition spring_forward_evening : World := {|
  clock := λ n, (1710113400000 + Z.of_nat n)%Z;
  clock_reads := 0;
  random := λ n, "k3j2h1g" +:+ pad 2 (Z.of_nat n);
  random_draws := 0
|}.

Definition no_filters : Filters := {|
  status := VStr "all";
  category := VStr "all";
  search := VStr "";
  sortBy := VStr "newest"
|}.

(** A [localStorage] that holds nothing yet and accepts every write, and
    one that is switched off: it holds nothing and refuses every write. *)
Definition empty_storage : Storage.store := {|
  Storage.stored_tasks := None;
  Storage.stored_stats := None;
  Storage.setItem_accepts := λ _, true;
  Storage.setItem_calls := 0
|}.

Definition no_storage : Storage.store := {|
  Storage.stored_tasks := None;
  Storage.stored_stats := None;
  Storage.setItem_accepts := λ _, false;
  Storage.setItem_calls := 0
|}.

Definition state_with (ts : list obj) (stats : option Storage.Stats) : state := {|
  tasks := ts;
  filters := no_filters;
  storage := {| Storage.stored_tasks := Some ts;
               Storage.stored_stats := stats;
               Storage.setItem_accepts := λ _, true;
               Storage.setItem_calls := 0 |};
  world := leap_day_noon
|}.

Definition stats_of (current longest : Z) (lastActive : val) : Storage.Stats := {|
  Storage.totalTasksCreated := 7;
  Storage.totalTasksCompleted := 3;
  Storage.currentStreak := current;
  Storage.longestStreak := longest;
  Storage.lastActiveDate := lastActive;
  Storage.dailyStats := ∅
|}.

(** A record written by an old version: a string id, but no priority. *)
Definition legacy_without_priority : obj :=
  <["id" := VStr "7f3a"]> (
  <["title" := VStr "Essay"]> (
  <["status" := VStr "pending"]> (
  <["createdAt" := VStr "2023-11-02T10:00:00.000Z"]> ∅))).

(** A record written by an older version still: a numeric id, nothing else
    but a title. *)
Definition legacy_with_number : obj :=
  <["id" := VNum 42]> (<["title" := VStr "Run"]> ∅).

(** A task as [create] and [update] leave it. *)
Definition task (id title status_ : string) (completedAt : val) : obj :=
  <["id" := VStr id]> (
  <["title" := VStr title]> (
  <["description" := VStr ""]> (
  <["category" := VStr "study"]> (
  <["priority" := VStr "medium"]> (
  <["deadline" := VStr "2024-03-05"]> (
  <["status" := VStr status_]> (
  <["createdAt" := VStr "2024-02-20T08:00:00.000Z"]> (
  <["completedAt" := completedAt]> ∅)))))))).

(** A task entered with the deadline field left empty. *)
Definition undated (id title : string) : obj :=
  <["deadline" := VStr ""]> (task id title "pending" VNull).

(** An export edited by hand: one task marked completed, its completion
    time still null. *)
Definition hand_written_export : import_data := Data {|
  payload_tasks :=
    ArrayOf [ Object (<["title" := VStr "Essay"]> (
                      <["status" := VStr "completed"]> (
                      <["completedAt" := VNull]> ∅))) ];
  exportDate := VStr "2024-02-01T00:00:00.000Z";
  version := VStr "1.0"
|}.

(** A file from another tool: the completion time is a number of
    milliseconds. *)
Definition export_with_number : import_data := Data {|
  payload_tasks :=
    ArrayOf [ Object (<["title" := VStr "Essay"]> (
                      <["status" := VStr "completed"]> (
                      <["completedAt" := VNum 1709200000000]> ∅))) ];
  exportDate := VStr "2024-02-01T00:00:00.000Z";
  version := VStr "1.0"
|}.

(** A file that holds a list with a gap: its second task is [null]. *)
Definition export_with_null : import_data := Data {|
  payload_tasks :=
    ArrayOf [ Object (<["title" := VStr "Essay"]> ∅); Primitive VNull ];
  exportDate := VStr "2024-02-01T00:00:00.000Z";
  version := VStr "1.0"
|}.

(** A morning of work: a task is created and completed, another is
    created, the completed one is cleared away, and work goes on. *)
Definition a_morning : list operation :=
  [ Create (<["title" := VStr " Essay "]> (<["deadline" := VStr "2024-03-05"]> ∅));
    Update (VStr "1709210096789-k3j2h1g00") (<["status" := VStr "completed"]> ∅);
    Create (<["title" := VStr "Run"]> ∅);
    ClearCompleted;
    BulkUpdate [VStr "1709210096789-k3j2h1g00"; VStr "1709210096795-k3j2h1g01"]
               (<["status" := VStr "in-progress"]> ∅);
    Update (VStr "1709210096795-k3j2h1g01")
           (<["status" := VStr "completed"]> (<["title" := VStr "Run 5k"]> ∅));
    Create (<["title" := VStr "Read"]> (<["priority" := VStr "high"]> ∅));
    Delete (VStr "1709210096789-k3j2h1g00") ].

(** Completions today, yesterday and three days ago, as seen from
    [leap_day_noon]. *)
Definition three_completions : list obj :=
  [ task "a" "Essay" "completed" (VStr "2024-02-29T09:00:00.000Z");
    task "b" "Run" "completed" (VStr "2024-02-28T18:30:00.000Z");
    task "c" "Call" "pending" VNull;
    task "d" "Read" "completed" (VStr "2024-02-26T07:45:00.000Z") ].

(** Noon in New York on the day after: 2024-03-11T16:00:00.000Z. *)
Definition new_york_noon : World := {|
  clock := λ n, (1710172800000 + Z.of_nat n)%Z;
  clock_reads := 0;
  random := λ n, "k3j2h1g" +:+ pad 2 (Z.of_nat n);
  random_draws := 0
|}.

(** One task, completed on that evening in New York at 19:10. *)
Definition one_evening : state := {|
  tasks := [ task "a" "Essay" "completed" (VStr "2024-03-10T23:10:00.000Z") ];
  filters := no_filters;
  storage := empty_storage;
  world := spring_forward_evening
|}.

(** The same task, seen at noon on the day after. *)
Definition the_day_after : state := {|
  tasks := [ task "a" "Essay" "completed" (VStr "2024-03-10T23:10:00.000Z") ];
  filters := no_filters;
  storage := empty_storage;
  world := new_york_noon
|}.

(** Forty tasks, the first 23 of them completed. *)
Definition forty_tasks : list obj :=
  List.map (λ i : nat,
    task (string_of_Z (Z.of_nat i)) "Exercise"
         (if (i <? 23)%nat then "completed" else "pending")
         (if (i <? 23)%nat then VStr "2024-02-29T09:00:00.000Z" else VNull))
    (seq 0 40).

End Spec.

(* ================================================================== *)
(** * Writing to [localStorage] *)
(* ================================================================== *)

Module Writes.
Import Spec.

Lemma prop_JSON_roundtrip (o : obj) (k : string) :
  prop (JSON_roundtrip o) k = prop o k.
Proof.
  unfold prop, JSON_roundtrip. rewrite lookup_omap.
  destruct (o !! k) as [v|]; [|reflexivity]. cbn.
  destruct (decide (v = VUndef)) as [->|]; reflexivity.
Qed.

Lemma JSON_roundtrip_again (o : obj) :
  JSON_roundtrip (JSON_roundtrip o) = JSON_roundtrip o.
Proof.
  apply map_eq. intros k. unfold JSON_roundtrip. rewrite !lookup_omap.
  destruct (o !! k) as [v|]; [|reflexivity]. cbn.
  destruct (decide (v = VUndef)) as [->|Hv]; [reflexivity|]. cbn.
  destruct (decide (v = VUndef)); [contradiction | reflexivity].
Qed.

Lemma JSON_roundtrip_defined (o : obj) :
  map_Forall (λ _ v, v ≠ VUndef) o → JSON_roundtrip o = o.
Proof.
  intros Ho. apply map_eq. intros k. unfold JSON_roundtrip.
  rewrite lookup_omap. destruct (o !! k) as [v|] eqn:E; [|reflexivity]. cbn.
  destruct (decide (v = VUndef)) as [->|]; [|reflexivity].
  exfalso. exact (Ho k VUndef E eq_refl).
Qed.

Lemma getTasks_saveTasks (ts : list obj) (st : Storage.store) :
  Storage.accepted st = true →
  Storage.getTasks (Storage.saveTasks ts st) = JSON_roundtrip <$> ts.
Proof.
  intros Hacc. unfold Storage.getTasks, Storage.saveTasks.
  cbn [Storage.stored_tasks]. rewrite Hacc. reflexivity.
Qed.

Lemma getTasks_saveTasks_refused (ts : list obj) (st : Storage.store) :
  Storage.accepted st = false →
  Storage.getTasks (Storage.saveTasks ts st) = Storage.getTasks st.
Proof.
  intros Hacc. unfold Storage.getTasks, Storage.saveTasks.
  cbn [Storage.stored_tasks]. rewrite Hacc. reflexivity.
Qed.

Lemma getStats_saveStats (r : Storage.Stats) (st : Storage.store) :
  Storage.accepted st = true →
  Storage.getStats (Storage.saveStats r st) = r.
Proof.
  intros Hacc. unfold Storage.getStats, Storage.saveStats.
  cbn [Storage.stored_stats]. rewrite Hacc. reflexivity.
Qed.

Lemma getStats_saveStats_refused (r : Storage.Stats) (st : Storage.store) :
  Storage.accepted st = false →
  Storage.getStats (Storage.saveStats r st) = Storage.getStats st.
Proof.
  intros Hacc. unfold Storage.getStats, Storage.saveStats.
  cbn [Storage.stored_stats]. rewrite Hacc. reflexivity.
Qed.

Lemma getTasks_clean (st : Storage.store) :
  JSON_roundtrip <$> Storage.getTasks st = Storage.getTasks st.
Proof.
  unfold Storage.getTasks. rewrite <- list_fmap_compose.
  apply list_fmap_ext. intros _ o _. apply JSON_roundtrip_again.
Qed.

Lemma getStats_saveTasks (ts : list obj) (st : Storage.store) :
  Storage.getStats (Storage.saveTasks ts st) = Storage.getStats st.
Proof. reflexivity. Qed.

Lemma getTasks_saveStats (r : Storage.Stats) (st : Storage.store) :
  Storage.getTasks (Storage.saveStats r st) = Storage.getTasks st.
Proof. reflexivity. Qed.

Lemma writable_accepted (st : Storage.store) :
  writable st → Storage.accepted st = true.
Proof. intros Hw. apply Hw. reflexivity. Qed.

Lemma writable_saveTasks (ts : list obj) (st : Storage.store) :
  writable st → writable (Storage.saveTasks ts st).
Proof. intros Hw n Hn. cbn in *. apply Hw. lia. Qed.

Lemma writable_saveStats (r : Storage.Stats) (st : Storage.store) :
  writable st → writable (Storage.saveStats r st).
Proof. intros Hw n Hn. cbn in *. apply Hw. lia. Qed.

Lemma writable_updateDailyStats (date : string) (data : Storage.DayPatch)
    (st : Storage.store) :
  writable st → writable (Storage.updateDailyStats date data st).
Proof. apply writable_saveStats. Qed.

Lemma unwritable_refused (st : Storage.store) :
  unwritable st → Storage.accepted st = false.
Proof. intros Hw. apply Hw. reflexivity. Qed.

Lemma unwritable_saveTasks (ts : list obj) (st : Storage.store) :
  unwritable st → unwritable (Storage.saveTasks ts st).
Proof. intros Hw n Hn. cbn in *. apply Hw. lia. Qed.

Lemma unwritable_saveStats (r : Storage.Stats) (st : Storage.store) :
  unwritable st → unwritable (Storage.saveStats r st).
Proof. intros Hw n Hn. cbn in *. apply Hw. lia. Qed.

Lemma created_writable (st st1 : Storage.store) (ts : list obj) :
  created_into st st1 ts → writable st →
  writable st1 ∧
  Storage.getTasks st1 = JSON_roundtrip <$> ts ∧
  Storage.totalTasksCreated (Storage.getStats st1) =
    (Storage.totalTasksCreated (Storage.getStats st) + 1)%Z.
Proof.
  intros (stats' & -> & Hc) Hw.
  split; [apply writable_saveStats, writable_saveTasks, Hw|]. split.
  - rewrite getTasks_saveStats. apply getTasks_saveTasks, writable_accepted, Hw.
  - rewrite getStats_saveStats; [exact Hc|].
    apply writable_accepted, writable_saveTasks, Hw.
Qed.

Lemma created_unwritable (st st1 : Storage.store) (ts : list obj) :
  created_into st st1 ts → unwritable st →
  unwritable st1 ∧
  Storage.stored_tasks st1 = Storage.stored_tasks st ∧
  Storage.stored_stats st1 = Storage.stored_stats st.
Proof.
  intros (stats' & -> & _) Hw.
  split; [apply unwritable_saveStats, unwritable_saveTasks, Hw|].
  split.
  - change (Storage.stored_tasks
              (Storage.saveStats stats' (Storage.saveTasks ts st)))
      with (Storage.stored_tasks (Storage.saveTasks ts st)).
    unfold Storage.saveTasks. cbn [Storage.stored_tasks].
    rewrite (unwritable_refused _ Hw). reflexivity.
  - unfold Storage.saveStats at 1. cbn [Storage.stored_stats].
    rewrite (unwritable_refused _ (unwritable_saveTasks ts st Hw)).
    reflexivity.
Qed.

Lemma created_calls (st st1 : Storage.store) (ts : list obj) :
  created_into st st1 ts →
  Storage.setItem_calls st1 = S (S (Storage.setItem_calls st)).
Proof. intros (stats' & -> & _). reflexivity. Qed.

(** Goals [writable _] and [accepted _ = true] after some writes, from a
    hypothesis [writable st]. *)
Ltac writes :=
  repeat first
    [ assumption
    | apply writable_accepted
    | apply writable_saveTasks
    | apply writable_saveStats
    | apply writable_updateDailyStats ].

End Writes.

(* ================================================================== *)
(** * The rolling streak ([updateStats]) *)
(* ================================================================== *)

Module StreakUpdate.
Import TaskManager Spec.
Local Open Scope Z_scope.

(** [diffDays === 1] and [diffDays > 1], read on the numerator. *)
Lemma diffDays_is_one (d : Z) :
  Qeq_bool (inject_Z d / inject_Z MS_PER_DAY) 1 = true ↔ d = MS_PER_DAY.
Proof.
  rewrite Qeq_bool_iff.
  unfold Qeq, Qdiv, Qmult, Qinv, inject_Z.
  change MS_PER_DAY with 86400000. simpl. lia.
Qed.

Lemma diffDays_le_one (d : Z) :
  Qle_bool (inject_Z d / inject_Z MS_PER_DAY) 1 = true ↔ d <= MS_PER_DAY.
Proof.
  rewrite Qle_bool_iff.
  unfold Qle, Qdiv, Qmult, Qinv, inject_Z.
  change MS_PER_DAY with 86400000. simpl. lia.
Qed.

(** The first character of an ISO timestamp is a digit or a sign, so the
    date part before the "T" is never empty. *)
Lemma digit_not_T (n : Z) : Ascii.eqb (digit n) "T" = false.
Proof.
  unfold digit.
  assert (H : (Z.to_nat (n mod 10) < 10)%nat)
    by (pose proof (Z.mod_pos_bound n 10); lia).
  generalize dependent (Z.to_nat (n mod 10)). intros k Hk.
  do 10 (destruct k as [|k]; [reflexivity|]); lia.
Qed.

Lemma before_other (c a : ascii) (r : string) :
  Ascii.eqb a c = false → before c (String a r) ≠ EmptyString.
Proof. intros E. cbn [before]. rewrite E. discriminate. Qed.

Lemma pad_head (w : nat) (n : Z) :
  ∃ k r, pad (S w) n = String (digit k) r.
Proof.
  revert n. induction w as [|w IH]; intros n.
  - exists n, EmptyString. reflexivity.
  - destruct (IH (n / 10)) as (k & r & E).
    exists k, (r +:+ String (digit n) "").
    change (pad (S (S w)) n) with (pad (S w) (n / 10) +:+ String (digit n) "").
    rewrite E. reflexivity.
Qed.

Lemma before_T_pad (w : nat) (n : Z) (rest : string) :
  before "T" (pad (S w) n +:+ rest) ≠ EmptyString.
Proof.
  destruct (pad_head w n) as (k & r & ->).
  apply (before_other "T" (digit k) (r +:+ rest)), digit_not_T.
Qed.

Lemma today_not_empty (t : Z) : before "T" (toISOString t) ≠ EmptyString.
Proof.
  unfold toISOString.
  destruct (civil_from_days (t / MS_PER_DAY)) as [[y m] d].
  unfold year_string.
  destruct ((0 <=? y) && (y <=? 9999)); [apply before_T_pad|].
  destruct (y <? 0).
  - apply (before_other "T" "-"%char). reflexivity.
  - apply (before_other "T" "+"%char). reflexivity.
Qed.

Section WithHost.
Context {host : Host}.

Lemma updateStats_run (action : string) (s : state) :
  updateStats action s =
  (Ok tt,
   {| tasks := tasks s; filters := filters s;
      storage := Storage.saveStats
        (updateStats_record action (today_in s)
           (Storage.getStats (storage s))) (storage s);
      world := {| clock := clock (world s);
                  clock_reads := S (clock_reads (world s));
                  random := random (world s);
                  random_draws := random_draws (world s) |} |}).
Proof. reflexivity. Qed.

Lemma diffDays_elapsed (lastActive : val) (today : string) :
  diffDays (VStr today) lastActive =
  (λ d, inject_Z d / inject_Z MS_PER_DAY)%Q <$> elapsed lastActive today.
Proof.
  unfold diffDays, elapsed, Number_minus.
  destruct (Date_of (VStr today)), (Date_of lastActive); reflexivity.
Qed.

(** ** C2 *)

(** C2. The streak update made by [updateStats] (on task creation and on
    completion), for every stats record in storage: the call returns, and
    it hands a record to [saveStats], which is the record in storage
    afterwards unless [localStorage] refuses the write.  In that record: if
    the last active date was exactly one day before today the current
    streak has grown by 1; if it was more than one day before today the
    streak is reset to 1; if there was no last active date the streak is 1;
    the longest streak is the maximum of its old value and the new current
    streak, and the last active date is today. *)
Theorem updateStats_streak (action : string) (s : state) :
  let stats := Storage.getStats (storage s) in
  let today := today_in s in
  ∃ stats' : Storage.Stats,
  fst (updateStats action s) = Ok tt ∧
  storage (snd (updateStats action s)) = Storage.saveStats stats' (storage s) ∧
  (Storage.accepted (storage s) = true →
   Storage.getStats (storage (snd (updateStats action s))) = stats') ∧
  (truthy (Storage.lastActiveDate stats) = true →
   elapsed (Storage.lastActiveDate stats) today = Some MS_PER_DAY →
   Storage.currentStreak stats' = Storage.currentStreak stats + 1) ∧
  (truthy (Storage.lastActiveDate stats) = true →
   ∀ d, elapsed (Storage.lastActiveDate stats) today = Some d →
        MS_PER_DAY < d →
   Storage.currentStreak stats' = 1) ∧
  (truthy (Storage.lastActiveDate stats) = false →
   Storage.currentStreak stats' = 1) ∧
  Storage.longestStreak stats' =
    Z.max (Storage.longestStreak stats) (Storage.currentStreak stats') ∧
  Storage.lastActiveDate stats' = VStr today.
Proof.
  intros stats today.
  exists (updateStats_record action today stats).
  rewrite updateStats_run. cbn [fst snd storage].
  fold stats. fold today.
  split; [reflexivity|]. split; [reflexivity|].
  split; [apply Writes.getStats_saveStats|].
  unfold updateStats_record; cbn [Storage.currentStreak Storage.longestStreak
    Storage.lastActiveDate].
  rewrite diffDays_elapsed.
  split; [|split; [|split; [|split]]].
  - intros Ht He. rewrite Ht, He. cbn [fmap option_fmap option_map].
    assert (E : Qeq_bool (inject_Z MS_PER_DAY / inject_Z MS_PER_DAY) 1 = true)
      by (apply diffDays_is_one; reflexivity).
    rewrite E. reflexivity.
  - intros Ht d He Hd. rewrite Ht, He. cbn [fmap option_fmap option_map].
    destruct (Qeq_bool _ 1) eqn:E1.
    { apply diffDays_is_one in E1. lia. }
    destruct (Qle_bool _ 1) eqn:E2.
    { apply diffDays_le_one in E2. lia. }
    reflexivity.
  - intros Ht. rewrite Ht. reflexivity.
  - destruct (Z.ltb_spec (Storage.longestStreak stats)
      (if truthy (Storage.lastActiveDate stats)
       then match (λ d, inject_Z d / inject_Z MS_PER_DAY)%Q <$>
                  elapsed (Storage.lastActiveDate stats) today with
            | Some d => if Qeq_bool d 1 then Storage.currentStreak stats + 1
                        else if negb (Qle_bool d 1) then 1
                        else Storage.currentStreak stats
            | None => Storage.currentStreak stats
            end
       else 1)); lia.
  - reflexivity.
Qed.

(** Every update leaves the longest streak at least as large as the
    current one. *)
Lemma updateStats_record_longest (action today : string) (stats : Storage.Stats) :
  Storage.currentStreak (updateStats_record action today stats)
  <= Storage.longestStreak (updateStats_record action today stats).
Proof.
  unfold updateStats_record; cbn [Storage.currentStreak Storage.longestStreak].
  match goal with |- ?c <= (if ?l <? ?c then _ else _) =>
    destruct (Z.ltb_spec l c); lia end.
Qed.

(** ** C10, as the code has it *)

(** C10 (amended). When the last active date of the stats record already
    is today and the longest streak is not below the current one (as it is after
    every update), the record that [updateStats] hands to [saveStats] --
    the record in storage afterwards, unless [localStorage] refuses the
    write -- has the current streak, the longest streak, the last active
    date and the daily entries of the old one; the only change is the
    counter of created tasks (action [created]) or of completed tasks
    (action [completed]), which has grown by 1. *)
Theorem updateStats_same_day (action : string) (s : state) :
  let stats := Storage.getStats (storage s) in
  Storage.lastActiveDate stats = VStr (today_in s) →
  Storage.currentStreak stats <= Storage.longestStreak stats →
  ∃ stats' : Storage.Stats,
  storage (snd (updateStats action s)) = Storage.saveStats stats' (storage s) ∧
  (Storage.accepted (storage s) = true →
   Storage.getStats (storage (snd (updateStats action s))) = stats') ∧
  Storage.currentStreak stats' = Storage.currentStreak stats ∧
  Storage.longestStreak stats' = Storage.longestStreak stats ∧
  Storage.lastActiveDate stats' = Storage.lastActiveDate stats ∧
  Storage.dailyStats stats' = Storage.dailyStats stats ∧
  Storage.totalTasksCreated stats' =
    (if String.eqb action "created" then Storage.totalTasksCreated stats + 1
     else Storage.totalTasksCreated stats) ∧
  Storage.totalTasksCompleted stats' =
    (if String.eqb action "completed" then Storage.totalTasksCompleted stats + 1
     else Storage.totalTasksCompleted stats).
Proof.
  intros stats Hlast Hle.
  exists (updateStats_record action (today_in s) stats).
  rewrite updateStats_run. cbn [fst snd storage]. fold stats.
  split; [reflexivity|]. split; [apply Writes.getStats_saveStats|].
  unfold updateStats_record.
  cbn [Storage.currentStreak Storage.longestStreak Storage.lastActiveDate
       Storage.dailyStats Storage.totalTasksCreated Storage.totalTasksCompleted].
  rewrite diffDays_elapsed, Hlast.
  assert (Ht : truthy (VStr (today_in s)) = true).
  { pose proof (today_not_empty (clock (world s) (clock_reads (world s)))) as Hne.
    unfold today_in, truthy.
    destruct (before "T" _); [congruence | reflexivity]. }
  rewrite Ht.
  assert (Hcur :
    match (λ d, inject_Z d / inject_Z MS_PER_DAY)%Q <$>
          elapsed (VStr (today_in s)) (today_in s) with
    | Some d => if Qeq_bool d 1 then Storage.currentStreak stats + 1
                else if negb (Qle_bool d 1) then 1
                else Storage.currentStreak stats
    | None => Storage.currentStreak stats
    end = Storage.currentStreak stats).
  { unfold elapsed. destruct (Date_of (VStr (today_in s))) as [t|]; [|reflexivity].
    cbn [fmap option_fmap option_map]. rewrite Z.sub_diag. reflexivity. }
  rewrite Hcur.
  destruct (Z.ltb_spec (Storage.longestStreak stats) (Storage.currentStreak stats));
    [lia|].
  repeat split.
  destruct (String.eqb_spec action "created") as [->|]; reflexivity.
Qed.

End WithHost.

(** The record of a day on which two tasks had been created already. *)
Lemma updateStats_same_day_witness :
  let s := state_with [] (Some (stats_of 2 4 (VStr "2024-02-29"))) in
  ∃ stats' : Storage.Stats,
  storage (snd (updateStats (host:=host_left_first) "created" s))
    = Storage.saveStats stats' (storage s) ∧
  (Storage.accepted (storage s) = true →
   Storage.getStats (storage (snd (updateStats (host:=host_left_first)
                                     "created" s))) = stats') ∧
  Storage.currentStreak stats' = 2 ∧
  Storage.longestStreak stats' = 4 ∧
  Storage.lastActiveDate stats' = VStr "2024-02-29" ∧
  Storage.dailyStats stats' = ∅ ∧
  Storage.totalTasksCreated stats' = 8 ∧
  Storage.totalTasksCompleted stats' = 3.
Proof.
  apply (updateStats_same_day (host:=host_left_first) "created"
           (state_with [] (Some (stats_of 2 4 (VStr "2024-02-29"))))).
  - vm_compute. reflexivity.
  - vm_compute. discriminate.
Defined.

(** ** C10, as the specification has it *)

(** C10 fails on a record whose current streak is above its longest
    streak, as a restored backup can hold it ([Storage.importData] writes
    what the file says): on the same day, creating a task raises the
    longest streak from 3 to 5. *)
Lemma same_day_raises_longestStreak :
  let s := state_with [] (Some (stats_of 5 3 (VStr "2024-02-29"))) in
  let stats := Storage.getStats (storage s) in
  let stats' :=
    Storage.getStats (storage (snd (updateStats (host:=host_left_first)
                                      "created" s))) in
  Storage.lastActiveDate stats = VStr (today_in s) ∧
  Storage.longestStreak stats = 3 ∧
  Storage.longestStreak stats' = 5.
Proof. vm_compute. repeat split. Qed.

(** The scenario of the specification: last active two days ago, a task is
    created today.  The current streak falls back to 1 and the longest
    streak stays. *)
Example create_after_two_days :
  let s := state_with [] (Some (stats_of 5 9 (VStr "2024-02-27"))) in
  let stats' :=
    Storage.getStats (storage (snd (create (host:=host_left_first)
                                      (<["title" := VStr "Read"]> ∅) s))) in
  Storage.currentStreak stats' = 1 ∧
  Storage.longestStreak stats' = 9 ∧
  Storage.lastActiveDate stats' = VStr "2024-02-29".
Proof. vm_compute. repeat split. Qed.

(** Across the end of a leap-year February the next day is one day away. *)
Example create_the_next_day :
  let s := state_with [] (Some (stats_of 5 5 (VStr "2024-02-28"))) in
  let stats' :=
    Storage.getStats (storage (snd (create (host:=host_left_first)
                                      (<["title" := VStr "Read"]> ∅) s))) in
  Storage.currentStreak stats' = 6 ∧ Storage.longestStreak stats' = 6.
Proof. vm_compute. repeat split. Qed.

End StreakUpdate.

(* ================================================================== *)
(** * The derived streak ([getStreak]) *)
(* ================================================================== *)

Module DerivedStreak.
Import TaskManager Spec.

Lemma filter_throwing_total {A} (p : A → outcome bool) (q : A → bool) (l : list A) :
  Forall (λ x, p x = Ok (q x)) l →
  filter_throwing p l = Ok (List.filter q l).
Proof.
  induction 1 as [|x l Hx _ IH]; [reflexivity|].
  cbn [filter_throwing List.filter]. rewrite Hx, IH. cbn [obind].
  destruct (q x); reflexivity.
Qed.

Lemma some_kept {A} (q : A → bool) (l : list A) :
  (0 <? length (List.filter q l))%nat = existsb q l.
Proof.
  induction l as [|x l IH]; [reflexivity|].
  cbn [List.filter existsb]. destruct (q x); [reflexivity|]. exact IH.
Qed.

Lemma nothing_starts_empty (d : string) :
  d ≠ EmptyString → startsWith EmptyString d = false.
Proof. destruct d; [congruence | reflexivity]. Qed.

(** ** The date before the "T" *)

Lemma before_itself (c : ascii) (a b : string) :
  before c a = a → before c b = b → before c (a +:+ b) = a +:+ b.
Proof.
  induction a as [|x a IH]; intros Ha Hb; [exact Hb|].
  change (String x a +:+ b) with (String x (a +:+ b)).
  cbn [before] in *.
  destruct (Ascii.eqb x c); [discriminate|].
  injection Ha as Ha. rewrite (IH Ha Hb). reflexivity.
Qed.

Lemma before_append (c : ascii) (a r : string) :
  before c a = a → before c (a +:+ String c r) = a.
Proof.
  induction a as [|x a IH]; intros Ha.
  - change (EmptyString +:+ String c r) with (String c r).
    cbn [before]. rewrite Ascii.eqb_refl. reflexivity.
  - change (String x a +:+ String c r) with (String x (a +:+ String c r)).
    cbn [before] in *.
    destruct (Ascii.eqb x c); [discriminate|].
    injection Ha as Ha. rewrite (IH Ha). reflexivity.
Qed.

Lemma append_assoc (a b c : string) : (a +:+ b) +:+ c = a +:+ b +:+ c.
Proof.
  induction a as [|x a IH]; [reflexivity|].
  change ((String x a +:+ b) +:+ c) with (String x ((a +:+ b) +:+ c)).
  rewrite IH. reflexivity.
Qed.

Lemma pad_no_T (w : nat) (n : Z) : before "T" (pad w n) = pad w n.
Proof.
  revert n. induction w as [|w IH]; intros n; [reflexivity|].
  cbn [pad]. apply before_itself; [apply IH|].
  cbn [before]. rewrite StreakUpdate.digit_not_T. reflexivity.
Qed.

Lemma year_string_no_T (y : Z) : before "T" (year_string y) = year_string y.
Proof.
  unfold year_string.
  destruct ((0 <=? y)%Z && (y <=? 9999)%Z); [apply pad_no_T|].
  destruct (y <? 0)%Z;
    apply (before_itself "T" (String _ EmptyString)); try reflexivity;
    apply pad_no_T.
Qed.

(** The date that [toISOString] prints is the date of the UTC day that
    holds the time. *)
Lemma date_of_time (t : Z) :
  before "T" (toISOString t) = date_of_day (day_of t).
Proof.
  unfold date_of_day, day_of, toISOString.
  rewrite Z.div_mul by discriminate.
  destruct (civil_from_days (t / MS_PER_DAY)) as [[y m] d].
  set (date := year_string y +:+ "-" +:+ pad 2 m +:+ "-" +:+ pad 2 d).
  assert (Hdate : before "T" date = date).
  { unfold date. apply before_itself; [apply year_string_no_T|].
    apply (before_itself "T" "-"); [reflexivity|].
    apply before_itself; [apply pad_no_T|].
    apply (before_itself "T" "-"); [reflexivity | apply pad_no_T]. }
  assert (Happ : ∀ rest,
    year_string y +:+ "-" +:+ pad 2 m +:+ "-" +:+ pad 2 d +:+ "T" +:+ rest
    = date +:+ String "T" rest).
  { intros rest. unfold date.
    rewrite !append_assoc. reflexivity. }
  rewrite !Happ, !before_append by exact Hdate. reflexivity.
Qed.

(** ** The two UTC hosts and the host in New York conform *)

#[global] Instance left_first_dates : DateConforms host_left_first utc_zone.
Proof.
  constructor. intros t i. cbn. unfold setDate_back, UTC, local_time, utc_zone.
  lia.
Qed.

#[global] Instance item_first_dates : DateConforms host_item_first utc_zone.
Proof.
  constructor. intros t i. cbn. unfold setDate_back, UTC, local_time, utc_zone.
  lia.
Qed.

#[global] Instance new_york_dates : DateConforms host_new_york new_york.
Proof. constructor. reflexivity. Qed.

Lemma day_of_daysAgo (today : Z) (i : nat) :
  day_of (today - Z.of_nat i * MS_PER_DAY) = (day_of today - Z.of_nat i)%Z.
Proof.
  unfold day_of.
  replace (today - Z.of_nat i * MS_PER_DAY)%Z
    with (today + (- Z.of_nat i) * MS_PER_DAY)%Z by lia.
  rewrite Z.div_add by discriminate. lia.
Qed.

(** A zone that keeps its offset is in step with the calendar, at every
    time of day. *)
Lemma steady_in_step (tza : time_zone) (t : Z) (days : nat) :
  steady tza t days → in_step tza t days = true.
Proof.
  intros Hsteady. unfold in_step. apply forallb_forall. intros i Hi.
  apply in_seq in Hi. apply Z.eqb_eq.
  unfold setDate_back, UTC. rewrite (Hsteady i) by lia.
  unfold local_time.
  replace (t + tza t true - Z.of_nat i * MS_PER_DAY - tza t true)%Z
    with (t - Z.of_nat i * MS_PER_DAY)%Z by lia.
  apply day_of_daysAgo.
Qed.

Lemma utc_steady (t : Z) (days : nat) : steady utc_zone t days.
Proof. intros i _. reflexivity. Qed.

Lemma in_step_day (tza : time_zone) (t : Z) (days i : nat) :
  in_step tza t days = true → i < days →
  day_of (setDate_back tza t i) = (day_of t - Z.of_nat i)%Z.
Proof.
  unfold in_step. intros Hall Hi.
  rewrite forallb_forall in Hall. apply Z.eqb_eq, Hall, in_seq. lia.
Qed.

Section WithHost.
Context {host : Host}.

Lemma dateStr_not_empty (today : Z) (i : nat) : dateStr today i ≠ EmptyString.
Proof. apply StreakUpdate.today_not_empty. Qed.

(** On a well-typed task the test of the loop does not throw, and it is
    the test behind [completed_that_day]. *)
Lemma completed_on_typed (today : Z) (i : nat) (t : obj) :
  timestamp_or_null (prop t "completedAt") →
  Storage.completed_on (dateStr today i) t =
  Ok (strict_eq (prop t "status") (VStr "completed") &&
      match prop t "completedAt" with
      | VStr at_ => startsWith at_ (dateStr today i)
      | _ => false
      end).
Proof.
  intros Hty. unfold Storage.completed_on.
  destruct (strict_eq (prop t "status") (VStr "completed")); [|reflexivity].
  destruct (prop t "completedAt") as [| | b | n | at_]; try reflexivity;
    try contradiction.
  cbn [truthy andb]. destruct (String.eqb_spec at_ "") as [->|]; [|reflexivity].
  cbn [negb]. rewrite nothing_starts_empty by apply dateStr_not_empty.
  reflexivity.
Qed.

Lemma count_typed (today : Z) (i : nat) (ts : list obj) :
  Forall (λ t, timestamp_or_null (prop t "completedAt")) ts →
  ∃ l, filter_throwing (Storage.completed_on (dateStr today i)) ts = Ok l ∧
       (0 <? length l)%nat = completed_that_day today ts i.
Proof.
  intros Hty. eexists. split.
  - apply filter_throwing_total.
    eapply Forall_impl; [exact Hty|]. intros t Ht. cbv beta.
    apply completed_on_typed, Ht.
  - apply some_kept.
Qed.

(** The loop, entered in round [i] with the days before it all counted. *)
Lemma streak_from_walk (today : Z) (ts : list obj) (rounds i streak : nat) :
  Forall (λ t, timestamp_or_null (prop t "completedAt")) ts →
  rounds + i = 365 →
  (∀ j, 1 ≤ j < i → completed_that_day today ts j = true) →
  streak = (if i is O then 0
            else (if completed_that_day today ts 0 then 1 else 0) + (i - 1)) →
  ∃ n, streak_from today ts rounds i streak = Ok n ∧
       streak_walk (completed_that_day today ts) n.
Proof.
  intros Hty. revert i streak.
  induction rounds as [|rounds IH]; intros i streak Hi Hbefore Hstreak.
  - exists streak. split; [reflexivity|].
    exists 365. replace i with 365 in * by lia.
    split; [lia|]. split; [|split; [lia|exact Hstreak]].
    intros j Hj. apply Hbefore. lia.
  - cbn [streak_from].
    destruct (count_typed today i ts Hty) as (l & -> & Hl). cbn [obind].
    rewrite Hl.
    destruct (completed_that_day today ts i) eqn:Hc.
    + apply IH; [lia| |].
      * intros j Hj. destruct (decide (j = i)) as [->|]; [exact Hc|].
        apply Hbefore. lia.
      * destruct i as [|i]; [rewrite Hc; subst streak; reflexivity|].
        subst streak. cbn [Nat.sub]. rewrite Nat.sub_0_r.
        destruct (completed_that_day today ts 0); lia.
    + destruct i as [|i].
      * cbn [Nat.ltb Nat.leb]. apply IH; [lia| |].
        -- intros j Hj. lia.
        -- rewrite Hc. subst streak. reflexivity.
      * cbn [Nat.ltb Nat.leb]. exists streak. split; [reflexivity|].
        exists (S i). split; [lia|]. split; [|split; [|exact Hstreak]].
        -- intros j Hj. apply Hbefore. lia.
        -- intros _. exact Hc.
Qed.

(** The walk looks at days 0 to 364 only, and it determines the streak. *)
Lemma streak_walk_lookback (c c' : nat → bool) (n : nat) :
  (∀ i, i < 365 → c i = c' i) → streak_walk c n → streak_walk c' n.
Proof.
  intros Hsame (stop & Hstop & Hall & Hgap & ->).
  exists stop. split; [lia|]. split; [|split].
  - intros i Hi. rewrite <- Hsame by lia. apply Hall, Hi.
  - intros Hlt. rewrite <- Hsame by lia. apply Hgap, Hlt.
  - rewrite <- Hsame by lia. reflexivity.
Qed.

Lemma streak_walk_unique (c : nat → bool) (n m : nat) :
  streak_walk c n → streak_walk c m → n = m.
Proof.
  intros (s1 & H1 & A1 & G1 & ->) (s2 & H2 & A2 & G2 & ->).
  assert (s1 = s2); [|subst; reflexivity].
  destruct (Nat.lt_trichotomy s1 s2) as [Hlt|[->|Hlt]]; [|reflexivity|].
  - rewrite A2 in G1 by lia. discriminate G1. lia.
  - rewrite A1 in G2 by lia. discriminate G2. lia.
Qed.

(** Where [completedAt] is non-null for completed tasks only, a day has a
    completed task exactly when it has a task whose [completedAt] lies on
    it. *)
Lemma completed_is_completedAt_on (ts : list obj) (d : Z) :
  Forall (λ t, completion_matches t = true) ts →
  completed_on_day ts d = completedAt_on_day ts d.
Proof.
  unfold completed_on_day, completedAt_on_day.
  induction 1 as [|t ts Ht _ IH]; [reflexivity|].
  cbn [existsb]. rewrite IH. f_equal.
  unfold completion_matches in Ht.
  destruct (prop t "completedAt"); try apply andb_false_r.
  cbn [is_nullish negb] in Ht.
  destruct (strict_eq (prop t "status") (VStr "completed"));
    [reflexivity | discriminate].
Qed.

(** ** Day [i] of the walk is a day of the calendar *)

Section Calendar.
Context {tza : time_zone} `{!DateConforms host tza}.

Lemma dateStr_calendar (today : Z) (days i : nat) :
  in_step tza today days = true → i < days →
  dateStr today i = date_of_day (day_of today - Z.of_nat i).
Proof.
  intros Hstep Hi. unfold dateStr.
  rewrite date_of_time, daysAgo_conforms, (in_step_day tza today days i Hstep Hi).
  reflexivity.
Qed.

Lemma completed_that_day_calendar (today : Z) (ts : list obj) (days i : nat) :
  in_step tza today days = true → i < days →
  completed_that_day today ts i
  = completed_on_day ts (day_of today - Z.of_nat i).
Proof.
  intros Hsteady Hi. unfold completed_that_day, completed_on_day.
  rewrite (dateStr_calendar today days i Hsteady Hi). reflexivity.
Qed.

(** ** C3, as the code has it *)

(** C3 (amended).  For every collection whose [completedAt] fields are
    timestamps or null, and whenever going back [i] days in local time
    lands on the UTC calendar day [i] days back, for the 365 days of the
    lookback (as it does in a zone that keeps its offset from UTC; where
    the clocks change, it fails only if the change moves the time of day
    across midnight UTC), [getStreak] returns, and what it returns is the
    walk of the specification over the calendar: with [d] the UTC day of
    the call, the days [d], [d - 1], [d - 2], ... are looked at in turn;
    every day with at least one completed task (a task with status
    [completed] whose [completedAt] lies on that day) counts; the walk
    stops at the first day other than [d] that has none; day [d] without
    a completion neither stops the walk nor counts; no day further back
    than [d - 364] is looked at, so the streak is at most 365.  In a
    collection where [completedAt] is non-null for completed tasks only,
    a day has a completed task exactly when it has a task whose
    [completedAt] lies on it.  The call only reads the clock. *)
Theorem getStreak_walk (s : state) :
  Forall (λ t, timestamp_or_null (prop t "completedAt")) (tasks s) →
  let today := clock (world s) (clock_reads (world s)) in
  in_step tza today 365 = true →
  ∃ n, fst (getStreak s) = Ok n ∧
       streak_walk
         (λ i, completed_on_day (tasks s) (day_of today - Z.of_nat i)) n ∧
       n ≤ 365 ∧
       (Forall (λ t, completion_matches t = true) (tasks s) →
        ∀ d, completed_on_day (tasks s) d = completedAt_on_day (tasks s) d) ∧
       tasks (snd (getStreak s)) = tasks s ∧
       filters (snd (getStreak s)) = filters s ∧
       storage (snd (getStreak s)) = storage s.
Proof.
  intros Hty today Hstep.
  destruct (streak_from_walk today (tasks s) 365 0 0 Hty) as (n & Hn & Hw);
    [reflexivity | intros j Hj; lia | reflexivity |].
  exists n.
  assert (Hrun : getStreak s = (Ok n, snd (new_Date s))).
  { unfold getStreak, bind, new_Date, get_tasks, lift. cbn [fst snd tasks].
    fold today. rewrite Hn. reflexivity. }
  rewrite Hrun. cbn [fst snd].
  assert (Hcal : streak_walk
            (λ i, completed_on_day (tasks s) (day_of today - Z.of_nat i)) n).
  { eapply streak_walk_lookback; [|exact Hw].
    intros i Hi. apply (completed_that_day_calendar today (tasks s) 365 i);
      assumption. }
  split; [reflexivity|]. split; [exact Hcal|].
  split; [|split; [|repeat split]].
  - destruct Hcal as (stop & Hstop & _ & _ & ->).
    destruct (completed_on_day (tasks s) _); lia.
  - intros Hinv d. apply completed_is_completedAt_on, Hinv.
Qed.

End Calendar.
End WithHost.

(** New York at noon, the day after the clocks went forward: the year
    behind holds two changes of the clock, and the walk is in step with
    the calendar all the same. *)
Lemma getStreak_walk_witness :
  let s := the_day_after in
  ∃ n, fst (getStreak (host:=host_new_york) s) = Ok n ∧
       streak_walk
         (λ i, completed_on_day (tasks s) (day_of 1710172800000 - Z.of_nat i))
         n ∧
       n ≤ 365 ∧
       (Forall (λ t, completion_matches t = true) (tasks s) →
        ∀ d, completed_on_day (tasks s) d = completedAt_on_day (tasks s) d) ∧
       tasks (snd (getStreak (host:=host_new_york) s)) = tasks s ∧
       filters (snd (getStreak (host:=host_new_york) s)) = filters s ∧
       storage (snd (getStreak (host:=host_new_york) s)) = storage s.
Proof.
  apply (getStreak_walk (host:=host_new_york) (tza:=new_york) the_day_after).
  - repeat constructor.
  - vm_compute. reflexivity.
Defined.

(** Seen at noon on the day after, the completion of the evening before
    makes a streak of 1: yesterday counts, today does not break it. *)
Example getStreak_the_day_after :
  fst (getStreak (host:=host_new_york) the_day_after) = Ok 1 ∧
  in_step new_york 1710172800000 365 = true ∧
  in_step new_york 1710113400000 365 = false.
Proof. vm_compute. repeat split; reflexivity. Qed.

Example getStreak_three_completions :
  fst (getStreak (host:=host_left_first) (state_with three_completions None))
  = Ok 2 ∧
  date_of_day (day_of 1709210096789) = "2024-02-29" ∧
  date_of_day (day_of 1709210096789 - 1) = "2024-02-28" ∧
  date_of_day (day_of 1709210096789 - 2) = "2024-02-27".
Proof. vm_compute. repeat split; reflexivity. Qed.

(** Nothing completed today, but yesterday and the day before: today does
    not break the walk, the streak is 2. *)
Example getStreak_idle_today :
  fst (getStreak (host:=host_left_first)
         (state_with
            [ task "a" "Essay" "completed" (VStr "2024-02-28T09:00:00.000Z");
              task "b" "Run" "completed" (VStr "2024-02-27T18:30:00.000Z") ]
            None))
  = Ok 2.
Proof. vm_compute. reflexivity. Qed.

(** ** C3, as the specification has it *)

(** C3 fails on a collection with a completed task whose [completedAt] is
    a number, as [import] takes it from a file: [getStreak] throws a
    [TypeError] instead of counting. *)
Lemma getStreak_throws_on_a_number :
  let s := snd (import export_with_number (state_with [] None)) in
  (λ t, (prop t "status", prop t "completedAt")) <$> tasks s
    = [(VStr "completed", VNum 1709200000000)] ∧
  fst (getStreak (host:=host_left_first) s) = Throw TypeError.
Proof. vm_compute. split; reflexivity. Qed.

(** Outside the amended statement: where a change of the clocks moves
    the time of day across midnight UTC, the dates looked at are not the
    days of the calendar one by one.  [setDate] steps back in local time, and [toISOString]
    prints the UTC date: in New York at 19:30 on the day the clocks went
    forward, today and "a day ago" have the same UTC date, and one
    completion makes a streak of 2. *)
Example getStreak_counts_a_day_twice :
  dateStr (host:=host_new_york) 1710113400000 0 = "2024-03-10" ∧
  dateStr (host:=host_new_york) 1710113400000 1 = "2024-03-10" ∧
  dateStr (host:=host_new_york) 1710113400000 2 = "2024-03-09" ∧
  fst (getStreak (host:=host_new_york) one_evening) = Ok 2 ∧
  fst (getStreak (host:=host_left_first) one_evening) = Ok 1.
Proof. vm_compute. repeat split; reflexivity. Qed.

(** And at 19:30 on the day the clocks went back (2024-11-04T00:30Z), "a
    day ago" is two UTC dates back: 3 November is never looked at. *)
Example getStreak_skips_a_day :
  dateStr (host:=host_new_york) 1730680200000 0 = "2024-11-04" ∧
  dateStr (host:=host_new_york) 1730680200000 1 = "2024-11-02" ∧
  dateStr (host:=host_left_first) 1730680200000 1 = "2024-11-03".
Proof. vm_compute. repeat split; reflexivity. Qed.

End DerivedStreak.

(* ================================================================== *)
(** * Completion statistics ([getStats]) *)
(* ================================================================== *)

Module CompletionRate.
Import TaskManager Spec.

Lemma getStats_counts (ts : list obj) :
  total (getStats ts) = length ts ∧
  completed (getStats ts) =
    length (List.filter (λ t, strict_eq (prop t "status") (VStr "completed")) ts) ∧
  completionRate (getStats ts) =
    completion_rate (completed (getStats ts)) (total (getStats ts)).
Proof. repeat split. Qed.

(** The rate of an empty collection is 0. *)
Lemma completionRate_empty : completionRate (getStats []) = 0%Z.
Proof. reflexivity. Qed.

(** Up to 39 tasks the double computation and the exact rounding agree. *)
Lemma completion_rate_exact_below_40 :
  forallb (λ total,
    forallb (λ completed,
      (completion_rate completed total =? rounded_percentage completed total)%Z)
      (seq 0 (S total)))
    (seq 0 40) = true.
Proof. vm_compute. reflexivity. Qed.

(** With every task completed the rate is 100 (checked for up to 500
    tasks). *)
Lemma completion_rate_all_completed :
  forallb (λ n, (completion_rate n n =? 100)%Z) (seq 1 500) = true.
Proof. vm_compute. reflexivity. Qed.

(** ** C8 *)

(** C8, evaluated where it fails.  With 23 of 40 tasks completed the exact
    percentage is 57.5, which rounds to 58; [getStats] computes
    (23 / 40) * 100 in doubles, gets 57.49999999999999 and reports 57. *)
Theorem completionRate_23_of_40 :
  total (getStats forty_tasks) = 40 ∧
  completed (getStats forty_tasks) = 23 ∧
  completionRate (getStats forty_tasks) = 57%Z ∧
  rounded_percentage 23 40 = 58%Z.
Proof. vm_compute. repeat split. Qed.

End CompletionRate.

(* ================================================================== *)
(** * The strings that [generateId] makes *)
(* ================================================================== *)

Module IdStrings.
Import Spec.

Lemma digits_no_dash (d : Decimal.uint) :
  no_dash (NilEmpty.string_of_uint d) = true.
Proof. induction d; cbn [NilEmpty.string_of_uint no_dash]; auto. Qed.

Lemma string_of_Z_no_dash (z : Z) :
  (0 ≤ z)%Z → no_dash (string_of_Z z) = true.
Proof.
  intros Hz. unfold string_of_Z. destruct z as [|p|p]; [reflexivity| |lia].
  cbn [Z.to_int NilZero.string_of_int NilZero.string_of_uint].
  destruct (Pos.to_uint p); try apply digits_no_dash. reflexivity.
Qed.

Lemma Z_to_int_proper (z : Z) :
  Z.to_int z ≠ Decimal.Pos Decimal.Nil ∧ Z.to_int z ≠ Decimal.Neg Decimal.Nil.
Proof.
  destruct z as [|p|p]; cbn [Z.to_int]; split; try discriminate;
    intros [= E]; exact (DecimalPos.Unsigned.to_uint_nonnil p E).
Qed.

Lemma string_of_Z_inj (a b : Z) : string_of_Z a = string_of_Z b → a = b.
Proof.
  unfold string_of_Z. intros E.
  destruct (Z_to_int_proper a) as [Ha1 Ha2].
  destruct (Z_to_int_proper b) as [Hb1 Hb2].
  pose proof (NilZero.isi (Z.to_int a) Ha1 Ha2) as Ia.
  pose proof (NilZero.isi (Z.to_int b) Hb1 Hb2) as Ib.
  rewrite E, Ib in Ia. injection Ia as Ia.
  rewrite <- (DecimalZ.of_to a), <- (DecimalZ.of_to b), Ia. reflexivity.
Qed.

(** Two strings without dash, each followed by a dash and a rest. *)
Lemma dash_split (a b r r' : string) :
  no_dash a = true → no_dash b = true →
  a +:+ "-" +:+ r = b +:+ "-" +:+ r' → a = b ∧ r = r'.
Proof.
  revert b. induction a as [|x a IH]; intros [|y b]; cbn [no_dash String.append].
  - intros _ _ [= E]. auto.
  - intros _ Hb [= <- _]. discriminate.
  - intros Ha _ [= -> _]. discriminate.
  - intros Ha Hb [= <- E].
    apply andb_prop in Ha, Hb. destruct Ha as [_ Ha]. destruct Hb as [_ Hb].
    destruct (IH b Ha Hb E) as [-> ->]. auto.
Qed.

(** The id determines the time and the characters it was made from. *)
Lemma id_of_inj (now now' : Z) (r r' : string) :
  (0 ≤ now)%Z → (0 ≤ now')%Z →
  id_of now r = id_of now' r' → now = now' ∧ r = r'.
Proof.
  intros Hnow Hnow' [= E].
  destruct (dash_split _ _ _ _ (string_of_Z_no_dash _ Hnow)
              (string_of_Z_no_dash _ Hnow') E) as [Ez Er].
  split; [apply string_of_Z_inj, Ez | exact Er].
Qed.

End IdStrings.

(* ================================================================== *)
(** * Import *)
(* ================================================================== *)

Module Importing.
Import TaskManager Spec.

Lemma only_time_passes_refl (s : state) : only_time_passes s s.
Proof. repeat split; lia. Qed.

Lemma only_time_passes_trans (s1 s2 s3 : state) :
  only_time_passes s1 s2 → only_time_passes s2 s3 → only_time_passes s1 s3.
Proof.
  intros (T1 & F1 & S1 & C1 & R1 & L1 & D1) (T2 & F2 & S2 & C2 & R2 & L2 & D2).
  repeat split; try congruence; lia.
Qed.

Lemma mapM_ext {S A B} (f g : A → ST S B) (h : A → A) :
  (∀ x s, f (h x) s = g x s) →
  ∀ l s, mapM f (h <$> l) s = mapM g l s.
Proof.
  intros Hfg l. induction l as [|x l IH]; intros s; [reflexivity|].
  cbn [fmap list_fmap mapM]. unfold bind at 1 3. rewrite Hfg.
  destruct (g x s) as [[y|e] s1]; [|reflexivity].
  unfold bind. change (list_fmap A A h l) with (h <$> l). rewrite IH.
  reflexivity.
Qed.

Section WithHost.
Context {host : Host}.

Lemma generateId_run (s : state) :
  ∃ id s', generateId s = (Ok id, s') ∧
    generated_after (world s) (clock_reads (world s)) (random_draws (world s)) id ∧
    only_time_passes s s'.
Proof.
  eexists _, _. split; [reflexivity|]. split.
  - exists (clock_reads (world s)), (random_draws (world s)).
    repeat split; reflexivity || lia.
  - repeat split; cbn; lia.
Qed.

Lemma now_iso_run (s : state) :
  ∃ k s', now_iso s = (Ok (VStr (toISOString (clock (world s) k))), s') ∧
    clock_reads (world s) ≤ k ∧ only_time_passes s s'.
Proof.
  exists (clock_reads (world s)). eexists. split; [reflexivity|].
  split; [lia|]. repeat split; cbn; lia.
Qed.

Lemma generated_after_earlier (s s' : state) (id : val) :
  only_time_passes s s' →
  generated_after (world s') (clock_reads (world s')) (random_draws (world s')) id →
  generated_after (world s) (clock_reads (world s)) (random_draws (world s)) id.
Proof.
  intros (_ & _ & _ & C & R & L & D) (k & j & Hk & Hj & ->).
  exists k, j. rewrite C, R. repeat split; lia.
Qed.

Lemma createdAt_or_now_earlier (s s' : state) (t : obj) (v : val) :
  only_time_passes s s' →
  createdAt_or_now (world s') (clock_reads (world s')) t v →
  createdAt_or_now (world s) (clock_reads (world s)) t v.
Proof.
  intros (_ & _ & _ & C & R & L & D). unfold createdAt_or_now.
  destruct (truthy (prop t "createdAt")); [tauto|].
  intros (k & Hk & ->). exists k. rewrite C. split; [lia | reflexivity].
Qed.

Lemma imported_in_earlier (s s' : state) (t : element) (n : obj) :
  only_time_passes s s' → imported_in s' t n → imported_in s t n.
Proof.
  intros Hp (id & c & -> & Hid & Hc). exists id, c. split; [reflexivity|].
  eauto using generated_after_earlier, createdAt_or_now_earlier.
Qed.

(** [createdAt] read off the element and read off what the spread
    copies are the same. *)
Lemma string_of_nat_not_createdAt (i : nat) :
  string_of_Z (Z.of_nat i) ≠ "createdAt".
Proof.
  unfold string_of_Z. destruct (Z.of_nat i) as [|p|p] eqn:E;
    [discriminate| |lia].
  cbn [Z.to_int NilZero.string_of_int NilZero.string_of_uint].
  destruct (Pos.to_uint p); discriminate.
Qed.

Lemma characters_createdAt (i : nat) (str : string) :
  characters i str !! "createdAt" = None.
Proof.
  revert i. induction str as [|a r IH]; intros i; [reflexivity|].
  cbn [characters]. rewrite lookup_insert_ne; [apply IH|].
  apply string_of_nat_not_createdAt.
Qed.

Lemma createdAt_of_element (t : element) :
  is_null_element t = false →
  createdAt_of t = Ok (prop (own_properties t) "createdAt").
Proof.
  destruct t as [v|o]; [|reflexivity].
  cbn [is_null_element createdAt_of]. intros ->.
  destruct v as [| | b | n | str]; try reflexivity.
  cbn [own_properties]. unfold prop. rewrite characters_createdAt.
  reflexivity.
Qed.

(** One element that is not [null]: the id is made from the next reading
    of the clock and the next draw. *)
Lemma import_task_run (t : element) (s : state) :
  is_null_element t = false →
  ∃ n s', import_task t s = (Ok n, s') ∧
          imported_as (world s) (clock_reads (world s))
            (random_draws (world s)) 0 t n ∧
          only_time_passes s s' ∧
          random_draws (world s') = S (random_draws (world s)) ∧
          S (clock_reads (world s)) ≤ clock_reads (world s').
Proof.
  intros Ht. unfold import_task.
  cbv [bind generateId new_Date Math_random_chars ret lift].
  rewrite (createdAt_of_element t Ht).
  cbn [tasks filters storage world clock clock_reads random random_draws].
  unfold imported_as, createdAt_or_now, id_of.
  destruct (truthy (prop (own_properties t) "createdAt")) eqn:Hc.
  - eexists _, _. split; [reflexivity|]. split.
    + exists (clock_reads (world s)), (prop (own_properties t) "createdAt").
      rewrite !Nat.add_0_r. repeat split; lia || reflexivity.
    + repeat split; cbn; lia.
  - cbv [now_iso bind new_Date ret].
    cbn [tasks filters storage world clock clock_reads random random_draws].
    eexists _, _. split; [reflexivity|]. split.
    + exists (clock_reads (world s)). eexists.
      rewrite !Nat.add_0_r. split; [lia|]. split; [reflexivity|].
      exists (S (clock_reads (world s))). split; [lia | reflexivity].
    + repeat split; cbn; lia.
Qed.

(** An element that is [null] or [undefined]: the id is made, then reading
    [createdAt] throws. *)
Lemma import_task_null (t : element) (s : state) :
  is_null_element t = true →
  ∃ s', import_task t s = (Throw TypeError, s') ∧ only_time_passes s s'.
Proof.
  destruct t as [v|o]; [|discriminate]. cbn [is_null_element]. intros Hv.
  unfold import_task.
  cbv [bind generateId new_Date Math_random_chars ret lift createdAt_of].
  rewrite Hv. eexists. split; [reflexivity|]. repeat split; cbn; lia.
Qed.

Lemma imported_as_later (s s1 : state) (i : nat) (t : element) (n : obj) :
  only_time_passes s s1 →
  random_draws (world s1) = S (random_draws (world s)) →
  S (clock_reads (world s)) ≤ clock_reads (world s1) →
  imported_as (world s1) (clock_reads (world s1)) (random_draws (world s1)) i t n →
  imported_as (world s) (clock_reads (world s)) (random_draws (world s)) (S i) t n.
Proof.
  intros (_ & _ & _ & C & R & _ & _) Hd Hr (k & c & Hk & -> & Hc).
  exists k, c. rewrite Hd, C, R in *. replace (random_draws (world s) + S i)
    with (S (random_draws (world s)) + i) by lia.
  split; [lia|]. split; [reflexivity|].
  unfold createdAt_or_now in *. rewrite C in Hc. exact Hc.
Qed.

(** The [map] over elements none of which is [null]. *)
Lemma import_tasks_exact (elems : list element) (s : state) :
  existsb is_null_element elems = false →
  ∃ news s', mapM import_task elems s = (Ok news, s') ∧
    only_time_passes s s' ∧
    random_draws (world s') = random_draws (world s) + length elems ∧
    clock_reads (world s) + length elems ≤ clock_reads (world s') ∧
    length news = length elems ∧
    ∀ i t, elems !! i = Some t →
      ∃ n, news !! i = Some n ∧
           imported_as (world s) (clock_reads (world s))
             (random_draws (world s)) i t n.
Proof.
  revert s. induction elems as [|t elems IH]; intros s Hnull.
  - exists [], s. split; [reflexivity|].
    split; [apply only_time_passes_refl|]. cbn [length].
    repeat split; try lia. intros i t [=].
  - cbn [existsb] in Hnull. apply orb_false_elim in Hnull as [Ht Hrest].
    cbn [mapM]. unfold bind at 1.
    destruct (import_task_run t s Ht) as (n & s1 & -> & Hn & Hp1 & Hd1 & Hr1).
    unfold bind at 1.
    destruct (IH s1 Hrest) as (news & s2 & -> & Hp2 & Hd2 & Hr2 & Hlen & Hnews).
    exists (n :: news), s2. split; [reflexivity|].
    split; [eauto using only_time_passes_trans|]. cbn [length].
    split; [lia|]. split; [lia|]. split; [lia|].
    intros [|i] t'.
    + intros [= <-]. exists n. split; [reflexivity | exact Hn].
    + intros Hi. destruct (Hnews i t' Hi) as (n' & Hn' & Has).
      exists n'. split; [exact Hn'|].
      eapply imported_as_later; eauto.
Qed.

(** The [map] over elements one of which is [null]: it throws there, and
    [import] never gets to touch the collection. *)
Lemma import_tasks_null (elems : list element) (s : state) :
  existsb is_null_element elems = true →
  ∃ s', mapM import_task elems s = (Throw TypeError, s') ∧
        only_time_passes s s'.
Proof.
  revert s. induction elems as [|t elems IH]; intros s; [discriminate|].
  cbn [existsb mapM]. unfold bind at 1.
  destruct (is_null_element t) eqn:Ht.
  - intros _. destruct (import_task_null t s Ht) as (s1 & -> & Hp).
    exists s1. split; [reflexivity | exact Hp].
  - cbn [orb]. intros Hrest.
    destruct (import_task_run t s Ht) as (n & s1 & -> & _ & Hp1 & _).
    unfold bind at 1.
    destruct (IH s1 Hrest) as (s2 & -> & Hp2).
    exists s2. split; [reflexivity|]. eauto using only_time_passes_trans.
Qed.

Lemma imported_as_in (s : state) (i : nat) (t : element) (n : obj) :
  imported_as (world s) (clock_reads (world s)) (random_draws (world s)) i t n →
  imported_in s t n.
Proof.
  intros (k & c & Hk & -> & Hc).
  exists (id_of (clock (world s) k) (random (world s) (random_draws (world s) + i))), c.
  split; [reflexivity|]. split.
  - exists k, (random_draws (world s) + i). repeat split; lia || reflexivity.
  - unfold createdAt_or_now in *.
    destruct (truthy (prop (own_properties t) "createdAt")); [exact Hc|].
    destruct Hc as (k' & Hk' & ->). exists k'. split; [lia | reflexivity].
Qed.

Lemma import_tasks_run (elems : list element) (s : state) :
  existsb is_null_element elems = false →
  ∃ news s', mapM import_task elems s = (Ok news, s') ∧
             Forall2 (imported_in s) elems news ∧ only_time_passes s s'.
Proof.
  intros Hnull.
  destruct (import_tasks_exact elems s Hnull)
    as (news & s' & Hrun & Hp & _ & _ & Hlen & Hnews).
  exists news, s'. split; [exact Hrun|]. split; [|exact Hp].
  apply Forall2_same_length_lookup_2; [symmetry; exact Hlen|].
  intros i t n Ht Hn. destruct (Hnews i t Ht) as (n' & Hn' & Has).
  rewrite Hn in Hn'. injection Hn' as <-. eapply imported_as_in, Has.
Qed.

Lemma import_task_ignores_id (t : element) (s : state) :
  import_task (without_id t) s = import_task t s.
Proof.
  destruct t as [v|o]; [reflexivity|].
  unfold import_task. cbn [without_id createdAt_of own_properties].
  unfold prop. rewrite lookup_delete_ne by discriminate.
  cbv [bind lift]. destruct (generateId s) as [[id|e] s1]; [|reflexivity].
  rewrite insert_delete_eq. reflexivity.
Qed.

Lemma import_array (data : import_data) (elems : list element) (s : state) :
  tasks_of data = Ok (ArrayOf elems) →
  import data s =
  match mapM import_task elems s with
  | (Ok news, s1) =>
      (Ok (length news),
       {| tasks := tasks s1 ++ news; filters := filters s1;
          storage := Storage.saveTasks (tasks s1 ++ news) (storage s1);
          world := world s1 |})
  | (Throw e, s1) => (Throw e, s1)
  end.
Proof.
  intros E. unfold import. unfold bind at 1, lift. rewrite E.
  cbn [tasks_truthy Array_isArray elements_of negb orb].
  unfold bind at 1. destruct (mapM import_task elems s) as [[news|e] s1];
    reflexivity.
Qed.

Lemma import_no_array (data : import_data) (tasks_ : tasks_value) (s : state) :
  tasks_of data = Ok tasks_ → Array_isArray tasks_ = false →
  import data s = (Throw (Error "Invalid task data"), s).
Proof.
  intros E Harr. unfold import. unfold bind at 1, lift. rewrite E, Harr.
  rewrite orb_true_r. reflexivity.
Qed.

Lemma import_no_object (data : import_data) (e : error) (s : state) :
  tasks_of data = Throw e → import data s = (Throw e, s).
Proof. intros E. unfold import. unfold bind at 1, lift. rewrite E. reflexivity. Qed.

(** [import], case by case: it throws, and then only time has passed; or
    it appends. *)
Lemma import_run (data : import_data) (s : state) :
  (∃ e s', import data s = (Throw e, s') ∧ only_time_passes s s') ∨
  (∃ elems news,
     tasks_of data = Ok (ArrayOf elems) ∧
     existsb is_null_element elems = false ∧
     fst (import data s) = Ok (length elems) ∧
     tasks (snd (import data s)) = tasks s ++ news ∧
     Forall2 (imported_in s) elems news ∧
     storage (snd (import data s)) =
       Storage.saveTasks (tasks s ++ news) (storage s) ∧
     filters (snd (import data s)) = filters s).
Proof.
  destruct (tasks_of data) as [[v | | elems]|e] eqn:E.
  - left. exists (Error "Invalid task data"), s.
    split; [|apply only_time_passes_refl].
    apply (import_no_array data _ s E). reflexivity.
  - left. exists (Error "Invalid task data"), s.
    split; [|apply only_time_passes_refl].
    apply (import_no_array data _ s E). reflexivity.
  - rewrite (import_array data elems s E).
    destruct (existsb is_null_element elems) eqn:Hnull.
    + left. destruct (import_tasks_null elems s Hnull) as (s1 & -> & Hp).
      exists TypeError, s1. split; [reflexivity | exact Hp].
    + right. exists elems.
      destruct (import_tasks_run elems s Hnull) as (news & s1 & -> & Hnews & Hp).
      destruct Hp as (T & F & S & _).
      pose proof (Forall2_length _ _ _ Hnews) as Hlen.
      cbn [fst snd tasks storage filters].
      exists news. rewrite T, S, F, Hlen. repeat split; assumption.
  - left. exists e, s. split; [|apply only_time_passes_refl].
    apply import_no_object, E.
Qed.

Lemma import_ignores_ids (data : import_data) (s : state) :
  import (without_ids data) s = import data s.
Proof.
  destruct data as [v|p]; [reflexivity|].
  destruct (payload_tasks p) as [v | | elems] eqn:E.
  - unfold import, without_ids. cbn [tasks_of payload_tasks]. rewrite E.
    reflexivity.
  - unfold import, without_ids. cbn [tasks_of payload_tasks]. rewrite E.
    reflexivity.
  - rewrite (import_array (Data p) elems s)
      by (cbn [tasks_of]; rewrite E; reflexivity).
    rewrite (import_array (without_ids (Data p)) (without_id <$> elems) s)
      by (unfold without_ids; cbn [tasks_of payload_tasks]; rewrite E;
          reflexivity).
    rewrite (mapM_ext import_task import_task without_id)
      by apply import_task_ignores_id.
    reflexivity.
Qed.

Lemma prop_id_imported (w : World) (reads draws i : nat) (t : element)
    (n : obj) :
  imported_as w reads draws i t n →
  ∃ k, prop n "id" = id_of (clock w k) (random w (draws + i)).
Proof.
  intros (k & c & _ & -> & _). exists k.
  unfold prop. rewrite lookup_insert_ne by discriminate.
  rewrite lookup_insert_eq. reflexivity.
Qed.

(** The new ids differ from one another as soon as the draws do. *)
Lemma imported_ids_differ (w : World) (reads draws : nat)
    (elems : list element) (news : list obj) :
  (∀ k, (0 ≤ clock w k)%Z) →
  NoDup ((λ i, random w (draws + i)) <$> seq 0 (length elems)) →
  length news = length elems →
  (∀ i t, elems !! i = Some t →
     ∃ n, news !! i = Some n ∧ imported_as w reads draws i t n) →
  NoDup ((λ n, prop n "id") <$> news).
Proof.
  intros Hclock Hdraws Hlen Hnews. apply NoDup_alt. intros i j id Hi Hj.
  rewrite list_lookup_fmap in Hi, Hj.
  destruct (news !! i) as [ni|] eqn:Ei; [|discriminate].
  destruct (news !! j) as [nj|] eqn:Ej; [|discriminate].
  cbn in Hi, Hj. injection Hi as Hi. injection Hj as Hj.
  assert (Hil : i < length elems)
    by (rewrite <- Hlen; eapply lookup_lt_Some; eauto).
  assert (Hjl : j < length elems)
    by (rewrite <- Hlen; eapply lookup_lt_Some; eauto).
  destruct (lookup_lt_is_Some_2 elems i Hil) as [ti Hti].
  destruct (lookup_lt_is_Some_2 elems j Hjl) as [tj Htj].
  destruct (Hnews i ti Hti) as (ni' & Hni & Hasi).
  destruct (Hnews j tj Htj) as (nj' & Hnj & Hasj).
  rewrite Ei in Hni. injection Hni as <-.
  rewrite Ej in Hnj. injection Hnj as <-.
  destruct (prop_id_imported _ _ _ _ _ _ Hasi) as (ki & Hidi).
  destruct (prop_id_imported _ _ _ _ _ _ Hasj) as (kj & Hidj).
  rewrite Hi in Hidi. rewrite Hj in Hidj. rewrite Hidi in Hidj.
  destruct (IdStrings.id_of_inj _ _ _ _ (Hclock ki) (Hclock kj) Hidj)
    as [_ Hr].
  eapply (NoDup_lookup _ i j); [exact Hdraws| |].
  - rewrite list_lookup_fmap, lookup_seq_lt by exact Hil. reflexivity.
  - rewrite list_lookup_fmap, lookup_seq_lt by exact Hjl. cbn.
    rewrite Hr. reflexivity.
Qed.

(** ** C6, as the code has it *)

(** C6 (amended).  [import] throws a [TypeError] when the payload is [null]
    or [undefined], and its format error exactly when the payload is
    another value whose [tasks] property is missing, falsy or not an
    array; in both cases nothing has changed.  When [tasks] is an array
    with an element that is [null] or [undefined], [import] throws a
    [TypeError] as well: ids have been made for the elements before it,
    but the collection, the filters and the saved data are as they were.
    Otherwise [import] returns the number of elements, and the collection
    is the old one followed by one new task per element, in order: the
    task has the properties that the spread copies from the element,
    except for [id], made from a reading of the clock during the call and
    from the next draw, one draw per element, and for [createdAt], kept
    when truthy and else the current time.  The new ids differ from one
    another whenever the draws do.  The new collection is handed to
    [saveTasks], and is the saved one if [localStorage] accepts the
    write.  The incoming ids have no influence at all: the import of the
    payload with its ids struck out is the same. *)
Theorem import_appends (data : import_data) (s : state) :
  let r := import data s in
  (tasks_of data = Throw TypeError → r = (Throw TypeError, s)) ∧
  (∀ tasks_, tasks_of data = Ok tasks_ →
     (fst r = Throw (Error "Invalid task data")
      ↔ Array_isArray tasks_ = false) ∧
     (Array_isArray tasks_ = false → snd r = s)) ∧
  (∀ elems, tasks_of data = Ok (ArrayOf elems) →
     (existsb is_null_element elems = true →
        fst r = Throw TypeError ∧ only_time_passes s (snd r)) ∧
     (existsb is_null_element elems = false →
        ∃ news,
          fst r = Ok (length elems) ∧
          tasks (snd r) = tasks s ++ news ∧
          length news = length elems ∧
          (∀ i t, elems !! i = Some t →
             ∃ n, news !! i = Some n ∧
                  imported_as (world s) (clock_reads (world s))
                    (random_draws (world s)) i t n) ∧
          ((∀ k, (0 ≤ clock (world s) k)%Z) →
           NoDup ((λ i, random (world s) (random_draws (world s) + i))
                    <$> seq 0 (length elems)) →
           NoDup ((λ n, prop n "id") <$> news)) ∧
          storage (snd r) = Storage.saveTasks (tasks s ++ news) (storage s) ∧
          (Storage.accepted (storage s) = true →
           Storage.getTasks (storage (snd r))
             = JSON_roundtrip <$> (tasks s ++ news)) ∧
          filters (snd r) = filters s)) ∧
  import (without_ids data) s = import data s.
Proof.
  cbv zeta. split; [|split; [|split; [|apply import_ignores_ids]]].
  - intros E. apply import_no_object, E.
  - intros tasks_ E. destruct (Array_isArray tasks_) eqn:Harr.
    + destruct tasks_ as [v | | elems]; try discriminate.
      rewrite (import_array data elems s E). split; [|discriminate].
      split; [|discriminate]. intros Hthrow. exfalso.
      destruct (existsb is_null_element elems) eqn:Hnull.
      * destruct (import_tasks_null elems s Hnull) as (s1 & Hrun & _).
        rewrite Hrun in Hthrow. discriminate.
      * destruct (import_tasks_run elems s Hnull) as (news & s1 & Hrun & _).
        rewrite Hrun in Hthrow. discriminate.
    + rewrite (import_no_array data tasks_ s E Harr).
      split; [split; reflexivity | reflexivity].
  - intros elems E. rewrite (import_array data elems s E). split.
    + intros Hnull.
      destruct (import_tasks_null elems s Hnull) as (s1 & -> & Hp).
      split; [reflexivity | exact Hp].
    + intros Hnull.
      destruct (import_tasks_exact elems s Hnull)
        as (news & s1 & -> & Hp & _ & _ & Hlen & Hnews).
      destruct Hp as (T & F & S & _).
      cbn [fst snd tasks storage filters].
      exists news. rewrite T, S, F, Hlen.
      split; [reflexivity|]. split; [reflexivity|]. split; [reflexivity|].
      split; [exact Hnews|]. split.
      * intros Hclock Hdraws.
        eapply imported_ids_differ; eauto.
      * split; [reflexivity|]. split; [|reflexivity].
        apply Writes.getTasks_saveTasks.
Qed.

End WithHost.

(** ** C6, as the specification has it *)

(** C6 fails on a payload whose array holds [null]: the [tasks] property is
    there and is an array, and yet [import] throws, a [TypeError], and
    appends nothing, not even the task before the gap. *)
Lemma import_throws_on_null :
  let s := state_with [task "t1" "Essay" "pending" VNull] None in
  let r := import export_with_null s in
  obind (tasks_of export_with_null) (λ t, Ok (Array_isArray t)) = Ok true ∧
  fst r = Throw TypeError ∧
  (λ t, prop t "id") <$> tasks (snd r) = [VStr "t1"].
Proof. vm_compute. repeat split. Qed.

(** A file that holds nothing but [null]. *)
Example import_null :
  import (NoObject VNull) (state_with [] None)
  = (Throw TypeError, state_with [] None).
Proof. reflexivity. Qed.

(** A payload of two tasks, one carrying the id of a task that exists. *)
Example import_two :
  let existing := task "t1" "Essay" "pending" VNull in
  let data := Data
    {| payload_tasks :=
         ArrayOf [ Object (<["id" := VStr "t1"]> (<["title" := VStr "Run"]> ∅));
                   Object (<["title" := VStr "Read"]> ∅) ];
       exportDate := VStr "2024-02-01T00:00:00.000Z";
       version := VStr "1.0" |} in
  let r := import data (state_with [existing] None) in
  fst r = Ok 2 ∧
  (λ t, prop t "id") <$> tasks (snd r) =
    [VStr "t1"; VStr "1709210096789-k3j2h1g00"; VStr "1709210096791-k3j2h1g01"].
Proof. vm_compute. split; reflexivity. Qed.

(** A payload whose array holds a number and a string instead of tasks:
    both become tasks, the string with its characters as properties. *)
Example import_scalars :
  let data := Data
    {| payload_tasks := ArrayOf [ Primitive (VNum 5); Primitive (VStr "ab") ];
       exportDate := VNull; version := VNull |} in
  let r := import data (state_with [] None) in
  fst r = Ok 2 ∧
  (λ t, (prop t "id", prop t "0", prop t "1", prop t "title"))
    <$> tasks (snd r) =
    [ (VStr "1709210096789-k3j2h1g00", VUndef, VUndef, VUndef);
      (VStr "1709210096791-k3j2h1g01", VStr "a", VStr "b", VUndef) ].
Proof. vm_compute. split; reflexivity. Qed.

Example import_rejects_missing_tasks :
  fst (import
         (Data {| payload_tasks := Scalar VUndef; exportDate := VNull;
                  version := VNull |})
         (state_with [] None))
  = Throw (Error "Invalid task data") ∧
  fst (import (NoObject (VNum 7)) (state_with [] None))
  = Throw (Error "Invalid task data").
Proof. split; reflexivity. Qed.

End Importing.

(* ================================================================== *)
(** * Migration of legacy records ([migrateOldData]) *)
(* ================================================================== *)

Module Migration.
Import TaskManager Spec.

Lemma prop_insert_eq (o : obj) (k : string) (v : val) :
  prop (<[k := v]> o) k = v.
Proof. unfold prop. rewrite lookup_insert_eq. reflexivity. Qed.

Lemma prop_insert_ne (o : obj) (k k' : string) (v : val) :
  k ≠ k' → prop (<[k := v]> o) k' = prop o k'.
Proof. intros Hne. unfold prop. rewrite lookup_insert_ne by exact Hne. reflexivity. Qed.

Lemma string_of_Z_not_empty (n : Z) : string_of_Z n ≠ EmptyString.
Proof.
  unfold string_of_Z. destruct (Z.to_int n) as [d|d]; [|discriminate].
  destruct d; discriminate.
Qed.

Lemma ToString_truthy (v : val) :
  truthy v = true → ToString v ≠ EmptyString.
Proof.
  destruct v as [| | [|] | n | s]; cbn [truthy ToString]; try discriminate.
  - intros _. apply string_of_Z_not_empty.
  - destruct (String.eqb_spec s ""); [discriminate | congruence].
Qed.

Lemma generated_truthy (w : World) (reads draws : nat) (id : val) :
  generated_after w reads draws id →
  truthy id = true ∧ is_number id = false.
Proof.
  intros (k & j & _ & _ & ->). split; [|reflexivity].
  cbn [truthy]. destruct (string_of_Z (clock w k)); reflexivity.
Qed.

Lemma string_truthy (s : string) :
  s ≠ EmptyString → truthy (VStr s) = true.
Proof. destruct s; [congruence | reflexivity]. Qed.

Section WithHost.
Context {host : Host}.

Lemma migrate_task_run (t : obj) (s : state) :
  ∃ n s', migrate_task t s = (Ok n, s') ∧ migrated_in s t n ∧
          only_time_passes s s'.
Proof.
  unfold migrate_task, migrated_in.
  assert (Hid : ∃ id s1,
    (if truthy (prop t "id") then ret (VStr (ToString (prop t "id")))
     else generateId) s = (Ok id, s1) ∧
    (if truthy (prop t "id") then id = VStr (ToString (prop t "id"))
     else generated_after (world s) (clock_reads (world s))
            (random_draws (world s)) id) ∧
    only_time_passes s s1).
  { destruct (truthy (prop t "id")).
    - eexists _, s. split; [reflexivity|]. split; [reflexivity|].
      apply Importing.only_time_passes_refl.
    - apply Importing.generateId_run. }
  destruct Hid as (id & s1 & Eid & Hid & Hp1).
  unfold bind at 1. rewrite Eid. unfold bind, createdAt_or_now.
  destruct (truthy (prop t "createdAt")) eqn:Ht.
  - eexists _, _. split; [reflexivity|]. split; [|exact Hp1].
    exists id, (prop t "createdAt"). repeat split; assumption.
  - destruct (Importing.now_iso_run s1) as (k & s2 & -> & Hk & Hp2).
    eexists _, _. split; [reflexivity|].
    split; [|eauto using Importing.only_time_passes_trans].
    exists id, (VStr (toISOString (clock (world s1) k))).
    split; [reflexivity|]. split; [exact Hid|]. exists k.
    destruct Hp1 as (_ & _ & _ & C & _ & L & _). rewrite C.
    split; [lia | reflexivity].
Qed.

Lemma migrated_in_earlier (s s' : state) (t n : obj) :
  only_time_passes s s' → migrated_in s' t n → migrated_in s t n.
Proof.
  intros Hp (id & c & -> & Hid & Hc). exists id, c. split; [reflexivity|].
  split; [|eauto using Importing.createdAt_or_now_earlier].
  destruct (truthy (prop t "id"));
    eauto using Importing.generated_after_earlier.
Qed.

Lemma migrate_tasks_run (ts : list obj) (s : state) :
  ∃ ts' s', mapM migrate_task ts s = (Ok ts', s') ∧
            Forall2 (migrated_in s) ts ts' ∧ only_time_passes s s'.
Proof.
  revert s. induction ts as [|t ts IH]; intros s.
  - exists [], s. split; [reflexivity|].
    split; [constructor | apply Importing.only_time_passes_refl].
  - cbn [mapM]. unfold bind at 1.
    destruct (migrate_task_run t s) as (n & s1 & -> & Hn & Hp1).
    unfold bind at 1.
    destruct (IH s1) as (ts' & s2 & -> & Hts & Hp2).
    exists (n :: ts'), s2. split; [reflexivity|].
    split; [|eauto using Importing.only_time_passes_trans].
    constructor; [exact Hn|].
    eapply Forall2_impl; [exact Hts|].
    intros t' n' Ht'. eapply migrated_in_earlier; eauto.
Qed.

(** A migrated record has a non-empty string as its id. *)
Lemma migrated_needs_nothing (s : state) (t n : obj) :
  migrated_in s t n → needs_migration n = false.
Proof.
  intros (id & c & -> & Hid & _). unfold needs_migration.
  rewrite !prop_insert_ne by discriminate. rewrite prop_insert_eq.
  destruct (truthy (prop t "id")) eqn:Ht.
  - subst id. rewrite string_truthy by (apply ToString_truthy, Ht).
    reflexivity.
  - destruct (generated_truthy _ _ _ _ Hid) as [-> ->]. reflexivity.
Qed.

Lemma migrated_all_need_nothing (s : state) (ts ts' : list obj) :
  Forall2 (migrated_in s) ts ts' → existsb needs_migration ts' = false.
Proof.
  induction 1 as [|t n ts ts' Hn _ IH]; [reflexivity|].
  cbn [existsb]. rewrite (migrated_needs_nothing s t n Hn). exact IH.
Qed.

Lemma migrateOldData_run (s : state) :
  migrateOldData s =
  if existsb needs_migration (tasks s) then
    match mapM migrate_task (tasks s) s with
    | (Ok ts', s1) =>
        (Ok tt, {| tasks := ts'; filters := filters s1;
                   storage := Storage.saveTasks ts' (storage s1);
                   world := world s1 |})
    | (Throw e, s1) => (Throw e, s1)
    end
  else (Ok tt, s).
Proof.
  unfold migrateOldData. unfold bind at 1. cbn [get_tasks].
  destruct (existsb needs_migration (tasks s)); [|reflexivity].
  unfold bind at 1.
  destruct (mapM migrate_task (tasks s) s) as [[ts'|e] s1]; reflexivity.
Qed.

(** ** C5, as the code has it *)

(** C5 (amended). The migration runs only when some record has no id (a
    falsy one) or a numeric id.  It then returns, writes the collection
    (which is then the saved one if [localStorage] accepts the write), and
    replaces every record by one with a string id (the old id printed, or
    a generated id where there was none), with its old priority or else
    [medium], and its old [createdAt] or else the current time.  A collection in which no
    record has a missing or numeric id is left exactly as it is.  Running
    the migration again right after changes nothing. *)
Theorem migrateOldData_upgrade (s : state) :
  (existsb needs_migration (tasks s) = false → migrateOldData s = (Ok tt, s)) ∧
  (existsb needs_migration (tasks s) = true →
   ∃ ts',
     fst (migrateOldData s) = Ok tt ∧
     tasks (snd (migrateOldData s)) = ts' ∧
     Forall2 (migrated_in s) (tasks s) ts' ∧
     storage (snd (migrateOldData s)) = Storage.saveTasks ts' (storage s) ∧
     (Storage.accepted (storage s) = true →
      Storage.getTasks (storage (snd (migrateOldData s)))
        = JSON_roundtrip <$> ts') ∧
     filters (snd (migrateOldData s)) = filters s) ∧
  migrateOldData (snd (migrateOldData s)) = (Ok tt, snd (migrateOldData s)).
Proof.
  rewrite (migrateOldData_run s).
  destruct (existsb needs_migration (tasks s)) eqn:Hneeds.
  - destruct (migrate_tasks_run (tasks s) s) as (ts' & s1 & -> & Hts & Hp).
    destruct Hp as (T & F & S & _). cbn [fst snd].
    split; [discriminate|]. split.
    + intros _. exists ts'. cbn [tasks storage filters]. rewrite S, F.
      split; [reflexivity|]. split; [reflexivity|]. split; [exact Hts|].
      split; [reflexivity|]. split; [|reflexivity].
      apply Writes.getTasks_saveTasks.
    + rewrite migrateOldData_run. cbn [tasks].
      rewrite (migrated_all_need_nothing s _ _ Hts). reflexivity.
  - cbn [snd]. split; [reflexivity|]. split; [discriminate|].
    rewrite migrateOldData_run, Hneeds. reflexivity.
Qed.

Lemma needs_migration_JSON (ts : list obj) :
  existsb needs_migration (JSON_roundtrip <$> ts) = existsb needs_migration ts.
Proof.
  induction ts as [|t ts IH]; [reflexivity|].
  cbn [fmap list_fmap existsb]. rewrite <- IH. f_equal.
  unfold needs_migration. rewrite Writes.prop_JSON_roundtrip. reflexivity.
Qed.

(** Loading twice, when [localStorage] takes the write of the first
    [init]: the second [init] finds the collection that the first one
    left, as JSON renders it, and migrates nothing. *)
Lemma init_again (s : state) :
  Storage.accepted (storage s) = true →
  let s1 := snd (init s) in
  fst (init s1) = Ok tt ∧
  tasks (snd (init s1)) = JSON_roundtrip <$> tasks s1 ∧
  world (snd (init s1)) = world s1.
Proof.
  intros Hacc.
  assert (Hinit : ∀ s0, init s0 =
            migrateOldData {| tasks := Storage.getTasks (storage s0);
                              filters := filters s0; storage := storage s0;
                              world := world s0 |}) by reflexivity.
  assert (Hstored :
    Storage.getTasks (storage (snd (init s)))
      = JSON_roundtrip <$> tasks (snd (init s)) ∧
    existsb needs_migration (tasks (snd (init s))) = false).
  { rewrite Hinit, migrateOldData_run. cbn [tasks].
    destruct (existsb needs_migration (Storage.getTasks (storage s))) eqn:Hneeds.
    - match goal with |- context [mapM migrate_task ?ts ?s0] =>
        destruct (migrate_tasks_run ts s0) as (ts' & s2 & -> & Hts & Hp) end.
      destruct Hp as (_ & _ & S & _). cbn [storage] in S.
      cbn [snd tasks storage]. rewrite S. split.
      + apply Writes.getTasks_saveTasks, Hacc.
      + apply (migrated_all_need_nothing _ _ _ Hts).
    - cbn [snd tasks storage]. split; [|exact Hneeds].
      symmetry. apply Writes.getTasks_clean. }
  destruct Hstored as [Hstored Hneeds]. cbv zeta.
  rewrite (Hinit (snd (init s))), migrateOldData_run. cbn [tasks].
  rewrite Hstored, needs_migration_JSON, Hneeds.
  cbn [fst snd tasks world]. repeat split.
Qed.

End WithHost.

(** ** C5, as the specification has it *)

(** C5 fails on a record that has a string id and lacks a priority: its id
    does not trigger the migration, and the record stays without
    priority. *)
Lemma migration_skips_missing_priority :
  let s := state_with [legacy_without_priority] None in
  (λ t, (prop t "id", prop t "priority")) <$> tasks s
    = [(VStr "7f3a", VUndef)] ∧
  fst (migrateOldData s) = Ok tt ∧
  (λ t, (prop t "id", prop t "priority")) <$> tasks (snd (migrateOldData s))
    = [(VStr "7f3a", VUndef)].
Proof. vm_compute. repeat split. Qed.

(** A numeric id is printed, not replaced by a generated id; the record
    next to it gets its priority filled in on that occasion. *)
Example migration_of_a_numeric_id :
  let s := state_with [legacy_with_number; legacy_without_priority] None in
  (λ t, (prop t "id", prop t "priority", prop t "createdAt"))
    <$> tasks (snd (migrateOldData s)) =
  [ (VStr "42", VStr "medium", VStr "2024-02-29T12:34:56.789Z");
    (VStr "7f3a", VStr "medium", VStr "2023-11-02T10:00:00.000Z") ].
Proof. vm_compute. reflexivity. Qed.

End Migration.

(* ================================================================== *)
(** * What each operation does to the collection *)
(* ================================================================== *)

Module Operations.
Import TaskManager Spec.

Lemma findIndex_Some {A} (p : A → bool) (l : list A) (i : nat) :
  findIndex p l = Some i → ∃ x, l !! i = Some x ∧ p x = true.
Proof.
  revert i. induction l as [|y l IH]; intros i; [discriminate|].
  cbn [findIndex]. destruct (p y) eqn:Hy.
  - intros [= <-]. exists y. split; [reflexivity | exact Hy].
  - destruct (findIndex p l) as [j|]; [|discriminate].
    intros [= <-]. destruct (IH j eq_refl) as (x & Hx & Hp).
    exists x. split; assumption.
Qed.

Lemma prop_spread (old u : obj) (k : string) :
  prop (spread old u) k =
  match u !! k with Some v => v | None => prop old k end.
Proof.
  unfold prop, spread. destruct (u !! k) as [v|] eqn:E.
  - rewrite (lookup_union_Some_l u old k v E). reflexivity.
  - rewrite lookup_union_r by exact E. reflexivity.
Qed.

Lemma patched_lookup (old updates : obj) (now : val) (k : string) :
  k ≠ "completedAt" → patched old updates now !! k = updates !! k.
Proof.
  intros Hk. unfold patched.
  repeat match goal with |- context [if ?b then _ else _] => destruct b end;
    rewrite ?lookup_insert_ne by congruence; reflexivity.
Qed.

Section WithHost.
Context {host : Host}.

Lemma handle_change_to_completed_run (updates : obj) (s : state) :
  ∃ s1, tasks s1 = tasks s ∧ filters s1 = filters s ∧
    (handle_change_to_completed updates s =
       (Ok (<["completedAt" :=
               VStr (toISOString (clock (world s) (clock_reads (world s))))]>
              updates), s1)
     ∨ ∃ e, handle_change_to_completed updates s = (Throw e, s1)).
Proof.
  cbv [handle_change_to_completed bind now_iso new_Date ret getTodayString
       get_storage set_storage lift updateStats].
  cbn [tasks filters storage world clock clock_reads random random_draws].
  match goal with |- context [Storage.getCompletedCountByDate ?d ?st] =>
    destruct (Storage.getCompletedCountByDate d st) as [n|e] end.
  - eexists. split; [|split; [|left; reflexivity]]; reflexivity.
  - eexists. split; [|split; [|right; eexists; reflexivity]]; reflexivity.
Qed.

(** [update], case by case. *)
Lemma update_run (id : val) (updates : obj) (s : state) :
  match findIndex (λ t, strict_eq (prop t "id") id) (tasks s) with
  | None => update id updates s = (Ok (None, updates), s)
  | Some index =>
      ∃ old s1, tasks s !! index = Some old ∧ filters s1 = filters s ∧
        ((∃ e, update id updates s = (Throw e, s1) ∧ tasks s1 = tasks s)
         ∨
         (let u := patched old updates
                     (VStr (toISOString (clock (world s) (clock_reads (world s))))) in
          update id updates s = (Ok (Some (spread old u), u), s1) ∧
          tasks s1 = <[index := spread old u]> (tasks s)))
  end.
Proof.
  destruct (findIndex _ (tasks s)) as [index|] eqn:Hfind.
  2:{ unfold update. cbv [bind get_tasks]. rewrite Hfind. reflexivity. }
  destruct (findIndex_Some _ _ _ Hfind) as (old & Hold & _).
  exists old. unfold update, patched.
  cbv [bind get_tasks set_tasks save get_storage set_storage ret].
  rewrite Hfind, Hold. cbn [from_option]. unfold Datatypes.id.
  cbn [tasks filters].
  destruct (strict_eq (prop updates "status") (VStr "completed")
            && negb (strict_eq (prop old "status") (VStr "completed"))) eqn:Hto.
  - destruct (handle_change_to_completed_run updates s)
      as (s1 & T1 & F1 & [Hrun | [e Hrun]]); rewrite Hrun.
    + eexists. split; [reflexivity|]. split; cycle 1.
      * right. cbv zeta. split; [reflexivity|]. cbn [tasks]. rewrite T1.
        reflexivity.
      * cbn [filters]. exact F1.
    + exists s1. split; [reflexivity|]. split; [exact F1|].
      left. exists e. split; [reflexivity | exact T1].
  - eexists. split; [reflexivity|]. split; cycle 1.
    + right. cbv zeta. split; reflexivity.
    + reflexivity.
Qed.

(** [create] either throws before it touches the collection, or appends
    one pending task without a completion time. *)
Lemma create_run (taskData : obj) (s : state) :
  ∃ s1, filters s1 = filters s ∧
    ((∃ e, create taskData s = (Throw e, s1) ∧ tasks s1 = tasks s)
     ∨
     (∃ t, create taskData s = (Ok t, s1) ∧ tasks s1 = tasks s ++ [t] ∧
           prop t "status" = VStr "pending" ∧ prop t "completedAt" = VNull)).
Proof.
  destruct (Importing.generateId_run s) as (id & s0 & Hid & _ & (T0 & F0 & _)).
  unfold create. cbv [bind]. rewrite Hid. unfold trim.
  destruct (prop taskData "title") as [| | b | n | title];
    try (exists s0; split; [exact F0|]; left; eexists; split;
         [reflexivity | exact T0]).
  cbv [ret].
  destruct (or_else (prop taskData "description") (VStr ""))
    as [| | b | n | description];
    try (exists s0; split; [exact F0|]; left; eexists; split;
         [reflexivity | exact T0]).
  cbv [now_iso bind new_Date ret get_tasks set_tasks save get_storage
       set_storage].
  rewrite StreakUpdate.updateStats_run.
  eexists. split; cycle 1.
  - right. eexists. split; [reflexivity|].
    cbn [tasks]. rewrite T0. split; [reflexivity|].
    split; [|reflexivity].
    rewrite !Migration.prop_insert_ne by discriminate.
    apply Migration.prop_insert_eq.
  - cbn [filters]. exact F0.
Qed.

Lemma delete_run (id : val) (s : state) :
  tasks (snd (delete id s)) =
    List.filter (λ t, negb (strict_eq (prop t "id") id)) (tasks s) ∧
  filters (snd (delete id s)) = filters s.
Proof.
  unfold delete. cbv [bind get_tasks set_tasks].
  destruct (_ <? _)%nat; split; reflexivity.
Qed.

Lemma clearCompleted_run (s : state) :
  tasks (snd (clearCompleted s)) =
    List.filter (λ t, negb (strict_eq (prop t "status") (VStr "completed")))
                (tasks s) ∧
  filters (snd (clearCompleted s)) = filters s.
Proof. split; reflexivity. Qed.

Lemma bulkDelete_run (ids : list val) (s : state) :
  tasks (snd (bulkDelete ids s)) =
    List.filter (λ t, negb (existsb (strict_eq (prop t "id")) ids)) (tasks s) ∧
  filters (snd (bulkDelete ids s)) = filters s.
Proof.
  unfold bulkDelete. cbv [bind get_tasks set_tasks].
  destruct (_ <? _)%nat; split; reflexivity.
Qed.


(** [create] and the streak: when [create] returns, the stats record has
    gone through the update for [created] once, with the date that the
    third reading of the clock gives (the first two make the id and
    [createdAt]). *)
Lemma create_updates_stats (taskData t : obj) (s s1 : state) :
  writable (storage s) →
  create taskData s = (Ok t, s1) →
  Storage.getStats (storage s1) =
  updateStats_record "created"
    (before "T" (toISOString (clock (world s) (2 + clock_reads (world s)))))
    (Storage.getStats (storage s)).
Proof.
  intros Hw.
  unfold create. cbv [bind generateId new_Date Math_random_chars ret]. unfold trim.
  destruct (prop taskData "title") as [| | b | n | title]; try discriminate.
  cbv [ret].
  destruct (or_else (prop taskData "description") (VStr ""))
    as [| | b | n | description]; try discriminate.
  cbv [now_iso bind new_Date ret get_tasks set_tasks save get_storage
       set_storage].
  rewrite StreakUpdate.updateStats_run. intros [= _ <-]. cbn [storage].
  rewrite Writes.getStats_saveStats by Writes.writes. reflexivity.
Qed.

(** [update] and the streak: when a status change to [completed] goes
    through, the stats record has gone through the update for [completed]
    once; the daily entry written afterwards leaves the streak fields
    alone. *)
Lemma update_updates_stats (id : val) (updates : obj) (s s1 : state)
    (r : option obj * obj) (index : nat) (old : obj) :
  writable (storage s) →
  findIndex (λ t, strict_eq (prop t "id") id) (tasks s) = Some index →
  tasks s !! index = Some old →
  strict_eq (prop updates "status") (VStr "completed")
  && negb (strict_eq (prop old "status") (VStr "completed")) = true →
  update id updates s = (Ok r, s1) →
  let stats' := Storage.getStats (storage s1) in
  let expected :=
    updateStats_record "completed"
      (before "T" (toISOString (clock (world s) (1 + clock_reads (world s)))))
      (Storage.getStats (storage s)) in
  Storage.currentStreak stats' = Storage.currentStreak expected ∧
  Storage.longestStreak stats' = Storage.longestStreak expected ∧
  Storage.lastActiveDate stats' = Storage.lastActiveDate expected ∧
  Storage.totalTasksCompleted stats' = Storage.totalTasksCompleted expected ∧
  Storage.totalTasksCreated stats' = Storage.totalTasksCreated expected.
Proof.
  intros Hw Hfind Hold Hto. unfold update.
  cbv [bind get_tasks set_tasks save get_storage set_storage ret].
  rewrite Hfind, Hold. cbn [from_option]. unfold Datatypes.id. rewrite Hto.
  cbv [handle_change_to_completed bind now_iso new_Date ret getTodayString
       get_storage set_storage lift updateStats].
  cbn [tasks filters storage world clock clock_reads random random_draws].
  match goal with |- context [Storage.getCompletedCountByDate ?d ?st] =>
    destruct (Storage.getCompletedCountByDate d st) as [n|e] end;
    [|discriminate].
  intros [= _ <-]. cbv zeta. cbn [storage].
  rewrite Writes.getStats_saveTasks. unfold Storage.updateDailyStats.
  rewrite !Writes.getStats_saveStats by Writes.writes.
  repeat split.
Qed.

End WithHost.
End Operations.

(* ================================================================== *)
(** * [id] and [createdAt] *)
(* ================================================================== *)

Module Identity.
Import TaskManager Spec.

Lemma perform_state {A} (m : M A) (s : state) :
  snd ((m ;; ret tt) s) = snd (m s).
Proof. cbv [bind ret]. destruct (m s) as [[a|e] s1]; reflexivity. Qed.

Lemma identity_spread (old u : obj) :
  patch_spares_identity u → identity (spread old u) = identity old.
Proof.
  intros [Hid Hc]. unfold identity.
  rewrite !Operations.prop_spread, Hid, Hc. reflexivity.
Qed.

Lemma patched_spares_identity (old updates : obj) (now : val) :
  patch_spares_identity updates →
  patch_spares_identity (patched old updates now).
Proof.
  intros [Hid Hc]. split; rewrite Operations.patched_lookup by discriminate;
    assumption.
Qed.

Section WithHost.
Context {host : Host}.

Lemma update_identities (id : val) (updates : obj) (s : state) :
  patch_spares_identity updates →
  identity <$> tasks (snd (update id updates s)) = identity <$> tasks s ∧
  ∀ r, fst (update id updates s) = Ok r → patch_spares_identity (snd r).
Proof.
  intros Hsp. pose proof (Operations.update_run id updates s) as Hrun.
  destruct (findIndex _ (tasks s)) as [index|].
  - destruct Hrun as (old & s1 & Hold & _ & [(e & -> & T1) | Hok]).
    + cbn [fst snd]. rewrite T1. split; [reflexivity | discriminate].
    + cbv zeta in Hok. destruct Hok as [-> T1]. cbn [fst snd]. rewrite T1.
      split.
      * rewrite list_fmap_insert.
        rewrite identity_spread by (apply patched_spares_identity, Hsp).
        apply list_insert_id. rewrite list_lookup_fmap, Hold. reflexivity.
      * intros r [= <-]. cbn [snd]. apply patched_spares_identity, Hsp.
  - rewrite Hrun. cbn [fst snd]. split; [reflexivity|].
    intros r [= <-]. exact Hsp.
Qed.

Lemma bulkUpdate_identities (ids : list val) (updates : obj) (count : nat)
    (s : state) :
  patch_spares_identity updates →
  identity <$> tasks (snd (bulkUpdate_from count ids updates s))
  = identity <$> tasks s.
Proof.
  revert updates count s.
  induction ids as [|id ids IH]; intros updates count s Hsp; [reflexivity|].
  cbn [bulkUpdate_from]. cbv [bind].
  destruct (update_identities id updates s Hsp) as [Hids Hpatch].
  destruct (update id updates s) as [[r|e] s1]; cbn [fst snd] in *.
  - rewrite IH by (apply Hpatch; reflexivity). exact Hids.
  - exact Hids.
Qed.

Lemma perform_identities (o : operation) (s : state) :
  spares_identity o →
  identities_after o (tasks s) (tasks (snd (perform o s))).
Proof.
  destruct o as [taskData | id patch | id | | ids patch | ids | data];
    cbn [spares_identity identities_after perform]; intros Hsp;
    rewrite perform_state.
  - destruct (Operations.create_run taskData s)
      as (s1 & _ & [(e & -> & T) | (t & -> & T & _)]); cbn [snd]; rewrite T.
    + exists []. rewrite app_nil_r. reflexivity.
    + exists [t]. reflexivity.
  - apply update_identities, Hsp.
  - eexists. apply Operations.delete_run.
  - eexists. apply Operations.clearCompleted_run.
  - apply bulkUpdate_identities, Hsp.
  - eexists. apply Operations.bulkDelete_run.
  - destruct (Importing.import_run data s)
      as [(e & s1 & -> & T & _) | (elems & news & _ & _ & _ & -> & _)].
    + cbn [snd]. rewrite T. exists []. rewrite app_nil_r. reflexivity.
    + exists news. reflexivity.
Qed.

(** ** C9, as the code has it *)

(** C9 (amended). Along every sequence of operations whose patches name
    neither [id] nor [createdAt]: [update] and [bulkUpdate] leave every
    task in its place with the [id] and the [createdAt] it had; [delete],
    [bulkDelete] and [clearCompleted] remove tasks and leave the others
    untouched; [create] and [import] append tasks and leave the existing
    ones untouched.  So a task has, for as long as it is in the
    collection, the [id] and the [createdAt] it came with. *)
Theorem identity_kept (ops : list operation) (s : state) :
  Forall spares_identity ops →
  identities_along ops (tasks s) (tasks (run ops s)).
Proof.
  intros Hops. revert s.
  induction Hops as [|o ops Ho _ IH]; intros s; [reflexivity|].
  cbn [identities_along run].
  exists (tasks (snd (perform o s))). split; [|apply IH].
  apply perform_identities, Ho.
Qed.

End WithHost.

Lemma identity_kept_witness :
  identities_along a_morning []
    (tasks (run (host:=host_left_first) a_morning (state_with [] None))).
Proof.
  apply (identity_kept (host:=host_left_first) a_morning (state_with [] None)).
  repeat constructor.
Defined.

Example a_morning_result :
  (λ t, (prop t "id", prop t "title", prop t "status", prop t "completedAt"))
    <$> tasks (run (host:=host_left_first) a_morning (state_with [] None))
  = [ (VStr "1709210096795-k3j2h1g01", VStr "Run 5k", VStr "completed",
       VStr "2024-02-29T12:34:56.798Z");
      (VStr "1709210096801-k3j2h1g02", VStr "Read", VStr "pending", VNull) ].
Proof. vm_compute. reflexivity. Qed.

(** ** C9, as the specification has it *)

(** C9 fails for a patch that names [id] or [createdAt]: [update] copies
    every property of the patch into the task. *)
Lemma update_overwrites_identity :
  let s := state_with [task "t1" "Essay" "pending" VNull] None in
  let patch := <["id" := VStr "t2"]> (<["createdAt" := VStr "1999-12-31T23:59:59.000Z"]> ∅) in
  identity <$> tasks s = [(VStr "t1", VStr "2024-02-20T08:00:00.000Z")] ∧
  identity <$> tasks (snd (update (host:=host_left_first) (VStr "t1") patch s))
    = [(VStr "t2", VStr "1999-12-31T23:59:59.000Z")].
Proof. vm_compute. split; reflexivity. Qed.

End Identity.

(* ================================================================== *)
(** * [completedAt] and [status] *)
(* ================================================================== *)

Module Completion.
Import TaskManager Spec.

Lemma completion_matches_of (t : obj) (status_ completedAt : val) :
  prop t "status" = status_ → prop t "completedAt" = completedAt →
  completion_matches t =
  Bool.eqb (negb (is_nullish completedAt)) (strict_eq status_ (VStr "completed")).
Proof. intros <- <-. reflexivity. Qed.

(** The heart of [update]: a patch that agrees with itself, applied to a
    task on which [completedAt] and [status] agree, gives such a task
    again, and leaves the patch in agreement with itself. *)
Lemma patched_matches (old updates : obj) (now : string) :
  completion_matches old = true → patch_agrees updates →
  completion_matches (spread old (patched old updates (VStr now))) = true ∧
  patch_agrees (patched old updates (VStr now)).
Proof.
  intros Hold [[st Hst] Hc].
  assert (Hstatus : ∀ u, u !! "status" = Some st →
            prop (spread old u) "status" = st).
  { intros u Hu. rewrite Operations.prop_spread, Hu. reflexivity. }
  assert (Hnew : prop updates "status" = st)
    by (unfold prop; rewrite Hst; reflexivity).
  unfold patched. rewrite Hnew.
  unfold completion_matches in Hold.
  destruct (strict_eq st (VStr "completed")) eqn:Hs;
  destruct (strict_eq (prop old "status") (VStr "completed")) eqn:Ho;
    cbn [andb negb].
  - (* completed before and after: the patch is applied as it is *)
    split; [|split; [eauto | exact Hc]].
    rewrite (completion_matches_of _ st
               (prop (spread old updates) "completedAt")) by auto.
    rewrite Hs, Operations.prop_spread.
    destruct Hc as [-> | Hc].
    + destruct (is_nullish (prop old "completedAt")); [discriminate|reflexivity].
    + unfold completion_matches in Hc. rewrite Hnew, Hs in Hc.
      destruct (updates !! "completedAt") as [v|] eqn:Ev.
      * unfold prop in Hc. rewrite Ev in Hc. exact Hc.
      * unfold prop in Hc. rewrite Ev in Hc. discriminate Hc.
  - (* becomes completed *)
    split.
    + rewrite (completion_matches_of _ st (VStr now)).
      * rewrite Hs. reflexivity.
      * apply Hstatus. rewrite lookup_insert_ne by discriminate. exact Hst.
      * rewrite Operations.prop_spread, lookup_insert_eq. reflexivity.
    + split; [rewrite lookup_insert_ne by discriminate; eauto|].
      right. rewrite (completion_matches_of _ st (VStr now)).
      * rewrite Hs. reflexivity.
      * unfold prop. rewrite lookup_insert_ne by discriminate.
        rewrite Hst. reflexivity.
      * unfold prop. rewrite lookup_insert_eq. reflexivity.
  - (* leaves completed *)
    split.
    + rewrite (completion_matches_of _ st VNull).
      * rewrite Hs. reflexivity.
      * apply Hstatus. rewrite lookup_insert_ne by discriminate. exact Hst.
      * rewrite Operations.prop_spread, lookup_insert_eq. reflexivity.
    + split; [rewrite lookup_insert_ne by discriminate; eauto|].
      right. rewrite (completion_matches_of _ st VNull).
      * rewrite Hs. reflexivity.
      * unfold prop. rewrite lookup_insert_ne by discriminate.
        rewrite Hst. reflexivity.
      * unfold prop. rewrite lookup_insert_eq. reflexivity.
  - (* not completed before nor after: the patch is applied as it is *)
    split; [|split; [eauto | exact Hc]].
    rewrite (completion_matches_of _ st
               (prop (spread old updates) "completedAt")) by auto.
    rewrite Hs, Operations.prop_spread.
    destruct Hc as [-> | Hc].
    + destruct (is_nullish (prop old "completedAt")); [reflexivity|discriminate].
    + unfold completion_matches in Hc. rewrite Hnew, Hs in Hc.
      destruct (updates !! "completedAt") as [v|] eqn:Ev.
      * unfold prop in Hc. rewrite Ev in Hc. exact Hc.
      * exact Hold.
Qed.

Lemma filter_keeps {A} (P : A → Prop) (keep : A → bool) (l : list A) :
  Forall P l → Forall P (List.filter keep l).
Proof.
  induction 1 as [|x l Hx _ IH]; [constructor|].
  cbn [List.filter]. destruct (keep x); [constructor|]; assumption.
Qed.

Section WithHost.
Context {host : Host}.

Lemma update_keeps_completion (id : val) (updates : obj) (s : state) :
  patch_agrees updates →
  Forall (λ t, completion_matches t = true) (tasks s) →
  Forall (λ t, completion_matches t = true) (tasks (snd (update id updates s))) ∧
  ∀ r, fst (update id updates s) = Ok r → patch_agrees (snd r).
Proof.
  intros Hp Hall. pose proof (Operations.update_run id updates s) as Hrun.
  destruct (findIndex _ (tasks s)) as [index|].
  - destruct Hrun as (old & s1 & Hold & _ & [(e & -> & T1) | Hok]).
    + cbn [fst snd]. rewrite T1. split; [exact Hall | discriminate].
    + cbv zeta in Hok. destruct Hok as [-> T1]. cbn [fst snd]. rewrite T1.
      assert (Ho : completion_matches old = true).
      { rewrite Forall_lookup in Hall. exact (Hall index old Hold). }
      destruct (patched_matches old updates
                  (toISOString (clock (world s) (clock_reads (world s)))) Ho Hp)
        as [Hnew Hpatch].
      split.
      * apply Forall_insert; assumption.
      * intros r [= <-]. exact Hpatch.
  - rewrite Hrun. cbn [fst snd]. split; [exact Hall|].
    intros r [= <-]. exact Hp.
Qed.

Lemma bulkUpdate_keeps_completion (ids : list val) (updates : obj)
    (count : nat) (s : state) :
  patch_agrees updates →
  Forall (λ t, completion_matches t = true) (tasks s) →
  Forall (λ t, completion_matches t = true)
         (tasks (snd (bulkUpdate_from count ids updates s))).
Proof.
  revert updates count s.
  induction ids as [|id ids IH]; intros updates count s Hp Hall; [exact Hall|].
  cbn [bulkUpdate_from]. cbv [bind].
  destruct (update_keeps_completion id updates s Hp Hall) as [Hts Hpatch].
  destruct (update id updates s) as [[r|e] s1]; cbn [fst snd] in *.
  - apply IH; [apply Hpatch; reflexivity | exact Hts].
  - exact Hts.
Qed.

Lemma imported_matches (s : state) (t : element) (n : obj) :
  imported_in s t n →
  completion_matches n = completion_matches (own_properties t).
Proof.
  intros (id & c & -> & _). unfold completion_matches.
  rewrite !Migration.prop_insert_ne by discriminate. reflexivity.
Qed.

Lemma perform_keeps_completion (o : operation) (s : state) :
  keeps_completion o →
  Forall (λ t, completion_matches t = true) (tasks s) →
  Forall (λ t, completion_matches t = true) (tasks (snd (perform o s))).
Proof.
  destruct o as [taskData | id patch | id | | ids patch | ids | data];
    cbn [keeps_completion perform]; intros Hk Hall;
    rewrite Identity.perform_state.
  - destruct (Operations.create_run taskData s)
      as (s1 & _ & [(e & -> & T) | (t & -> & T & Hst & Hc)]);
      cbn [snd]; rewrite T; [exact Hall|].
    apply Forall_app. split; [exact Hall|]. constructor; [|constructor].
    rewrite (completion_matches_of t _ _ Hst Hc). reflexivity.
  - apply update_keeps_completion; assumption.
  - destruct (Operations.delete_run id s) as [-> _]. apply filter_keeps, Hall.
  - destruct (Operations.clearCompleted_run s) as [-> _].
    apply filter_keeps, Hall.
  - apply bulkUpdate_keeps_completion; assumption.
  - destruct (Operations.bulkDelete_run ids s) as [-> _].
    apply filter_keeps, Hall.
  - destruct (Importing.import_run data s)
      as [(e & s1 & -> & T & _) | (elems & news & E & _ & _ & -> & Hnews & _)].
    + cbn [snd]. rewrite T. exact Hall.
    + apply Forall_app. split; [exact Hall|].
      specialize (Hk _ E). cbn [elements_of] in Hk. clear -Hk Hnews.
      induction Hnews as [|t n elems news Hn _ IH]; [constructor|].
      inversion Hk as [|? ? Ht Hrest]; subst.
      constructor; [|apply IH, Hrest].
      rewrite (imported_matches s t n Hn). exact Ht.
Qed.

(** What [update] does to [completedAt] and [status] when the patch names
    a status and no [completedAt]. *)
Lemma update_sets_completedAt (id : val) (patch : obj) (s : state)
    (index : nat) (old new patch' : obj) :
  is_Some (patch !! "status") → patch !! "completedAt" = None →
  findIndex (λ t, strict_eq (prop t "id") id) (tasks s) = Some index →
  tasks s !! index = Some old →
  fst (update id patch s) = Ok (Some new, patch') →
  prop new "status" = prop patch "status" ∧
  prop new "completedAt" =
    if strict_eq (prop old "status") (VStr "completed")
    then (if strict_eq (prop patch "status") (VStr "completed")
          then prop old "completedAt" else VNull)
    else (if strict_eq (prop patch "status") (VStr "completed")
          then VStr (toISOString (clock (world s) (clock_reads (world s))))
          else prop old "completedAt").
Proof.
  intros [st Hst] Hc Hfind Hold.
  pose proof (Operations.update_run id patch s) as Hrun.
  rewrite Hfind in Hrun.
  destruct Hrun as (old' & s1 & Hold' & _ & [(e & -> & _) | Hok]);
    [discriminate|].
  rewrite Hold in Hold'. injection Hold' as <-.
  cbv zeta in Hok. destruct Hok as [-> _]. cbn [fst]. intros [= <- <-].
  rewrite !Operations.prop_spread.
  rewrite Operations.patched_lookup by discriminate.
  assert (Hnew : prop patch "status" = st)
    by (unfold prop; rewrite Hst; reflexivity).
  rewrite Hst, Hnew. split; [reflexivity|].
  unfold patched. rewrite Hnew.
  destruct (strict_eq (prop old "status") (VStr "completed"));
  destruct (strict_eq st (VStr "completed")); cbn [andb negb];
    rewrite ?lookup_insert_eq, ?Hc; reflexivity.
Qed.

(** ** C1, as the code has it *)

(** C1 (amended). Take a collection in which every task has a non-null
    [completedAt] if and only if its status is [completed].  It stays so
    along every sequence of [create], [update], [delete], [clearCompleted],
    [bulkUpdate], [bulkDelete] and [import] in which every patch names a
    status and no [completedAt] that contradicts it, and every imported
    task itself has a non-null [completedAt] if and only if it is
    completed.  And an [update] whose patch names a status and no
    [completedAt] gives the task that status; it sets [completedAt] to
    the current time when the status becomes [completed], to null when the
    status was [completed] and no longer is, and leaves it alone
    otherwise. *)
Theorem completion_kept (ops : list operation) (s : state) :
  Forall keeps_completion ops →
  Forall (λ t, completion_matches t = true) (tasks s) →
  Forall (λ t, completion_matches t = true) (tasks (run ops s)) ∧
  ∀ (s0 : state) (id : val) (patch : obj) (index : nat) (old new patch' : obj),
    is_Some (patch !! "status") → patch !! "completedAt" = None →
    findIndex (λ t, strict_eq (prop t "id") id) (tasks s0) = Some index →
    tasks s0 !! index = Some old →
    fst (update id patch s0) = Ok (Some new, patch') →
    prop new "status" = prop patch "status" ∧
    prop new "completedAt" =
      if strict_eq (prop old "status") (VStr "completed")
      then (if strict_eq (prop patch "status") (VStr "completed")
            then prop old "completedAt" else VNull)
      else (if strict_eq (prop patch "status") (VStr "completed")
            then VStr (toISOString (clock (world s0) (clock_reads (world s0))))
            else prop old "completedAt").
Proof.
  intros Hops Hall.
  split; [|intros s0 id patch; apply update_sets_completedAt].
  revert s Hall.
  induction Hops as [|o ops Ho _ IH]; intros s Hall; [exact Hall|].
  cbn [run]. apply IH, perform_keeps_completion; assumption.
Qed.

End WithHost.

Lemma completion_kept_witness :
  Forall (λ t, completion_matches t = true)
    (tasks (run (host:=host_left_first) a_morning (state_with [] None))).
Proof.
  apply (completion_kept (host:=host_left_first) a_morning (state_with [] None)).
  - repeat constructor; try (eexists; reflexivity).
  - constructor.
Defined.

(** ** C1, as the specification has it *)

(** C1 fails after an import: the payload's tasks are copied as they are,
    so a task marked completed whose completion time is null enters the
    collection that way. *)
Lemma import_breaks_completion :
  let s := run (host:=host_left_first) [Import hand_written_export]
               (state_with [] None) in
  (λ t, (prop t "status", prop t "completedAt", completion_matches t))
    <$> tasks s
  = [(VStr "completed", VNull, false)].
Proof. vm_compute. reflexivity. Qed.

(** It fails as well for a patch that names [completedAt] itself. *)
Example patch_breaks_completion :
  let s := state_with [task "t1" "Essay" "pending" VNull] None in
  let patch := <["completedAt" := VStr "2024-02-29T09:00:00.000Z"]> ∅ in
  (λ t, (prop t "status", prop t "completedAt", completion_matches t))
    <$> tasks (snd (update (host:=host_left_first) (VStr "t1") patch s))
  = [(VStr "pending", VStr "2024-02-29T09:00:00.000Z", false)].
Proof. vm_compute. reflexivity. Qed.

(** Outside the amended statement: a patch without a status, applied to a
    completed task, erases the completion time and leaves the status. *)
Example retitling_erases_completedAt :
  let s := state_with
             [task "t1" "Essay" "completed" (VStr "2024-02-28T09:00:00.000Z")]
             None in
  let patch := <["title" := VStr "Essay, final"]> ∅ in
  (λ t, (prop t "title", prop t "status", prop t "completedAt"))
    <$> tasks (snd (update (host:=host_left_first) (VStr "t1") patch s))
  = [(VStr "Essay, final", VStr "completed", VNull)].
Proof. vm_compute. reflexivity. Qed.

End Completion.

(* ================================================================== *)
(** * Sorting *)
(* ================================================================== *)

Module Sorting.

(** ** Consistent comparison functions *)

Section Consistent.
Context {A : Type} (comparefn : A → A → cmp_result) (S : list A).
Hypothesis Hc : consistent comparefn S.

Lemma three_ways (a b : A) :
  a ∈ S → b ∈ S →
  lt_cf comparefn a b ∨ eq_cf comparefn a b ∨ gt_cf comparefn a b.
Proof.
  intros Ha Hb. pose proof (cf_total _ _ Hc a b Ha Hb) as Ht.
  unfold lt_cf, eq_cf, gt_cf.
  destruct (sign (comparefn a b)) as [[]|]; [tauto..|congruence].
Qed.

Lemma lt_gt (a b : A) :
  a ∈ S → b ∈ S → lt_cf comparefn a b → gt_cf comparefn b a.
Proof.
  intros Ha Hb Hlt.
  destruct (three_ways b a Hb Ha) as [Hba | [Hba | Hba]]; [| |exact Hba].
  - pose proof (cf_lt_trans _ _ Hc a b a Ha Hb Ha Hlt Hba) as Haa.
    pose proof (cf_refl _ _ Hc a Ha) as Hr.
    unfold lt_cf, eq_cf in *. congruence.
  - pose proof (cf_sym _ _ Hc b a Hb Ha Hba) as Hab.
    unfold lt_cf, eq_cf in *. congruence.
Qed.

Lemma gt_lt (a b : A) :
  a ∈ S → b ∈ S → gt_cf comparefn a b → lt_cf comparefn b a.
Proof.
  intros Ha Hb Hgt.
  destruct (three_ways b a Hb Ha) as [Hba | [Hba | Hba]]; [exact Hba| |].
  - pose proof (cf_sym _ _ Hc b a Hb Ha Hba) as Hab.
    unfold gt_cf, eq_cf in *. congruence.
  - pose proof (cf_gt_trans _ _ Hc a b a Ha Hb Ha Hgt Hba) as Haa.
    pose proof (cf_refl _ _ Hc a Ha) as Hr.
    unfold gt_cf, eq_cf in *. congruence.
Qed.

(** "Not greater" is transitive. *)
Lemma not_gt_trans (a b c : A) :
  a ∈ S → b ∈ S → c ∈ S →
  ¬ gt_cf comparefn a b → ¬ gt_cf comparefn b c → ¬ gt_cf comparefn a c.
Proof.
  intros Ha Hb Hc' Hab Hbc Hac.
  pose proof (gt_lt a c Ha Hc' Hac) as Hca.
  destruct (three_ways a b Ha Hb) as [Hlt | [Heq | Hgt]]; [| |tauto];
  destruct (three_ways b c Hb Hc') as [Hlt' | [Heq' | Hgt']]; try tauto.
  - pose proof (cf_lt_trans _ _ Hc a b c Ha Hb Hc' Hlt Hlt') as H.
    unfold lt_cf, gt_cf in *. congruence.
  - (* a < b = c, c < a *)
    pose proof (cf_lt_trans _ _ Hc c a b Hc' Ha Hb Hca Hlt) as Hcb.
    pose proof (cf_sym _ _ Hc b c Hb Hc' Heq') as Hcb'.
    unfold lt_cf, eq_cf in *. congruence.
  - (* a = b < c, c < a *)
    pose proof (cf_lt_trans _ _ Hc b c a Hb Hc' Ha Hlt' Hca) as Hba.
    pose proof (cf_sym _ _ Hc a b Ha Hb Heq) as Hba'.
    unfold lt_cf, eq_cf in *. congruence.
  - pose proof (cf_eq_trans _ _ Hc a b c Ha Hb Hc' Heq Heq') as H.
    unfold eq_cf, gt_cf in *. congruence.
Qed.

(** Values that compare equal compare alike with a third one. *)
Lemma eq_cfb_lt (a b c : A) :
  a ∈ S → b ∈ S → c ∈ S →
  eq_cfb comparefn a b = true → lt_cf comparefn b c →
  eq_cfb comparefn a c = false.
Proof.
  intros Ha Hb Hc' Heq Hlt. unfold eq_cfb in *.
  destruct (sign (comparefn a c)) as [[]|] eqn:Hac; try reflexivity.
  assert (Hab : eq_cf comparefn a b).
  { unfold eq_cf. destruct (sign (comparefn a b)) as [[]|]; congruence. }
  pose proof (cf_sym _ _ Hc a b Ha Hb Hab) as Hba.
  pose proof (cf_eq_trans _ _ Hc b a c Hb Ha Hc' Hba Hac) as Hbc.
  unfold lt_cf, eq_cf in *. congruence.
Qed.

(** *** Insertion *)

Variable moves : A → A → outcome bool.

(** On the values at hand [moves swap item] answers whether [item] is
    less than [swap]. *)
Hypothesis Hmoves : ∀ swap item, swap ∈ S → item ∈ S →
  moves swap item =
  Ok (match sign (comparefn item swap) with Some Lt => true | _ => false end).

Lemma descending_cons (item swap : A) (rest : list A) :
  item ∈ S → Forall (λ x, x ∈ S) (swap :: rest) →
  descending comparefn (swap :: rest) → ¬ gt_cf comparefn swap item →
  descending comparefn (item :: swap :: rest).
Proof.
  intros Hi Hin Hd Hle. constructor; [exact Hd|].
  inversion Hin as [|? ? Hs Hrest]; subst.
  apply StronglySorted_inv in Hd as [_ Hall].
  constructor; [exact Hle|].
  rewrite Forall_forall in Hall, Hrest. apply Forall_forall. intros x Hx.
  apply (not_gt_trans x swap item); [apply Hrest, Hx | exact Hs | exact Hi | | exact Hle].
  apply Hall, Hx.
Qed.

Lemma insert_item_descending (item : A) (placed r : list A) :
  item ∈ S → Forall (λ x, x ∈ S) placed → descending comparefn placed →
  insert_item moves item placed = Ok r →
  descending comparefn r ∧ Forall (λ x, x ∈ S) r ∧
  (∀ x, x ∈ r → x = item ∨ x ∈ placed) ∧
  ∀ a, a ∈ S →
    List.filter (eq_cfb comparefn a) r =
    List.filter (eq_cfb comparefn a) (item :: placed).
Proof.
  intros Hi. revert r.
  induction placed as [|swap rest IH]; intros r Hin Hd.
  - intros [= <-]. split; [repeat constructor|].
    split; [repeat constructor; exact Hi|].
    split; [|reflexivity].
    intros x Hx. apply list_elem_of_singleton in Hx. tauto.
  - assert (Hstay : sign (comparefn item swap) ≠ Some Lt →
              descending comparefn (item :: swap :: rest) ∧
              Forall (λ x, x ∈ S) (item :: swap :: rest) ∧
              (∀ x, x ∈ item :: swap :: rest → x = item ∨ x ∈ swap :: rest) ∧
              ∀ a, a ∈ S →
                List.filter (eq_cfb comparefn a) (item :: swap :: rest) =
                List.filter (eq_cfb comparefn a) (item :: swap :: rest)).
    { intros Hnot. inversion Hin as [|? ? Hs Hrest]; subst.
      split; [|split; [constructor; assumption|split; [|reflexivity]]].
      - apply descending_cons; try assumption.
        intros Hgt. apply (gt_lt swap item Hs Hi) in Hgt. exact (Hnot Hgt).
      - intros x Hx. apply elem_of_cons in Hx. exact Hx. }
    inversion Hin as [|? ? Hs Hrest]; subst.
    pose proof Hd as Hd0.
    apply StronglySorted_inv in Hd as [Hd Hall].
    cbn [insert_item]. rewrite (Hmoves swap item Hs Hi).
    destruct (sign (comparefn item swap)) as [[]|] eqn:Hsign.
    + intros [= <-]. apply Hstay. discriminate.
    + (* less: [swap] moves to the right, the item goes on *)
      destruct (insert_item moves item rest) as [r'|e] eqn:Hins;
        [|discriminate].
      cbn [obind]. intros [= <-].
      destruct (IH r' Hrest Hd eq_refl) as (Hd' & Hin' & Hfrom & Hf).
      split; [|split; [constructor; assumption|split]].
      * constructor; [exact Hd'|].
        apply Forall_forall. intros x Hx.
        destruct (Hfrom x Hx) as [-> | Hx'].
        -- unfold gt_cf. congruence.
        -- rewrite Forall_forall in Hall. apply Hall, Hx'.
      * intros x Hx. apply elem_of_cons in Hx as [-> | Hx].
        -- right. left.
        -- destruct (Hfrom x Hx) as [-> | Hx']; [tauto|]. right. right. exact Hx'.
      * intros a Ha. cbn [List.filter]. rewrite (Hf a Ha). cbn [List.filter].
        destruct (eq_cfb comparefn a item) eqn:Hai; [|reflexivity].
        rewrite (eq_cfb_lt a item swap Ha Hi Hs Hai Hsign). reflexivity.
    + intros [= <-]. apply Hstay. discriminate.
    + intros [= <-]. exfalso.
      exact (cf_total _ _ Hc item swap Hi Hs Hsign).
Qed.

Lemma insert_item_returns (item : A) (placed : list A) :
  item ∈ S → Forall (λ x, x ∈ S) placed →
  ∃ r, insert_item moves item placed = Ok r.
Proof.
  intros Hi. induction 1 as [|swap rest Hs _ IH]; [eexists; reflexivity|].
  cbn [insert_item]. rewrite (Hmoves swap item Hs Hi).
  destruct (sign (comparefn item swap)) as [[]|]; try (eexists; reflexivity).
  destruct IH as [r ->]. eexists. reflexivity.
Qed.

Lemma ascending_snoc (l : list A) (x : A) :
  in_order comparefn l → Forall (λ y, ¬ gt_cf comparefn y x) l →
  in_order comparefn (l ++ [x]).
Proof.
  unfold in_order. induction 1 as [|a l Hl IH Ha]; intros Hx.
  - repeat constructor.
  - inversion Hx; subst. cbn [app]. constructor; [apply IH; assumption|].
    apply Forall_app. split; [exact Ha|]. constructor; [assumption|constructor].
Qed.

Lemma descending_rev (l : list A) :
  descending comparefn l → in_order comparefn (rev l).
Proof.
  induction 1 as [|a l Hl IH Ha]; [constructor|].
  cbn [rev]. apply ascending_snoc; [exact IH|].
  apply Forall_forall. intros y Hy.
  rewrite list_elem_of_In in Hy. apply in_rev in Hy.
  rewrite <- list_elem_of_In in Hy.
  rewrite Forall_forall in Ha. apply Ha, Hy.
Qed.

Lemma insert_all_sorted (todo placed r : list A) :
  Forall (λ x, x ∈ S) todo → Forall (λ x, x ∈ S) placed →
  descending comparefn placed →
  insert_all moves placed todo = Ok r →
  in_order comparefn r ∧
  ∀ a, a ∈ S →
    List.filter (eq_cfb comparefn a) r =
    List.filter (eq_cfb comparefn a) (rev placed ++ todo).
Proof.
  intros Htodo. revert placed.
  induction Htodo as [|item todo Hi _ IH]; intros placed Hin Hd.
  - cbn [insert_all]. intros [= <-]. split; [apply descending_rev, Hd|].
    intros a _. rewrite app_nil_r. reflexivity.
  - cbn [insert_all].
    destruct (insert_item moves item placed) as [p|e] eqn:Hins; [|discriminate].
    cbn [obind]. intros Hr.
    destruct (insert_item_descending item placed p Hi Hin Hd Hins)
      as (Hd' & Hin' & _ & Hf).
    destruct (IH p Hin' Hd' Hr) as [Hsorted Hstable].
    split; [exact Hsorted|].
    intros a Ha. rewrite (Hstable a Ha).
    rewrite !List.filter_app, !filter_rev, (Hf a Ha).
    cbn [List.filter]. destruct (eq_cfb comparefn a item); [|reflexivity].
    cbn [rev]. rewrite <- app_assoc. reflexivity.
Qed.

Lemma insert_all_returns (todo placed : list A) :
  Forall (λ x, x ∈ S) todo → Forall (λ x, x ∈ S) placed →
  descending comparefn placed →
  ∃ r, insert_all moves placed todo = Ok r.
Proof.
  intros Htodo. revert placed.
  induction Htodo as [|item todo Hi _ IH]; intros placed Hin Hd;
    [eexists; reflexivity|].
  cbn [insert_all].
  destruct (insert_item_returns item placed Hi Hin) as [p Hp]. rewrite Hp.
  destruct (insert_item_descending item placed p Hi Hin Hd Hp)
    as (Hd' & Hin' & _).
  apply IH; assumption.
Qed.

End Consistent.

(** ** Insertion without any assumption on the comparison function *)

Section Any.
Context {A : Type} (moves : A → A → outcome bool).

Lemma insert_item_permutes (item : A) (placed r : list A) :
  insert_item moves item placed = Ok r → Permutation (item :: placed) r.
Proof.
  revert r. induction placed as [|swap rest IH]; intros r.
  - intros [= <-]. reflexivity.
  - cbn [insert_item]. destruct (moves swap item) as [[|]|e]; [| |discriminate].
    + destruct (insert_item moves item rest) as [r'|e]; [|discriminate].
      cbn [obind]. intros [= <-].
      rewrite perm_swap. apply perm_skip, IH. reflexivity.
    + intros [= <-]. reflexivity.
Qed.

Lemma insert_all_permutes (todo placed r : list A) :
  insert_all moves placed todo = Ok r → Permutation (placed ++ todo) r.
Proof.
  revert placed. induction todo as [|item todo IH]; intros placed.
  - cbn [insert_all]. intros [= <-]. rewrite app_nil_r. apply Permutation_rev.
  - cbn [insert_all].
    destruct (insert_item moves item placed) as [p|e] eqn:Hins; [|discriminate].
    cbn [obind]. intros Hr. rewrite <- (IH p Hr).
    apply insert_item_permutes in Hins. rewrite <- Hins.
    rewrite <- Permutation_middle. reflexivity.
Qed.

(** If [moves] returns on all the values at hand, so does the sort. *)
Section Returns.
Variable S : list A.
Hypothesis Hreturns : ∀ swap item, swap ∈ S → item ∈ S →
  ∃ b, moves swap item = Ok b.

Lemma insert_item_total (item : A) (placed : list A) :
  item ∈ S → Forall (λ x, x ∈ S) placed →
  ∃ r, insert_item moves item placed = Ok r ∧ Forall (λ x, x ∈ S) r.
Proof.
  intros Hi. induction 1 as [|swap rest Hs Hrest IH].
  - eexists. split; [reflexivity|]. repeat constructor. exact Hi.
  - cbn [insert_item]. destruct (Hreturns swap item Hs Hi) as [[|] ->].
    + destruct IH as (r & -> & Hr). eexists. split; [reflexivity|].
      constructor; assumption.
    + eexists. split; [reflexivity|]. repeat constructor; assumption.
Qed.

Lemma insert_all_total (todo placed : list A) :
  Forall (λ x, x ∈ S) todo → Forall (λ x, x ∈ S) placed →
  ∃ r, insert_all moves placed todo = Ok r.
Proof.
  intros Htodo. revert placed.
  induction Htodo as [|item todo Hi _ IH]; intros placed Hin;
    [eexists; reflexivity|].
  cbn [insert_all].
  destruct (insert_item_total item placed Hi Hin) as (p & -> & Hp).
  apply IH, Hp.
Qed.

End Returns.
End Any.

(** ** The two hosts conform *)

Lemma all_in_itself {A} (l : list A) : Forall (λ x, x ∈ l) l.
Proof. apply Forall_forall. auto. Qed.

Lemma moves_left_first_returns {A} (cmp : A → A → cmp_result) (l : list A) :
  (∀ a b, a ∈ l → b ∈ l → sign (cmp a b) ≠ None) →
  ∀ swap item, swap ∈ l → item ∈ l →
  ∃ b, moves_left_first cmp swap item = Ok b.
Proof.
  intros Ht swap item Hs Hi. specialize (Ht swap item Hs Hi).
  unfold moves_left_first. destruct (cmp swap item); cbn [sign] in Ht;
    [eexists; reflexivity..|congruence].
Qed.

Lemma moves_item_first_returns {A} (cmp : A → A → cmp_result) (l : list A) :
  (∀ a b, a ∈ l → b ∈ l → sign (cmp a b) ≠ None) →
  ∀ swap item, swap ∈ l → item ∈ l →
  ∃ b, moves_item_first cmp swap item = Ok b.
Proof.
  intros Ht swap item Hs Hi. specialize (Ht item swap Hi Hs).
  unfold moves_item_first. destruct (cmp item swap); cbn [sign] in Ht;
    [eexists; reflexivity..|congruence].
Qed.

Lemma moves_left_first_lt {A} (cmp : A → A → cmp_result) (l : list A) :
  consistent cmp l →
  ∀ swap item, swap ∈ l → item ∈ l →
  moves_left_first cmp swap item =
  Ok (match sign (cmp item swap) with Some Lt => true | _ => false end).
Proof.
  intros Hc swap item Hs Hi.
  destruct (three_ways cmp l Hc swap item Hs Hi) as [H | [H | H]].
  - pose proof (lt_gt cmp l Hc swap item Hs Hi H) as H'.
    unfold lt_cf, gt_cf, moves_left_first in *. rewrite H'.
    destruct (cmp swap item) as [z| |]; cbn [sign] in H; try discriminate.
    injection H as H. pose proof (proj1 (Z.compare_lt_iff z 0) H) as Hz.
    destruct (Z.ltb_spec 0 z); [lia | reflexivity].
  - pose proof (cf_sym _ _ Hc swap item Hs Hi H) as H'.
    unfold eq_cf, moves_left_first in *. rewrite H'.
    destruct (cmp swap item) as [z| |]; cbn [sign] in H; try discriminate;
      [|reflexivity].
    injection H as H. apply Z.compare_eq_iff in H. subst z. reflexivity.
  - pose proof (gt_lt cmp l Hc swap item Hs Hi H) as H'.
    unfold lt_cf, gt_cf, moves_left_first in *. rewrite H'.
    destruct (cmp swap item) as [z| |]; cbn [sign] in H; try discriminate.
    injection H as H. pose proof (proj1 (Z.compare_gt_iff z 0) H) as Hz.
    destruct (Z.ltb_spec 0 z); [reflexivity | lia].
Qed.

Lemma moves_item_first_lt {A} (cmp : A → A → cmp_result) (l : list A) :
  consistent cmp l →
  ∀ swap item, swap ∈ l → item ∈ l →
  moves_item_first cmp swap item =
  Ok (match sign (cmp item swap) with Some Lt => true | _ => false end).
Proof.
  intros Hc swap item Hs Hi.
  pose proof (cf_total _ _ Hc item swap Hi Hs) as Ht.
  unfold moves_item_first.
  destruct (cmp item swap) as [z| |]; cbn [sign] in *; [|reflexivity|congruence].
  unfold Z.ltb. destruct (z ?= 0)%Z; reflexivity.
Qed.

#[global] Instance left_first_conforms : SortConforms host_left_first.
Proof.
  split; intros A cmp l.
  - intros l'. apply (insert_all_permutes _ l []).
  - intros Ht.
    apply (insert_all_total _ l (moves_left_first_returns cmp l Ht) l []);
      [apply all_in_itself | constructor].
  - intros l' Hc Hs.
    apply (insert_all_sorted cmp l Hc _ (moves_left_first_lt cmp l Hc) l [] l');
      [apply all_in_itself | constructor | constructor | exact Hs].
  - intros l' Hc Hs a Ha.
    apply (insert_all_sorted cmp l Hc _ (moves_left_first_lt cmp l Hc) l [] l');
      [apply all_in_itself | constructor | constructor | exact Hs | exact Ha].
Qed.

#[global] Instance item_first_conforms : SortConforms host_item_first.
Proof.
  split; intros A cmp l.
  - intros l'. apply (insert_all_permutes _ l []).
  - intros Ht.
    apply (insert_all_total _ l (moves_item_first_returns cmp l Ht) l []);
      [apply all_in_itself | constructor].
  - intros l' Hc Hs.
    apply (insert_all_sorted cmp l Hc _ (moves_item_first_lt cmp l Hc) l [] l');
      [apply all_in_itself | constructor | constructor | exact Hs].
  - intros l' Hc Hs a Ha.
    apply (insert_all_sorted cmp l Hc _ (moves_item_first_lt cmp l Hc) l [] l');
      [apply all_in_itself | constructor | constructor | exact Hs | exact Ha].
Qed.

End Sorting.

(* ================================================================== *)
(** * [getFiltered] *)
(* ================================================================== *)

Module Filtering.
Import TaskManager Spec.






Lemma computes_filters (m0 m : Mem.state) (r : outcome nat)
    (expected : outcome (list obj)) :
  computes m0 m r expected → Mem.this_filters m = Mem.this_filters m0.
Proof. intros [Hu _]. apply Hu. Qed.

Section WithHost.
Context {host : Host}.






Lemma sortTasks_comparison (ts : list obj) (sortBy : val) :
  sortTasks ts sortBy =
  match comparison_of sortBy with
  | Some cmp => Array_sort cmp ts
  | None => Ok ts
  end.
Proof.
  unfold sortTasks, comparison_of.
  repeat (match goal with |- context [if ?b then _ else _] => destruct b end;
          [reflexivity|]).
  reflexivity.
Qed.


(** ** C7 *)


End WithHost.


Example getFiltered_newest_first :
  let ts := [ task "a" "Essay" "pending" VNull;
              <["createdAt" := VStr "2024-02-25T08:00:00.000Z"]>
                (task "b" "Run" "pending" VNull);
              <["createdAt" := VStr "2024-02-22T08:00:00.000Z"]>
                (task "c" "Call" "pending" VNull) ] in
  ids_of (fst (getFiltered (host:=host_left_first) (state_with ts None)))
    = Ok [VStr "b"; VStr "c"; VStr "a"] ∧
  ids_of (fst (getFiltered (host:=host_item_first) (state_with ts None)))
    = Ok [VStr "b"; VStr "c"; VStr "a"].
Proof. vm_compute. split; reflexivity. Qed.

End Filtering.

(* ================================================================== *)
(** * Sorting by deadline *)
(* ================================================================== *)

Module DeadlineOrder.
Import TaskManager Spec.

Section WithHost.
Context {host : Host}.

(** A task without deadline is "greater" than whatever it is compared
    with, another task without deadline and itself included. *)
Lemma compare_deadline_absent (a b : obj) :
  truthy (prop a "deadline") = false → compare_deadline a b = CNum 1.
Proof. intros Ha. unfold compare_deadline. rewrite Ha. reflexivity. Qed.

(** So the comparison function is not consistent on any collection that
    holds a task without deadline, and the language specification leaves
    the order that [sort] produces to the implementation. *)
Lemma compare_deadline_inconsistent (l : list obj) (a : obj) :
  a ∈ l → truthy (prop a "deadline") = false →
  ¬ consistent compare_deadline l.
Proof.
  intros Ha Hd Hc. pose proof (cf_refl _ _ Hc a Ha) as Hr.
  unfold eq_cf in Hr. rewrite (compare_deadline_absent a a Hd) in Hr.
  discriminate Hr.
Qed.

Lemma compare_deadline_dated (a b : obj) (da db : Z) :
  dated a da → dated b db → compare_deadline a b = CNum (da - db).
Proof.
  intros [Ta Da] [Tb Db]. unfold compare_deadline.
  rewrite Ta, Tb, Da, Db. reflexivity.
Qed.

(** Where every task has a deadline that is a date, the comparison
    function is consistent. *)
Lemma compare_deadline_consistent (l : list obj) :
  Forall (λ t, ∃ d, dated t d) l → consistent compare_deadline l.
Proof.
  intros Hall. rewrite Forall_forall in Hall.
  assert (Hsign : ∀ a b, a ∈ l → b ∈ l → ∃ da db,
            dated a da ∧ dated b db ∧
            sign (compare_deadline a b) = Some (da - db ?= 0)%Z).
  { intros a b Ha Hb. destruct (Hall a Ha) as [da Hda].
    destruct (Hall b Hb) as [db Hdb]. exists da, db.
    rewrite (compare_deadline_dated a b da db Hda Hdb). auto. }
  assert (Hsame : ∀ t d d', dated t d → dated t d' → d = d').
  { intros t d d' [_ H1] [_ H2]. congruence. }
  split.
  - intros a b Ha Hb. destruct (Hsign a b Ha Hb) as (da & db & _ & _ & ->).
    discriminate.
  - intros a Ha. destruct (Hsign a a Ha Ha) as (da & da' & H1 & H2 & E).
    unfold eq_cf. rewrite E, (Hsame a da da' H1 H2), Z.sub_diag. reflexivity.
  - intros a b Ha Hb. unfold eq_cf.
    destruct (Hsign a b Ha Hb) as (da & db & H1 & H2 & ->).
    destruct (Hsign b a Hb Ha) as (db' & da' & H3 & H4 & ->).
    rewrite (Hsame a da' da H4 H1), (Hsame b db' db H3 H2).
    intros [= E]. apply Z.compare_eq_iff in E.
    f_equal. apply Z.compare_eq_iff. lia.
  - intros a b c Ha Hb Hc'. unfold eq_cf.
    destruct (Hsign a b Ha Hb) as (da & db & H1 & H2 & ->).
    destruct (Hsign b c Hb Hc') as (db' & dc & H3 & H4 & ->).
    destruct (Hsign a c Ha Hc') as (da' & dc' & H5 & H6 & ->).
    rewrite (Hsame b db' db H3 H2), (Hsame a da' da H5 H1),
            (Hsame c dc' dc H6 H4).
    intros [= E1] [= E2]. apply Z.compare_eq_iff in E1, E2.
    f_equal. apply Z.compare_eq_iff. lia.
  - intros a b c Ha Hb Hc'. unfold lt_cf.
    destruct (Hsign a b Ha Hb) as (da & db & H1 & H2 & ->).
    destruct (Hsign b c Hb Hc') as (db' & dc & H3 & H4 & ->).
    destruct (Hsign a c Ha Hc') as (da' & dc' & H5 & H6 & ->).
    rewrite (Hsame b db' db H3 H2), (Hsame a da' da H5 H1),
            (Hsame c dc' dc H6 H4).
    intros [= E1] [= E2].
    pose proof (proj1 (Z.compare_lt_iff _ _) E1).
    pose proof (proj1 (Z.compare_lt_iff _ _) E2).
    f_equal. apply Z.compare_lt_iff. lia.
  - intros a b c Ha Hb Hc'. unfold gt_cf.
    destruct (Hsign a b Ha Hb) as (da & db & H1 & H2 & ->).
    destruct (Hsign b c Hb Hc') as (db' & dc & H3 & H4 & ->).
    destruct (Hsign a c Ha Hc') as (da' & dc' & H5 & H6 & ->).
    rewrite (Hsame b db' db H3 H2), (Hsame a da' da H5 H1),
            (Hsame c dc' dc H6 H4).
    intros [= E1] [= E2].
    pose proof (proj1 (Z.compare_gt_iff _ _) E1).
    pose proof (proj1 (Z.compare_gt_iff _ _) E2).
    f_equal. apply Z.compare_gt_iff. lia.
Qed.

(** On such a collection every conforming [sort] gives the order of the
    specification: ascending by date, equal dates in their old order. *)
Lemma sort_by_deadline_dated `{!SortConforms host} (l : list obj) :
  Forall (λ t, ∃ d, dated t d) l →
  ∃ r, sortTasks l (VStr "deadline") = Ok r ∧
       Permutation l r ∧
       in_order compare_deadline r ∧
       stable compare_deadline l r.
Proof.
  intros Hall. pose proof (compare_deadline_consistent l Hall) as Hc.
  change (sortTasks l (VStr "deadline")) with (Array_sort compare_deadline l).
  destruct (sort_returns _ compare_deadline l (cf_total _ _ Hc)) as [r Hr].
  exists r. split; [exact Hr|].
  split; [eapply sort_permutes; exact Hr|].
  split; [eapply sort_in_order | eapply sort_stable]; eassumption.
Qed.

End WithHost.

(** ** C4 *)

(** C4, evaluated where it fails.  For two tasks [a], [b] without deadline
    the comparison function answers "[a] after [b]" and "[b] after [a]";
    it reports no tie, so the order of the two does not come from their
    old order but from the way the host's [sort] asks.  Of two sorts that
    both conform to the language specification, one returns [b; a] and the
    other [a; b]; with a dated task [c] in between, both put [c] first. *)
Theorem deadline_ties_depend_on_host :
  let a := undated "a" "Essay" in
  let b := undated "b" "Run" in
  let c := task "c" "Call" "pending" VNull in
  compare_deadline (host:=host_left_first) a b = CNum 1 ∧
  compare_deadline (host:=host_left_first) b a = CNum 1 ∧
  ids_of (sortTasks (host:=host_left_first) [a; b] (VStr "deadline"))
    = Ok [VStr "b"; VStr "a"] ∧
  ids_of (sortTasks (host:=host_item_first) [a; b] (VStr "deadline"))
    = Ok [VStr "a"; VStr "b"] ∧
  ids_of (sortTasks (host:=host_left_first) [a; c; b] (VStr "deadline"))
    = Ok [VStr "c"; VStr "b"; VStr "a"] ∧
  ids_of (sortTasks (host:=host_item_first) [a; c; b] (VStr "deadline"))
    = Ok [VStr "c"; VStr "a"; VStr "b"] ∧
  SortConforms host_left_first ∧ SortConforms host_item_first.
Proof.
  split; [vm_compute; reflexivity|]. split; [vm_compute; reflexivity|].
  split; [vm_compute; reflexivity|]. split; [vm_compute; reflexivity|].
  split; [vm_compute; reflexivity|]. split; [vm_compute; reflexivity|].
  split; [exact Sorting.left_first_conforms | exact Sorting.item_first_conforms].
Qed.

(** Dated tasks come out the same on both hosts: by date, and the two
    tasks due on the same day in their old order. *)
Example sort_by_deadline_example :
  let due (id day : string) : obj :=
    <["deadline" := VStr day]> (task id "Essay" "pending" VNull) in
  let ts := [ due "a" "2024-03-09"; due "b" "2024-03-01";
              due "c" "2024-03-09"; due "d" "2024-02-29" ] in
  ids_of (sortTasks (host:=host_left_first) ts (VStr "deadline"))
    = Ok [VStr "d"; VStr "b"; VStr "a"; VStr "c"] ∧
  ids_of (sortTasks (host:=host_item_first) ts (VStr "deadline"))
    = Ok [VStr "d"; VStr "b"; VStr "a"; VStr "c"].
Proof. vm_compute. split; reflexivity. Qed.

End DeadlineOrder.

(* ================================================================== *)
(** * Looking up, deleting and clearing *)
(* ================================================================== *)

Module Repository.
Import TaskManager Spec.

(** ** Lists *)

Lemma filter_out_length {A} (p : A → bool) (l : list A) :
  (length (List.filter (λ x, negb (p x)) l) + length (List.filter p l)
   = length l)%nat.
Proof.
  induction l as [|x l IH]; [reflexivity|].
  cbn [List.filter]. destruct (p x); cbn [negb length]; lia.
Qed.

Lemma filter_none {A} (p : A → bool) (l : list A) :
  existsb p l = false → List.filter (λ x, negb (p x)) l = l.
Proof.
  induction l as [|x l IH]; [reflexivity|].
  cbn [existsb List.filter]. destruct (p x); [discriminate|].
  intros H. cbn [negb]. rewrite IH by exact H. reflexivity.
Qed.

Lemma kept_length {A} (p : A → bool) (l : list A) :
  (length (List.filter p l) =? 0)%nat = negb (existsb p l).
Proof.
  induction l as [|x l IH]; [reflexivity|].
  cbn [existsb List.filter]. destruct (p x); [reflexivity | exact IH].
Qed.

Lemma shorter_when_found {A} (p : A → bool) (l : list A) :
  (length (List.filter (λ x, negb (p x)) l) <? length l)%nat = existsb p l.
Proof.
  pose proof (filter_out_length p l) as Hlen.
  pose proof (kept_length p l) as Hkept.
  destruct (existsb p l); cbn [negb] in Hkept.
  - apply Nat.eqb_neq in Hkept. apply Nat.ltb_lt. lia.
  - apply Nat.eqb_eq in Hkept. apply Nat.ltb_ge. lia.
Qed.

Lemma find_filtered_out {A} (p : A → bool) (l : list A) :
  List.find p (List.filter (λ x, negb (p x)) l) = None.
Proof.
  induction l as [|x l IH]; [reflexivity|].
  cbn [List.filter]. destruct (p x) eqn:E; cbn [negb]; [exact IH|].
  cbn [List.find]. rewrite E. exact IH.
Qed.

Lemma filter_twice {A} (p : A → bool) (l : list A) :
  List.filter p (List.filter p l) = List.filter p l.
Proof.
  induction l as [|x l IH]; [reflexivity|].
  cbn [List.filter]. destruct (p x) eqn:E; [|exact IH].
  cbn [List.filter]. rewrite E, IH. reflexivity.
Qed.

Lemma filter_nothing_left {A} (p : A → bool) (l : list A) :
  List.filter p (List.filter (λ x, negb (p x)) l) = [].
Proof.
  induction l as [|x l IH]; [reflexivity|].
  cbn [List.filter]. destruct (p x) eqn:E; cbn [negb]; [exact IH|].
  cbn [List.filter]. rewrite E. exact IH.
Qed.

Lemma findIndex_None {A} (p : A → bool) (l : list A) :
  findIndex p l = None ↔ existsb p l = false.
Proof.
  induction l as [|x l IH]; [split; reflexivity|].
  cbn [findIndex existsb]. destruct (p x); [split; discriminate|].
  cbn [orb]. rewrite <- IH. destruct (findIndex p l); split;
    (reflexivity || discriminate).
Qed.

Lemma find_app_last {A} (p : A → bool) (l : list A) (x : A) :
  existsb p l = false → p x = true → List.find p (l ++ [x]) = Some x.
Proof.
  intros Hl Hx. induction l as [|y l IH]; cbn [app List.find].
  - rewrite Hx. reflexivity.
  - cbn [existsb] in Hl. destruct (p y); [discriminate|]. apply IH, Hl.
Qed.

Lemma find_inserted {A} (p : A → bool) (l : list A) (i : nat) (x : A) :
  findIndex p l = Some i → p x = true → List.find p (<[i := x]> l) = Some x.
Proof.
  revert i. induction l as [|y l IH]; intros i; [discriminate|].
  cbn [findIndex]. destruct (p y) eqn:Hy.
  - intros [= <-] Hx. cbn. rewrite Hx. reflexivity.
  - destruct (findIndex p l) as [j|]; [|discriminate].
    intros [= <-] Hx. cbn. rewrite Hy. apply (IH j eq_refl Hx).
Qed.

Lemma filter_filter {A} (p q : A → bool) (l : list A) :
  List.filter q (List.filter p l) = List.filter (λ x, p x && q x) l.
Proof.
  induction l as [|x l IH]; [reflexivity|].
  cbn [List.filter]. destruct (p x); cbn [andb List.filter];
    [destruct (q x)|]; rewrite IH; reflexivity.
Qed.

Lemma filter_ext_bool {A} (p q : A → bool) (l : list A) :
  (∀ x, p x = q x) → List.filter p l = List.filter q l.
Proof.
  intros E. induction l as [|x l IH]; [reflexivity|].
  cbn [List.filter]. rewrite E, IH. reflexivity.
Qed.

Lemma existsb_Forall {A} (p : A → bool) (l : list A) :
  existsb p l = false ↔ Forall (λ x, p x = false) l.
Proof.
  induction l as [|x l IH]; [split; [constructor | reflexivity]|].
  cbn [existsb]. rewrite Forall_cons, <- IH. destruct (p x); cbn [orb].
  - split; [discriminate | intros [? _]; discriminate].
  - split; [intros H; split; [reflexivity | exact H] | intros [_ H]; exact H].
Qed.

Lemma returned_Ok {A} (o : outcome A) : returned o = true → ∃ a, o = Ok a.
Proof. destruct o as [a|e]; [exists a; reflexivity | discriminate]. Qed.

Lemma returned_task_Ok {A B} (o : outcome (option A * B)) :
  returned_task o = true → ∃ a b, o = Ok (Some a, b).
Proof.
  destruct o as [[[a|] b]|e]; try discriminate. exists a, b. reflexivity.
Qed.

Lemma state_eta (s : state) :
  {| tasks := tasks s; filters := filters s; storage := storage s;
     world := world s |} = s.
Proof. destruct s; reflexivity. Qed.

Section WithHost.
Context {host : Host}.

(** ** [delete] *)

(** X1. [delete] removes every task that has the id and no other, and tells
    whether there was one.  When there was none, nothing at all has
    changed, and nothing is written.  When there was one, the new
    collection is written once: if [localStorage] accepts the write, the
    saved collection is the new collection (as JSON renders it); if it
    refuses, the saved collection stays what it was, and [delete] returns
    true all the same.  The stats record is not touched.  Afterwards
    [getById] finds nothing under the id. *)
Theorem delete_removes (id : val) (s : state) :
  let found := existsb (λ t, strict_eq (prop t "id") id) (tasks s) in
  let s1 := snd (delete id s) in
  fst (delete id s) = Ok found ∧
  tasks s1 = List.filter (λ t, negb (strict_eq (prop t "id") id)) (tasks s) ∧
  (found = false → s1 = s) ∧
  (found = true →
     Storage.setItem_calls (storage s1) = S (Storage.setItem_calls (storage s)) ∧
     (Storage.accepted (storage s) = true →
      Storage.getTasks (storage s1) = JSON_roundtrip <$> tasks s1) ∧
     (Storage.accepted (storage s) = false →
      Storage.getTasks (storage s1) = Storage.getTasks (storage s))) ∧
  Storage.stored_stats (storage s1) = Storage.stored_stats (storage s) ∧
  fst (getById id s1) = Ok None.
Proof.
  cbv zeta. unfold delete, getById.
  cbv [bind get_tasks set_tasks save get_storage set_storage ret].
  cbn [tasks filters storage world].
  rewrite (shorter_when_found (λ t, strict_eq (prop t "id") id) (tasks s)).
  destruct (existsb _ (tasks s)) eqn:Hfound; cbn [fst snd tasks storage].
  - split; [reflexivity|]. split; [reflexivity|]. split; [discriminate|].
    split.
    { intros _. split; [reflexivity|]. split.
      - apply Writes.getTasks_saveTasks.
      - apply Writes.getTasks_saveTasks_refused. }
    split; [reflexivity|].
    rewrite find_filtered_out. reflexivity.
  - split; [reflexivity|]. split; [reflexivity|]. split.
    + intros _. rewrite (filter_none _ _ Hfound). apply state_eta.
    + split; [discriminate|]. split; [reflexivity|].
      rewrite find_filtered_out. reflexivity.
Qed.

(** ** [clearCompleted] *)

(** X2. [clearCompleted] returns the number of completed tasks, which is the
    number of tasks it removes; no completed task is left, and the other
    tasks stay in their order.  The result is written once, also when
    nothing was removed: if [localStorage] accepts the write, the saved
    collection is the new collection (as JSON renders it); if it refuses,
    the saved collection stays what it was.  Clearing once more finds
    nothing to remove. *)
Theorem clearCompleted_count (s : state) :
  let completed t := strict_eq (prop t "status") (VStr "completed") in
  let s1 := snd (clearCompleted s) in
  fst (clearCompleted s) = Ok (length (List.filter completed (tasks s))) ∧
  tasks s1 = List.filter (λ t, negb (completed t)) (tasks s) ∧
  (length (tasks s1) + length (List.filter completed (tasks s))
   = length (tasks s))%nat ∧
  List.filter completed (tasks s1) = [] ∧
  Storage.setItem_calls (storage s1) = S (Storage.setItem_calls (storage s)) ∧
  (Storage.accepted (storage s) = true →
   Storage.getTasks (storage s1) = JSON_roundtrip <$> tasks s1) ∧
  (Storage.accepted (storage s) = false →
   Storage.getTasks (storage s1) = Storage.getTasks (storage s)) ∧
  fst (clearCompleted s1) = Ok O ∧
  tasks (snd (clearCompleted s1)) = tasks s1.
Proof.
  cbv zeta. unfold clearCompleted.
  cbv [bind get_tasks set_tasks save get_storage set_storage ret].
  cbn [fst snd tasks filters storage world].
  split; [reflexivity|]. split; [reflexivity|].
  split; [apply filter_out_length|].
  split; [apply filter_nothing_left|].
  split; [reflexivity|].
  split; [apply Writes.getTasks_saveTasks|].
  split; [apply Writes.getTasks_saveTasks_refused|].
  rewrite filter_nothing_left, filter_twice. split; reflexivity.
Qed.

(** ** [update] and [getById] on an id *)

(** X3. [update] answers [null] exactly when no task has the id, and then it
    has changed nothing, not even the patch. *)
Theorem update_null_iff_unknown (id : val) (updates : obj) (s : state) :
  let known := existsb (λ t, strict_eq (prop t "id") id) (tasks s) in
  (known = false → update id updates s = (Ok (None, updates), s)) ∧
  (known = true → ∀ u, fst (update id updates s) ≠ Ok (None, u)) ∧
  fst (getById id s) =
    Ok (List.find (λ t, strict_eq (prop t "id") id) (tasks s)) ∧
  (known = false → fst (getById id s) = Ok None).
Proof.
  cbv zeta. pose proof (Operations.update_run id updates s) as Hrun.
  pose proof (findIndex_None (λ t, strict_eq (prop t "id") id) (tasks s)) as Hnone.
  split; [|split; [|split; [reflexivity|]]].
  - intros Hknown. apply Hnone in Hknown. rewrite Hknown in Hrun. exact Hrun.
  - intros Hknown u.
    destruct (findIndex _ (tasks s)) as [index|].
    + destruct Hrun as (old & s1 & _ & _ & [(e & -> & _) | Hok]).
      * discriminate.
      * cbv zeta in Hok. destruct Hok as [-> _]. discriminate.
    + rewrite (proj1 Hnone eq_refl) in Hknown. discriminate.
  - intros Hknown. unfold getById. cbv [bind get_tasks ret]. cbn [fst].
    f_equal. clear Hrun Hnone.
    induction (tasks s) as [|t ts IH]; [reflexivity|].
    cbn [existsb List.find] in *.
    destruct (strict_eq (prop t "id") id); [discriminate|]. apply IH, Hknown.
Qed.

(** ** [create] and [getById] *)

(** X4. A task that [create] returns is found again by [getById] under its
    id, as long as the id that the clock and the random source produce is
    not the id of a task already there ([getById] answers with the first
    task that has the id). *)
Theorem create_then_getById (taskData : obj) (s : state) :
  let id := VStr (string_of_Z (clock (world s) (clock_reads (world s)))
                  +:+ "-" +:+ random (world s) (random_draws (world s))) in
  Forall (λ old, prop old "id" ≠ id) (tasks s) →
  ∀ t, fst (create taskData s) = Ok t →
  prop t "id" = id ∧
  fst (getById id (snd (create taskData s))) = Ok (Some t).
Proof.
  cbv zeta. intros Hfresh t.
  assert (Hnone : existsb (λ old, strict_eq (prop old "id")
             (VStr (string_of_Z (clock (world s) (clock_reads (world s)))
                    +:+ "-" +:+ random (world s) (random_draws (world s)))))
             (tasks s) = false).
  { apply existsb_Forall. eapply Forall_impl; [exact Hfresh|].
    intros old Hold. cbv beta in *. apply bool_decide_eq_false. exact Hold. }
  unfold create, getById.
  cbv [bind generateId new_Date Math_random_chars ret]. unfold trim.
  destruct (prop taskData "title") as [| | b | n | title]; try discriminate.
  cbv [ret].
  destruct (or_else (prop taskData "description") (VStr ""))
    as [| | b | n | description]; try discriminate.
  cbv [now_iso bind new_Date ret get_tasks set_tasks save get_storage
       set_storage].
  rewrite StreakUpdate.updateStats_run.
  cbn [fst snd tasks filters storage world clock clock_reads random
       random_draws].
  intros [= <-]. split; [apply Migration.prop_insert_eq|].
  f_equal. apply find_app_last; [exact Hnone|].
  apply bool_decide_eq_true. apply Migration.prop_insert_eq.
Qed.

(** ** [update] and [getById] *)

(** X5. After an update whose patch does not name [id], [getById] under the
    same id returns the task that [update] returned. *)
Theorem update_then_getById (id : val) (updates : obj) (s : state) :
  updates !! "id" = None →
  ∀ t u, fst (update id updates s) = Ok (Some t, u) →
  prop t "id" = id ∧
  fst (getById id (snd (update id updates s))) = Ok (Some t).
Proof.
  intros Hid t u. pose proof (Operations.update_run id updates s) as Hrun.
  destruct (findIndex _ (tasks s)) as [index|] eqn:Hfind.
  2:{ rewrite Hrun. discriminate. }
  destruct (Operations.findIndex_Some _ _ _ Hfind) as (old' & Hold' & Hp).
  destruct Hrun as (old & s1 & Hold & _ & [(e & -> & _) | Hok]);
    [discriminate|].
  cbv zeta in Hok. destruct Hok as [-> T1]. cbn [fst snd].
  intros [= <- <-].
  assert (old' = old) as -> by congruence.
  assert (Hsame : prop (spread old (patched old updates
            (VStr (toISOString (clock (world s) (clock_reads (world s)))))))
            "id" = id).
  { rewrite Operations.prop_spread, Operations.patched_lookup by discriminate.
    rewrite Hid. apply bool_decide_eq_true in Hp. exact Hp. }
  split; [exact Hsame|].
  unfold getById. cbv [bind get_tasks ret]. cbn [fst]. rewrite T1. f_equal.
  apply find_inserted; [exact Hfind|].
  apply bool_decide_eq_true. exact Hsame.
Qed.

End WithHost.

(** A second task is created beside one that is there. *)
Lemma create_then_getById_witness :
  let s := state_with [task "t1" "Essay" "pending" VNull] None in
  let taskData := <["title" := VStr " Run "]> ∅ in
  ∃ t, fst (create (host:=host_left_first) taskData s) = Ok t ∧
       prop t "id" = VStr "1709210096789-k3j2h1g00" ∧
       fst (getById (VStr "1709210096789-k3j2h1g00")
              (snd (create (host:=host_left_first) taskData s))) = Ok (Some t).
Proof.
  cbv zeta.
  destruct (returned_Ok
    (fst (create (host:=host_left_first) (<["title" := VStr " Run "]> ∅)
            (state_with [task "t1" "Essay" "pending" VNull] None))))
    as [t E]; [vm_compute; reflexivity|].
  exists t. split; [exact E|].
  apply (create_then_getById (host:=host_left_first)
           (<["title" := VStr " Run "]> ∅)
           (state_with [task "t1" "Essay" "pending" VNull] None)).
  - repeat constructor. vm_compute. discriminate.
  - exact E.
Defined.

(** A task is renamed. *)
Lemma update_then_getById_witness :
  let s := state_with [task "t1" "Essay" "pending" VNull;
                       task "t2" "Run" "pending" VNull] None in
  let patch := <["title" := VStr "Run 5k"]> ∅ in
  ∃ t u, fst (update (host:=host_left_first) (VStr "t2") patch s) = Ok (Some t, u) ∧
         prop t "id" = VStr "t2" ∧
         fst (getById (VStr "t2")
                (snd (update (host:=host_left_first) (VStr "t2") patch s)))
           = Ok (Some t).
Proof.
  cbv zeta.
  destruct (returned_task_Ok
    (fst (update (host:=host_left_first) (VStr "t2")
            (<["title" := VStr "Run 5k"]> ∅)
            (state_with [task "t1" "Essay" "pending" VNull;
                         task "t2" "Run" "pending" VNull] None))))
    as (t & u & E); [vm_compute; reflexivity|].
  exists t, u. split; [exact E|].
  refine (update_then_getById (host:=host_left_first) (VStr "t2")
            (<["title" := VStr "Run 5k"]> ∅)
            (state_with [task "t1" "Essay" "pending" VNull;
                         task "t2" "Run" "pending" VNull] None) _ t u E).
  vm_compute. reflexivity.
Defined.

End Repository.

(* ================================================================== *)
(** * The bulk operations *)
(* ================================================================== *)

Module Bulk.
Import TaskManager Spec.

Lemma filter_same_length {A} (p : A → bool) (l : list A) :
  length (List.filter p l) = length l → List.filter p l = l.
Proof.
  induction l as [|x l IH]; [reflexivity|].
  cbn [List.filter]. destruct (p x); cbn [length].
  - intros [= H]. rewrite IH by exact H. reflexivity.
  - intros H. pose proof (List.filter_length_le p l). lia.
Qed.

(** [findIndex] and [existsb] under a test on the id look at the ids
    only. *)
Lemma findIndex_ids (id : val) (l l' : list obj) :
  (λ t, prop t "id") <$> l = (λ t, prop t "id") <$> l' →
  findIndex (λ t, strict_eq (prop t "id") id) l
  = findIndex (λ t, strict_eq (prop t "id") id) l'.
Proof.
  revert l'. induction l as [|x l IH]; intros [|x' l']; try discriminate;
    [reflexivity|].
  cbn [fmap list_fmap]. intros [= Hx Hl]. cbn [findIndex].
  rewrite Hx, (IH l' Hl). reflexivity.
Qed.

Lemma existsb_ids (id : val) (l l' : list obj) :
  (λ t, prop t "id") <$> l = (λ t, prop t "id") <$> l' →
  existsb (λ t, strict_eq (prop t "id") id) l
  = existsb (λ t, strict_eq (prop t "id") id) l'.
Proof.
  revert l'. induction l as [|x l IH]; intros [|x' l']; try discriminate;
    [reflexivity|].
  cbn [fmap list_fmap]. intros [= Hx Hl]. cbn [existsb].
  rewrite Hx, (IH l' Hl). reflexivity.
Qed.

Section WithHost.
Context {host : Host}.

(** ** [bulkDelete] *)

Lemma bulkDelete_state (ids : list val) (s : state) :
  let ts' := List.filter
    (λ t, negb (existsb (strict_eq (prop t "id")) ids)) (tasks s) in
  bulkDelete ids s =
  (Ok (length (tasks s) - length ts')%nat,
   {| tasks := ts'; filters := filters s;
      storage := if (length ts' <? length (tasks s))%nat
                 then Storage.saveTasks ts' (storage s) else storage s;
      world := world s |}).
Proof.
  cbv zeta. unfold bulkDelete.
  cbv [bind get_tasks set_tasks save get_storage set_storage ret].
  cbn [tasks filters storage world].
  destruct (_ <? _)%nat; reflexivity.
Qed.

Lemma delete_state (id : val) (s : state) :
  let ts' := List.filter (λ t, negb (strict_eq (prop t "id") id)) (tasks s) in
  snd (delete id s) =
  {| tasks := ts'; filters := filters s;
     storage := if (length ts' <? length (tasks s))%nat
                then Storage.saveTasks ts' (storage s) else storage s;
     world := world s |}.
Proof.
  cbv zeta. unfold delete.
  cbv [bind get_tasks set_tasks save get_storage set_storage ret].
  cbn [tasks filters storage world].
  destruct (_ <? _)%nat; reflexivity.
Qed.

(** The deletions one after the other: what they leave in memory, *)
Lemma deletes_tasks (ids : list val) (s : state) :
  let s2 := run (Delete <$> ids) s in
  tasks s2 =
    List.filter (λ t, negb (existsb (strict_eq (prop t "id")) ids)) (tasks s) ∧
  filters s2 = filters s ∧ world s2 = world s ∧
  Storage.stored_stats (storage s2) = Storage.stored_stats (storage s).
Proof.
  cbv zeta. revert s. induction ids as [|id ids IH]; intros s.
  - cbn [fmap list_fmap run]. split; [|repeat split]. symmetry.
    apply (Repository.filter_none
             (λ t : obj, existsb (strict_eq (prop t "id")) [])).
    apply Repository.existsb_Forall, Forall_forall. reflexivity.
  - cbn [fmap list_fmap run perform]. rewrite Identity.perform_state.
    destruct (IH (snd (delete id s))) as (T & F & W & S).
    rewrite T, F, W, S, delete_state. cbv zeta. cbn [tasks filters world storage].
    split; [|split; [reflexivity|split; [reflexivity|]]].
    + rewrite Repository.filter_filter. apply Repository.filter_ext_bool.
      intros t. cbn [existsb]. symmetry. apply negb_orb.
    + destruct (_ <? _)%nat; reflexivity.
Qed.

(** and what they leave saved when every write is accepted. *)
Lemma deletes_saved (ids : list val) (s : state) :
  writable (storage s) →
  let s2 := run (Delete <$> ids) s in
  Storage.stored_tasks (storage s2) =
    (if (length (tasks s2) <? length (tasks s))%nat then Some (tasks s2)
     else Storage.stored_tasks (storage s)).
Proof.
  cbv zeta. revert s. induction ids as [|id ids IH]; intros s Hw.
  - cbn [fmap list_fmap run]. rewrite Nat.ltb_irrefl. reflexivity.
  - cbn [fmap list_fmap run perform]. rewrite Identity.perform_state.
    pose proof (deletes_tasks ids (snd (delete id s))) as (T & _).
    cbv zeta in T.
    assert (Hw1 : writable (storage (snd (delete id s)))).
    { rewrite delete_state. cbv zeta. cbn [storage].
      destruct (_ <? _)%nat; Writes.writes. }
    rewrite (IH _ Hw1). rewrite T. clear T IH Hw1.
    rewrite delete_state. cbv zeta. cbn [tasks storage].
    set (p := λ t : obj, negb (strict_eq (prop t "id") id)).
    set (q := λ t : obj, negb (existsb (strict_eq (prop t "id")) ids)).
    pose proof (List.filter_length_le p (tasks s)) as Hp.
    pose proof (List.filter_length_le q (List.filter p (tasks s))) as Hq.
    destruct (length (List.filter q (List.filter p (tasks s)))
              <? length (List.filter p (tasks s)))%nat eqn:Hrest.
    + apply Nat.ltb_lt in Hrest.
      replace (length (List.filter q (List.filter p (tasks s)))
               <? length (tasks s))%nat with true
        by (symmetry; apply Nat.ltb_lt; lia).
      reflexivity.
    + apply Nat.ltb_ge in Hrest.
      assert (Hsame : List.filter q (List.filter p (tasks s))
                      = List.filter p (tasks s))
        by (apply filter_same_length; lia).
      rewrite Hsame.
      destruct (_ <? _)%nat; [|reflexivity].
      unfold Storage.saveTasks. cbn [Storage.stored_tasks].
      rewrite (Writes.writable_accepted _ Hw). reflexivity.
Qed.

(** X6. [bulkDelete] leaves in memory what deleting the ids one after the
    other leaves: no task with one of the ids, the others in their order;
    and it returns the number of tasks that had one.  It writes the
    collection once if a task was removed and not at all otherwise;
    neither way touches the stats record, and when [localStorage] accepts
    every write, both ways leave the same collection saved. *)
Theorem bulkDelete_as_deletes (ids : list val) (s : state) :
  let listed t := existsb (strict_eq (prop t "id")) ids in
  let s1 := snd (bulkDelete ids s) in
  let s2 := run (Delete <$> ids) s in
  tasks s1 = tasks s2 ∧ filters s1 = filters s2 ∧ world s1 = world s2 ∧
  Storage.stored_stats (storage s1) = Storage.stored_stats (storage s2) ∧
  (writable (storage s) →
   Storage.stored_tasks (storage s1) = Storage.stored_tasks (storage s2)) ∧
  Storage.setItem_calls (storage s1) =
    (if (length (tasks s1) <? length (tasks s))%nat
     then S (Storage.setItem_calls (storage s))
     else Storage.setItem_calls (storage s)) ∧
  tasks s1 = List.filter (λ t, negb (listed t)) (tasks s) ∧
  fst (bulkDelete ids s) = Ok (length (List.filter listed (tasks s))) ∧
  fst (bulkDelete ids s) = Ok (length (tasks s) - length (tasks s1))%nat.
Proof.
  cbv zeta.
  destruct (deletes_tasks ids s) as (T & F & W & S). cbv zeta in T.
  rewrite T, F, W, S.
  split; [|split; [|split; [|split; [|split; [|split; [|split; [|split]]]]]]].
  - rewrite bulkDelete_state. reflexivity.
  - rewrite bulkDelete_state. reflexivity.
  - rewrite bulkDelete_state. reflexivity.
  - rewrite bulkDelete_state. cbv zeta. cbn [snd storage].
    destruct (_ <? _)%nat; reflexivity.
  - intros Hw. rewrite (deletes_saved ids s Hw), T.
    rewrite bulkDelete_state. cbv zeta. cbn [snd storage].
    destruct (_ <? _)%nat; [|reflexivity].
    unfold Storage.saveTasks. cbn [Storage.stored_tasks].
    rewrite (Writes.writable_accepted _ Hw). reflexivity.
  - rewrite bulkDelete_state. cbv zeta. cbn [snd storage tasks].
    destruct (_ <? _)%nat; reflexivity.
  - rewrite bulkDelete_state. reflexivity.
  - rewrite bulkDelete_state. cbv zeta. cbn [fst]. f_equal.
    pose proof (Repository.filter_out_length
                  (λ t, existsb (strict_eq (prop t "id")) ids) (tasks s)).
    lia.
  - rewrite bulkDelete_state. reflexivity.
Qed.

(** ** [bulkUpdate] *)

Lemma update_ids (id : val) (updates : obj) (s : state) :
  updates !! "id" = None →
  (λ t, prop t "id") <$> tasks (snd (update id updates s))
    = (λ t, prop t "id") <$> tasks s ∧
  ∀ r, fst (update id updates s) = Ok r →
       snd r !! "id" = None ∧
       fst r = (if existsb (λ t, strict_eq (prop t "id") id) (tasks s)
                then fst r else None) ∧
       (existsb (λ t, strict_eq (prop t "id") id) (tasks s) = true →
        fst r ≠ None).
Proof.
  intros Hid. pose proof (Operations.update_run id updates s) as Hrun.
  destruct (findIndex _ (tasks s)) as [index|] eqn:Hfind.
  - assert (Hknown : existsb (λ t, strict_eq (prop t "id") id) (tasks s) = true).
    { destruct (existsb _ (tasks s)) eqn:E; [reflexivity|].
      apply Repository.findIndex_None in E. congruence. }
    rewrite Hknown.
    destruct Hrun as (old & s1 & Hold & _ & [(e & -> & T1) | Hok]).
    + cbn [fst snd]. rewrite T1. split; [reflexivity | discriminate].
    + cbv zeta in Hok. destruct Hok as [-> T1]. cbn [fst snd]. rewrite T1.
      split.
      * rewrite list_fmap_insert.
        rewrite Operations.prop_spread, Operations.patched_lookup by discriminate.
        rewrite Hid. apply list_insert_id.
        rewrite list_lookup_fmap, Hold. reflexivity.
      * intros r [= <-]. cbn [fst snd].
        rewrite Operations.patched_lookup by discriminate.
        split; [exact Hid|]. split; [reflexivity|]. discriminate.
  - rewrite Hrun. cbn [fst snd]. split; [reflexivity|].
    intros r [= <-]. cbn [fst snd]. split; [exact Hid|].
    apply Repository.findIndex_None in Hfind. rewrite Hfind.
    split; [reflexivity | discriminate].
Qed.

Lemma bulkUpdate_from_count (ids : list val) (updates : obj) (count : nat)
    (s : state) :
  updates !! "id" = None →
  ∀ r, fst (bulkUpdate_from count ids updates s) = Ok r →
  fst r = (count + length (List.filter
             (λ id, existsb (λ t, strict_eq (prop t "id") id) (tasks s)) ids))%nat.
Proof.
  revert updates count s.
  induction ids as [|id ids IH]; intros updates count s Hid r.
  - cbn. intros [= <-]. cbn [fst]. lia.
  - cbn [bulkUpdate_from]. cbv [bind].
    destruct (update_ids id updates s Hid) as [Hids Hret].
    destruct (update id updates s) as [[r1|e] s1]; cbn [fst snd] in *;
      [|discriminate].
    destruct (Hret r1 eq_refl) as (Hid1 & Hnull & Hsome).
    intros Hr. apply (IH _ _ _ Hid1) in Hr. rewrite Hr.
    cbn [List.filter].
    replace (List.filter
               (λ id0, existsb (λ t, strict_eq (prop t "id") id0) (tasks s1)) ids)
      with (List.filter
               (λ id0, existsb (λ t, strict_eq (prop t "id") id0) (tasks s)) ids)
      by (apply Repository.filter_ext_bool; intros id0; symmetry;
          apply existsb_ids, Hids).
    destruct (existsb (λ t, strict_eq (prop t "id") id) (tasks s)).
    + destruct (fst r1); [cbn [length]; lia | exfalso; apply Hsome; reflexivity].
    + rewrite Hnull. lia.
Qed.

(** X7. When the patch does not name [id] and no update throws, [bulkUpdate]
    returns the number of listed ids that some task has, an id listed
    twice counting twice; the tasks keep their ids and their places. *)
Theorem bulkUpdate_count (ids : list val) (updates : obj) (s : state) :
  updates !! "id" = None →
  (∀ r, fst (bulkUpdate ids updates s) = Ok r →
     fst r = length (List.filter
               (λ id, existsb (λ t, strict_eq (prop t "id") id) (tasks s)) ids)) ∧
  (λ t, prop t "id") <$> tasks (snd (bulkUpdate ids updates s))
    = (λ t, prop t "id") <$> tasks s.
Proof.
  intros Hid. split.
  - intros r Hr. apply (bulkUpdate_from_count ids updates 0 s Hid r Hr).
  - unfold bulkUpdate. generalize 0%nat as count.
    revert updates s Hid.
    induction ids as [|id ids IH]; intros updates s Hid count; [reflexivity|].
    cbn [bulkUpdate_from]. cbv [bind].
    destruct (update_ids id updates s Hid) as [Hids Hret].
    destruct (update id updates s) as [[r1|e] s1]; cbn [fst snd] in *;
      [|exact Hids].
    destruct (Hret r1 eq_refl) as (Hid1 & _).
    rewrite (IH _ _ Hid1). exact Hids.
Qed.

(** ** The patch object is shared *)

Lemma patched_completing (old updates : obj) (now : val) :
  prop updates "status" = VStr "completed" →
  prop old "status" ≠ VStr "completed" →
  patched old updates now = <["completedAt" := now]> updates.
Proof.
  intros Hnew Hold. unfold patched. rewrite Hnew.
  replace (strict_eq (prop old "status") (VStr "completed")) with false
    by (symmetry; apply bool_decide_eq_false; exact Hold).
  reflexivity.
Qed.

Lemma patched_completed (old updates : obj) (now : val) :
  prop updates "status" = VStr "completed" →
  prop old "status" = VStr "completed" →
  patched old updates now = updates.
Proof. intros Hnew Hold. unfold patched. rewrite Hnew, Hold. reflexivity. Qed.

(** X8. [bulkUpdate] hands one and the same patch object to every [update],
    and [update] writes [completedAt] into it.  So when a patch that sets
    the status to [completed] is applied to a task [a] that is not
    completed and then to a task [b] that is, the time at which [a] is
    completed is written over the completion time that [b] had. *)
Theorem bulkUpdate_shares_patch (ida idb : val) (patch : obj) (s : state)
    (i j : nat) (a b : obj) :
  findIndex (λ t, strict_eq (prop t "id") ida) (tasks s) = Some i →
  findIndex (λ t, strict_eq (prop t "id") idb) (tasks s) = Some j →
  tasks s !! i = Some a → tasks s !! j = Some b → i ≠ j →
  patch !! "id" = None →
  prop patch "status" = VStr "completed" →
  prop a "status" ≠ VStr "completed" →
  prop b "status" = VStr "completed" →
  returned (fst (bulkUpdate [ida; idb] patch s)) = true →
  let now := VStr (toISOString (clock (world s) (clock_reads (world s)))) in
  let s' := snd (bulkUpdate [ida; idb] patch s) in
  ∃ a' b', tasks s' !! i = Some a' ∧ tasks s' !! j = Some b' ∧
           prop a' "completedAt" = now ∧ prop b' "completedAt" = now.
Proof.
  intros Hi Hj Ha Hb Hij Hid Hnew Hopen Hdone. cbv zeta.
  unfold bulkUpdate. cbn [bulkUpdate_from]. cbv [bind].
  pose proof (Operations.update_run ida patch s) as Hrun1.
  destruct (update_ids ida patch s Hid) as [Hids1 _].
  rewrite Hi in Hrun1.
  destruct Hrun1 as (a0 & s1 & Ha0 & _ & [(e & Hrun1 & _) | Hok1]).
  { rewrite Hrun1. cbn. discriminate. }
  assert (a0 = a) as -> by congruence.
  cbv zeta in Hok1. rewrite (patched_completing a patch _ Hnew Hopen) in Hok1.
  destruct Hok1 as [Hrun1 T1]. rewrite Hrun1 in Hids1 |- *. cbn [fst snd] in *.
  set (now := VStr (toISOString (clock (world s) (clock_reads (world s))))) in *.
  set (u1 := <["completedAt" := now]> patch) in *.
  assert (Hnew1 : prop u1 "status" = VStr "completed").
  { unfold u1. rewrite Migration.prop_insert_ne by discriminate. exact Hnew. }
  pose proof (Operations.update_run idb u1 s1) as Hrun2.
  rewrite (findIndex_ids idb _ _ Hids1), Hj in Hrun2.
  destruct Hrun2 as (b0 & s2 & Hb0 & _ & [(e & Hrun2 & _) | Hok2]).
  { rewrite Hrun2. cbn. discriminate. }
  assert (Hb1 : tasks s1 !! j = Some b).
  { rewrite T1, list_lookup_insert_ne by exact Hij. exact Hb. }
  assert (b0 = b) as -> by congruence.
  cbv zeta in Hok2. rewrite (patched_completed b u1 _ Hnew1 Hdone) in Hok2.
  destruct Hok2 as [Hrun2 T2]. rewrite Hrun2. cbn [fst snd ret]. intros _.
  assert (Hat : ∀ old, prop (spread old u1) "completedAt" = now).
  { intros old. rewrite Operations.prop_spread. unfold u1.
    rewrite lookup_insert_eq. reflexivity. }
  exists (spread a u1), (spread b u1).
  rewrite T2, T1. split; [|split; [|split; apply Hat]].
  - rewrite list_lookup_insert_ne by (intros E; apply Hij; symmetry; exact E).
    apply list_lookup_insert_eq. apply lookup_lt_Some in Ha. exact Ha.
  - apply list_lookup_insert_eq. rewrite length_insert.
    apply lookup_lt_Some in Hb. exact Hb.
Qed.

End WithHost.

(** Two tasks are marked completed together; the second one was completed
    nine days before. *)
Lemma bulkUpdate_shares_patch_witness :
  let a := task "a" "Essay" "pending" VNull in
  let b := task "b" "Run" "completed" (VStr "2024-02-20T09:00:00.000Z") in
  let s := state_with [a; b] None in
  let patch := <["status" := VStr "completed"]> ∅ in
  let now := VStr (toISOString (clock (world s) (clock_reads (world s)))) in
  let s' := snd (bulkUpdate (host:=host_left_first) [VStr "a"; VStr "b"] patch s) in
  ∃ a' b', tasks s' !! 0%nat = Some a' ∧ tasks s' !! 1%nat = Some b' ∧
           prop a' "completedAt" = now ∧ prop b' "completedAt" = now.
Proof.
  cbv zeta.
  refine (bulkUpdate_shares_patch (host:=host_left_first) (VStr "a") (VStr "b")
            (<["status" := VStr "completed"]> ∅)
            (state_with [task "a" "Essay" "pending" VNull;
                         task "b" "Run" "completed"
                           (VStr "2024-02-20T09:00:00.000Z")] None)
            0 1 (task "a" "Essay" "pending" VNull)
            (task "b" "Run" "completed" (VStr "2024-02-20T09:00:00.000Z"))
            _ _ _ _ _ _ _ _ _ _).
  - vm_compute. reflexivity.
  - vm_compute. reflexivity.
  - reflexivity.
  - reflexivity.
  - discriminate.
  - vm_compute. reflexivity.
  - vm_compute. reflexivity.
  - vm_compute. discriminate.
  - vm_compute. reflexivity.
  - vm_compute. reflexivity.
Defined.

Example bulkUpdate_shared_completedAt :
  let a := task "a" "Essay" "pending" VNull in
  let b := task "b" "Run" "completed" (VStr "2024-02-20T09:00:00.000Z") in
  let patch := <["status" := VStr "completed"]> ∅ in
  (λ t, (prop t "id", prop t "completedAt")) <$>
    tasks (snd (bulkUpdate (host:=host_left_first) [VStr "a"; VStr "b"] patch
                  (state_with [a; b] None)))
  = [ (VStr "a", VStr "2024-02-29T12:34:56.789Z");
      (VStr "b", VStr "2024-02-29T12:34:56.789Z") ].
Proof. vm_compute. reflexivity. Qed.

Example bulkUpdate_counts_twice :
  let s := state_with [task "t1" "Essay" "pending" VNull;
                       task "t2" "Run" "pending" VNull] None in
  match fst (bulkUpdate (host:=host_left_first)
               [VStr "t2"; VStr "t9"; VStr "t2"]
               (<["priority" := VStr "high"]> ∅) s) with
  | Ok r => fst r = 2%nat
  | Throw _ => False
  end.
Proof. vm_compute. reflexivity. Qed.

(** Three ids, one of them unknown and one listed twice. *)
Lemma bulkUpdate_count_witness :
  let s := state_with [task "t1" "Essay" "pending" VNull;
                       task "t2" "Run" "pending" VNull] None in
  let patch := <["priority" := VStr "high"]> ∅ in
  let ids := [VStr "t2"; VStr "t9"; VStr "t2"] in
  (∀ r, fst (bulkUpdate (host:=host_left_first) ids patch s) = Ok r → fst r = 2%nat) ∧
  (λ t, prop t "id") <$> tasks (snd (bulkUpdate (host:=host_left_first) ids patch s))
    = [VStr "t1"; VStr "t2"].
Proof.
  cbv zeta.
  refine (bulkUpdate_count (host:=host_left_first)
            [VStr "t2"; VStr "t9"; VStr "t2"]
            (<["priority" := VStr "high"]> ∅)
            (state_with [task "t1" "Essay" "pending" VNull;
                         task "t2" "Run" "pending" VNull] None) _).
  vm_compute. reflexivity.
Defined.

End Bulk.

(* ================================================================== *)
(** * What is saved *)
(* ================================================================== *)

Module Persistence.
Import TaskManager Spec.

Lemma prefix_before (c : ascii) (s : string) :
  String.prefix (before c s) s = true.
Proof.
  induction s as [|a r IH]; [reflexivity|].
  cbn [before]. destruct (Ascii.eqb a c); [reflexivity|].
  cbn [String.prefix]. destruct (ascii_dec a a); [exact IH | contradiction].
Qed.

Lemma count_inserted {A} (q : A → bool) (l : list A) (i : nat) (old new : A) :
  l !! i = Some old → q old = false → q new = true →
  length (List.filter q (<[i := new]> l)) = S (length (List.filter q l)).
Proof.
  revert i. induction l as [|x l IH]; intros i; [discriminate|].
  destruct i as [|i].
  - intros [= ->] Hold Hnew.
    change (<[0%nat := new]> (old :: l)) with (new :: l).
    cbn [List.filter]. rewrite Hold, Hnew. reflexivity.
  - intros Hl Hold Hnew.
    change (<[S i := new]> (x :: l)) with (x :: <[i := new]> l).
    change ((x :: l) !! S i) with (l !! i) in Hl.
    cbn [List.filter]. destruct (q x); cbn [length];
      rewrite (IH i Hl Hold Hnew); reflexivity.
Qed.

Section WithHost.
Context {host : Host}.

(** ** The saved collection follows the collection *)

Ltac saved :=
  unfold saving, in_sync; cbn [tasks storage];
  rewrite ?Writes.getTasks_saveStats;
  split; [try (apply Writes.getTasks_saveTasks) | ]; Writes.writes.

Lemma create_saving (taskData : obj) (s : state) :
  saving s → saving (snd (create taskData s)).
Proof.
  intros [Hs Hw]. unfold create.
  cbv [bind generateId new_Date Math_random_chars ret]. unfold trim.
  destruct (prop taskData "title") as [| | b | n | title];
    try (split; [exact Hs | exact Hw]).
  cbv [ret].
  destruct (or_else (prop taskData "description") (VStr ""))
    as [| | b | n | description]; try (split; [exact Hs | exact Hw]).
  cbv [now_iso bind new_Date ret get_tasks set_tasks save get_storage
       set_storage].
  rewrite StreakUpdate.updateStats_run. cbn [snd]. saved.
Qed.

Lemma update_saving (id : val) (updates : obj) (s : state) :
  saving s → saving (snd (update id updates s)).
Proof.
  intros [Hs Hw]. unfold update.
  cbv [bind get_tasks set_tasks save get_storage set_storage ret].
  destruct (findIndex _ (tasks s)) as [index|]; [|split; assumption].
  destruct (strict_eq (prop updates "status") (VStr "completed")
            && negb (strict_eq (prop (default ∅ (tasks s !! index)) "status")
                       (VStr "completed"))); [|cbn [snd]; saved].
  cbv [handle_change_to_completed bind now_iso new_Date ret getTodayString
       get_storage set_storage lift updateStats].
  cbn [tasks filters storage world clock clock_reads random random_draws].
  match goal with |- context [Storage.getCompletedCountByDate ?d ?st] =>
    destruct (Storage.getCompletedCountByDate d st) as [n|e] end.
  - cbn [snd]. saved.
  - cbn [snd]. unfold saving, in_sync. cbn [tasks storage].
    split; [exact Hs | Writes.writes].
Qed.

Lemma bulkUpdate_saving (ids : list val) (updates : obj) (count : nat)
    (s : state) :
  saving s → saving (snd (bulkUpdate_from count ids updates s)).
Proof.
  revert updates count s.
  induction ids as [|id ids IH]; intros updates count s Hs; [exact Hs|].
  cbn [bulkUpdate_from]. cbv [bind].
  pose proof (update_saving id updates s Hs) as H1.
  destruct (update id updates s) as [[r|e] s1]; cbn [snd] in *.
  - apply IH, H1.
  - exact H1.
Qed.

Lemma perform_saving (o : operation) (s : state) :
  saving s → saving (snd (perform o s)).
Proof.
  intros Hs.
  destruct o as [taskData | id patch | id | | ids patch | ids | data];
    cbn [perform]; rewrite Identity.perform_state.
  - apply create_saving, Hs.
  - apply update_saving, Hs.
  - destruct Hs as [Hs Hw]. rewrite Bulk.delete_state. cbv zeta.
    destruct (_ <? _)%nat eqn:E; [saved|].
    unfold saving, in_sync in *. cbn [tasks storage]. split; [|exact Hw].
    apply Nat.ltb_ge in E. rewrite Hs. f_equal.
    symmetry. apply Bulk.filter_same_length.
    pose proof (List.filter_length_le
      (λ t, negb (strict_eq (prop t "id") id)) (tasks s)). lia.
  - destruct Hs as [Hs Hw]. unfold clearCompleted.
    cbv [bind get_tasks set_tasks save get_storage set_storage ret].
    cbn [snd]. saved.
  - apply bulkUpdate_saving, Hs.
  - destruct Hs as [Hs Hw]. rewrite Bulk.bulkDelete_state. cbv zeta.
    cbn [snd].
    destruct (_ <? _)%nat eqn:E; [saved|].
    unfold saving, in_sync in *. cbn [tasks storage]. split; [|exact Hw].
    apply Nat.ltb_ge in E. rewrite Hs. f_equal.
    symmetry. apply Bulk.filter_same_length.
    pose proof (List.filter_length_le
      (λ t, negb (existsb (strict_eq (prop t "id")) ids)) (tasks s)). lia.
  - destruct Hs as [Hs Hw].
    destruct (Importing.import_run data s)
      as [(e & s1 & -> & T & _ & S & _) | (elems & news & _ & _ & _ & T & _ & S & _)].
    + cbn [snd]. unfold saving, in_sync. rewrite T, S. split; assumption.
    + unfold saving, in_sync. rewrite S, T.
      split; [apply Writes.getTasks_saveTasks|]; Writes.writes.
Qed.

Lemma init_saving (s : state) :
  in_sync s → existsb needs_migration (tasks s) = false →
  init s = (Ok tt, {| tasks := JSON_roundtrip <$> tasks s;
                      filters := filters s; storage := storage s;
                      world := world s |}).
Proof.
  unfold in_sync. intros Hs Hneeds.
  change (init s) with
    (migrateOldData {| tasks := Storage.getTasks (storage s);
                       filters := filters s; storage := storage s;
                       world := world s |}).
  rewrite Migration.migrateOldData_run. cbn [tasks].
  rewrite Hs, Migration.needs_migration_JSON, Hneeds. reflexivity.
Qed.

(** X9. As long as [localStorage] accepts the writes, what the operations
    leave in memory is what they leave saved: if the saved collection is
    the collection in memory (as JSON renders it) before a sequence of
    operations, it is afterwards, also when calls throw on the way.
    Loading it again with [init] then gives back the collection without
    the properties whose value is [undefined] -- every property reads as
    before --, as long as no task has a missing or numeric id for the
    migration to rewrite. *)
Theorem storage_in_sync (ops : list operation) (s : state) :
  in_sync s → writable (storage s) →
  let s1 := run ops s in
  in_sync s1 ∧ writable (storage s1) ∧
  (existsb needs_migration (tasks s1) = false →
   init s1 = (Ok tt, {| tasks := JSON_roundtrip <$> tasks s1;
                        filters := filters s1; storage := storage s1;
                        world := world s1 |}) ∧
   Forall2 (λ t t', ∀ k, prop t' k = prop t k)
           (tasks s1) (tasks (snd (init s1)))).
Proof.
  intros Hs Hw. cbv zeta.
  assert (Hrun : saving (run ops s)).
  { assert (H0 : saving s) by (split; assumption). clear Hs Hw.
    revert s H0. induction ops as [|o ops IH]; intros s Hs; [exact Hs|].
    cbn [run]. apply IH, perform_saving, Hs. }
  destruct Hrun as [Hsync Hwr].
  split; [exact Hsync|]. split; [exact Hwr|]. intros Hneeds.
  rewrite (init_saving _ Hsync Hneeds). split; [reflexivity|].
  cbn [snd tasks]. apply Forall2_fmap_r, Forall_Forall2_diag, Forall_forall.
  intros t _ k. apply Writes.prop_JSON_roundtrip.
Qed.

(** ** The stats record is written by [create] and by completions only *)

Lemma update_leaves_stats (id : val) (updates : obj) (s : state) :
  prop updates "status" ≠ VStr "completed" →
  Storage.stored_stats (storage (snd (update id updates s)))
    = Storage.stored_stats (storage s) ∧
  ∀ r, fst (update id updates s) = Ok r →
       prop (snd r) "status" = prop updates "status".
Proof.
  intros Hnew. unfold update.
  cbv [bind get_tasks set_tasks save get_storage set_storage ret].
  destruct (findIndex _ (tasks s)) as [index|].
  2:{ split; [reflexivity|]. intros r [= <-]. reflexivity. }
  replace (strict_eq (prop updates "status") (VStr "completed")) with false
    by (symmetry; apply bool_decide_eq_false; exact Hnew).
  cbn [andb fst snd storage]. split; [reflexivity|].
  intros r [= <-]. cbn [snd].
  destruct (_ && _); [|reflexivity].
  apply Migration.prop_insert_ne. discriminate.
Qed.

Lemma bulkUpdate_leaves_stats (ids : list val) (updates : obj) (count : nat)
    (s : state) :
  prop updates "status" ≠ VStr "completed" →
  Storage.stored_stats (storage (snd (bulkUpdate_from count ids updates s)))
    = Storage.stored_stats (storage s).
Proof.
  revert updates count s.
  induction ids as [|id ids IH]; intros updates count s Hnew; [reflexivity|].
  cbn [bulkUpdate_from]. cbv [bind].
  destruct (update_leaves_stats id updates s Hnew) as [Hstats Hpatch].
  destruct (update id updates s) as [[r|e] s1]; cbn [fst snd] in *;
    [|exact Hstats].
  rewrite IH; [exact Hstats|]. rewrite (Hpatch r eq_refl). exact Hnew.
Qed.

Lemma perform_leaves_stats (o : operation) (s : state) :
  leaves_stats o →
  Storage.stored_stats (storage (snd (perform o s)))
    = Storage.stored_stats (storage s).
Proof.
  destruct o as [taskData | id patch | id | | ids patch | ids | data];
    cbn [leaves_stats perform]; intros Ho; rewrite Identity.perform_state.
  - contradiction.
  - apply update_leaves_stats, Ho.
  - rewrite Bulk.delete_state. cbv zeta. cbn [storage].
    destruct (_ <? _)%nat; reflexivity.
  - reflexivity.
  - apply bulkUpdate_leaves_stats, Ho.
  - rewrite Bulk.bulkDelete_state. cbv zeta. cbn [snd storage].
    destruct (_ <? _)%nat; reflexivity.
  - destruct (Importing.import_run data s)
      as [(e & s1 & -> & _ & _ & S & _) | (elems & news & _ & _ & _ & _ & _ & S & _)].
    + cbn [snd]. rewrite S. reflexivity.
    + rewrite S. reflexivity.
Qed.

(** X10. Only [create] and the updates whose patch sets the status to
    [completed] write the stats record.  Deleting or clearing completed
    tasks, reopening a task, editing it and importing leave the totals,
    the streak and the daily counters exactly as they were: the totals
    count what was ever created here and ever completed, not what is in
    the collection. *)
Theorem stats_written_by_create_and_completion (ops : list operation)
    (s : state) :
  Forall leaves_stats ops →
  Storage.stored_stats (storage (run ops s)) = Storage.stored_stats (storage s).
Proof.
  intros Hops. revert s.
  induction Hops as [|o ops Ho _ IH]; intros s; [reflexivity|].
  cbn [run]. rewrite IH. apply perform_leaves_stats, Ho.
Qed.

(** ** The daily counter of completions *)

Lemma completed_on_date_typed (day : string) (t : obj) :
  day ≠ EmptyString →
  timestamp_or_null (prop t "completedAt") →
  Storage.completed_on day t = Ok (completed_on_date day t).
Proof.
  intros Hday Hty. unfold Storage.completed_on, completed_on_date.
  destruct (strict_eq (prop t "status") (VStr "completed")); [|reflexivity].
  destruct (prop t "completedAt") as [| | b | n | at_]; try reflexivity;
    try contradiction.
  cbn [truthy andb]. destruct (String.eqb at_ "") eqn:E; [|reflexivity].
  apply String.eqb_eq in E. subst at_. cbn [negb].
  rewrite DerivedStreak.nothing_starts_empty by exact Hday. reflexivity.
Qed.

Lemma count_on_date_typed (day : string) (st : Storage.store) :
  day ≠ EmptyString →
  Forall (λ t, timestamp_or_null (prop t "completedAt")) (Storage.getTasks st) →
  Storage.getCompletedCountByDate day st =
  Ok (Z.of_nat (length (List.filter (completed_on_date day) (Storage.getTasks st)))).
Proof.
  intros Hday Hty. unfold Storage.getCompletedCountByDate.
  rewrite (DerivedStreak.filter_throwing_total _ (completed_on_date day)).
  - reflexivity.
  - eapply Forall_impl; [exact Hty|]. intros t Ht.
    apply completed_on_date_typed; [exact Hday | exact Ht].
Qed.

Lemma completed_on_date_JSON (day : string) (t : obj) :
  completed_on_date day (JSON_roundtrip t) = completed_on_date day t.
Proof.
  unfold completed_on_date. rewrite !Writes.prop_JSON_roundtrip. reflexivity.
Qed.

Lemma count_JSON (day : string) (ts : list obj) :
  length (List.filter (completed_on_date day) (JSON_roundtrip <$> ts))
  = length (List.filter (completed_on_date day) ts).
Proof.
  induction ts as [|t ts IH]; [reflexivity|].
  cbn [fmap list_fmap List.filter]. rewrite completed_on_date_JSON.
  destruct (completed_on_date day t); cbn [length]; rewrite <- IH; reflexivity.
Qed.

Lemma typed_JSON (ts : list obj) :
  Forall (λ t, timestamp_or_null (prop t "completedAt")) ts →
  Forall (λ t, timestamp_or_null (prop t "completedAt")) (JSON_roundtrip <$> ts).
Proof.
  intros Hty. apply Forall_fmap. eapply Forall_impl; [exact Hty|].
  intros t Ht. cbn. rewrite Writes.prop_JSON_roundtrip. exact Ht.
Qed.

(** X11. When a task is completed, the [completed] counter of the day in the
    stats record becomes the number of tasks of the collection that are
    completed on that day, the task just completed among them.  This
    rests on four things: the saved collection was the collection in
    memory, [localStorage] accepts the writes, every [completedAt] is a
    timestamp or null, and the clock did not pass midnight (UTC) between
    the reading that stamps the task and the reading that names the day.
    The [created] counter of the day and the counters of the other days
    stay as they are. *)
Theorem completing_counts_today (id : val) (updates : obj) (s : state)
    (index : nat) (old : obj) :
  in_sync s →
  writable (storage s) →
  Forall (λ t, timestamp_or_null (prop t "completedAt")) (tasks s) →
  findIndex (λ t, strict_eq (prop t "id") id) (tasks s) = Some index →
  tasks s !! index = Some old →
  prop updates "status" = VStr "completed" →
  prop old "status" ≠ VStr "completed" →
  let reads := clock_reads (world s) in
  let today := before "T" (toISOString (clock (world s) (2 + reads))) in
  before "T" (toISOString (clock (world s) reads)) = today →
  let s1 := snd (update id updates s) in
  returned_task (fst (update id updates s)) = true ∧
  completed_counter today s1 =
    Z.of_nat (length (List.filter (completed_on_date today) (tasks s1))) ∧
  created_counter today s1 = created_counter today s ∧
  ∀ day, day ≠ today →
    completed_counter day s1 = completed_counter day s ∧
    created_counter day s1 = created_counter day s.
Proof.
  intros Hsync Hw Hty Hfind Hold Hnew Hopen. cbv zeta. intros Hday.
  unfold update.
  cbv [bind get_tasks set_tasks save get_storage set_storage ret].
  rewrite Hfind, Hold. cbn [from_option]. unfold Datatypes.id. rewrite Hnew.
  replace (strict_eq (prop old "status") (VStr "completed")) with false
    by (symmetry; apply bool_decide_eq_false; exact Hopen).
  replace (strict_eq (VStr "completed") (VStr "completed")) with true
    by reflexivity.
  cbn [andb negb].
  cbv [handle_change_to_completed bind now_iso new_Date ret getTodayString
       get_storage set_storage lift updateStats].
  cbn [tasks filters storage world clock clock_reads random random_draws].
  change (2 + clock_reads (world s))%nat
    with (S (S (clock_reads (world s)))) in Hday.
  set (now := toISOString (clock (world s) (clock_reads (world s)))) in *.
  set (today := before "T"
         (toISOString (clock (world s) (S (S (clock_reads (world s))))))) in *.
  set (st1 := Storage.saveStats _ (storage s)).
  assert (Hcount : Storage.getCompletedCountByDate today st1 =
            Ok (Z.of_nat (length (List.filter (completed_on_date today) (tasks s))))).
  { rewrite count_on_date_typed.
    - change (Storage.getTasks st1) with (Storage.getTasks (storage s)).
      rewrite Hsync, count_JSON. reflexivity.
    - apply StreakUpdate.today_not_empty.
    - change (Storage.getTasks st1) with (Storage.getTasks (storage s)).
      rewrite Hsync. apply typed_JSON, Hty. }
  rewrite Hcount. cbn [fst snd tasks storage returned_task].
  change (before "T" (toISOString (clock (world s) (2 + clock_reads (world s)))))
    with today.
  set (new := spread old (<["completedAt" := VStr now]> updates)).
  assert (Hstats : Storage.dailyStats (Storage.getStats st1)
                   = Storage.dailyStats (Storage.getStats (storage s))).
  { unfold st1. rewrite Writes.getStats_saveStats by Writes.writes.
    reflexivity. }
  unfold completed_counter, created_counter. cbn [storage].
  unfold Storage.updateDailyStats.
  rewrite !Writes.getStats_saveTasks.
  rewrite !(Writes.getStats_saveStats _ st1) by (unfold st1; Writes.writes).
  cbn [Storage.dailyStats Storage.set_completed Storage.set_created from_option].
  unfold Datatypes.id. rewrite Hstats.
  rewrite !lookup_insert_eq. cbn [Storage.completed Storage.created].
  split; [reflexivity|]. split; [|split].
  - rewrite (count_inserted (completed_on_date today) (tasks s) index old new Hold).
    + lia.
    + unfold completed_on_date.
      replace (strict_eq (prop old "status") (VStr "completed")) with false
        by (symmetry; apply bool_decide_eq_false; exact Hopen).
      reflexivity.
    + unfold completed_on_date, new.
      rewrite !Operations.prop_spread, lookup_insert_eq.
      rewrite lookup_insert_ne by discriminate.
      assert (Hst : updates !! "status" = Some (VStr "completed")).
      { unfold prop in Hnew. destruct (updates !! "status") as [v|];
          cbn in Hnew; [congruence | discriminate]. }
      rewrite Hst. unfold startsWith. rewrite <- Hday.
      rewrite prefix_before. reflexivity.
  - destruct (Storage.dailyStats (Storage.getStats (storage s)) !! today);
      reflexivity.
  - intros day Hne. rewrite !lookup_insert_ne by (intros E; apply Hne; symmetry; exact E).
    split; reflexivity.
Qed.


End WithHost.

(** The morning of [a_morning], from an empty collection that is saved. *)
Lemma storage_in_sync_witness :
  let s1 := run (host:=host_left_first) a_morning (state_with [] None) in
  in_sync s1 ∧ writable (storage s1) ∧
  (existsb needs_migration (tasks s1) = false →
   init s1 = (Ok tt, {| tasks := JSON_roundtrip <$> tasks s1;
                        filters := filters s1; storage := storage s1;
                        world := world s1 |}) ∧
   Forall2 (λ t t', ∀ k, prop t' k = prop t k)
           (tasks s1) (tasks (snd (init s1)))).
Proof.
  apply (storage_in_sync (host:=host_left_first) a_morning (state_with [] None)).
  - reflexivity.
  - intros n _. reflexivity.
Defined.

(** Where [localStorage] refuses the writes, the collection in memory and
    the saved one part: a task is created, and is not there after loading
    again. *)
Example refused_write_is_lost :
  let s := {| tasks := []; filters := no_filters;
              storage := no_storage;
              world := leap_day_noon |} in
  let s1 := snd (create (host:=host_left_first) (<["title" := VStr "Essay"]> ∅) s) in
  length (tasks s1) = 1 ∧
  Storage.getTasks (storage s1) = [] ∧
  Storage.totalTasksCreated (Storage.getStats (storage s1)) = 0%Z ∧
  length (tasks (snd (init s1))) = 0.
Proof. vm_compute. repeat split. Qed.

(** A completed task is reopened, renamed and deleted, and an export is
    imported: the record of seven tasks created and three completed
    stays. *)
Lemma stats_written_by_create_and_completion_witness :
  let s := state_with [task "t1" "Essay" "completed"
                         (VStr "2024-02-28T18:30:00.000Z")]
                      (Some (stats_of 2 4 (VStr "2024-02-28"))) in
  let ops := [ Update (VStr "t1") (<["status" := VStr "pending"]> ∅);
               BulkUpdate [VStr "t1"] (<["title" := VStr "Essay, again"]> ∅);
               Import hand_written_export;
               Delete (VStr "t1");
               ClearCompleted;
               BulkDelete [VStr "t1"] ] in
  Storage.stored_stats (storage (run (host:=host_left_first) ops s))
  = Storage.stored_stats (storage s).
Proof.
  cbv zeta.
  apply (stats_written_by_create_and_completion (host:=host_left_first)).
  repeat constructor; vm_compute; discriminate.
Defined.

(** A second task is completed on the leap day. *)
Lemma completing_counts_today_witness :
  let s := state_with [task "a" "Essay" "completed"
                         (VStr "2024-02-29T09:00:00.000Z");
                       task "b" "Run" "pending" VNull] None in
  let patch := <["status" := VStr "completed"]> ∅ in
  let today := before "T" (toISOString (clock (world s) (2 + clock_reads (world s)))) in
  let s1 := snd (update (host:=host_left_first) (VStr "b") patch s) in
  returned_task (fst (update (host:=host_left_first) (VStr "b") patch s)) = true ∧
  completed_counter today s1 =
    Z.of_nat (length (List.filter (completed_on_date today) (tasks s1))) ∧
  created_counter today s1 = created_counter today s ∧
  ∀ day, day ≠ today →
    completed_counter day s1 = completed_counter day s ∧
    created_counter day s1 = created_counter day s.
Proof.
  cbv zeta.
  refine (completing_counts_today (host:=host_left_first) (VStr "b")
            (<["status" := VStr "completed"]> ∅)
            (state_with [task "a" "Essay" "completed"
                           (VStr "2024-02-29T09:00:00.000Z");
                         task "b" "Run" "pending" VNull] None)
            1 (task "b" "Run" "pending" VNull) _ _ _ _ _ _ _ _).
  - reflexivity.
  - intros n _. reflexivity.
  - repeat constructor.
  - vm_compute. reflexivity.
  - reflexivity.
  - vm_compute. reflexivity.
  - vm_compute. discriminate.
  - vm_compute. reflexivity.
Defined.

Example completing_counts_two :
  let s := state_with [task "a" "Essay" "completed"
                         (VStr "2024-02-29T09:00:00.000Z");
                       task "b" "Run" "pending" VNull] None in
  let s1 := snd (update (host:=host_left_first) (VStr "b")
                   (<["status" := VStr "completed"]> ∅) s) in
  completed_counter "2024-02-29" s1 = 2%Z ∧
  created_counter "2024-02-29" s1 = 0%Z ∧
  Storage.totalTasksCompleted (Storage.getStats (storage s1)) = 1%Z.
Proof. vm_compute. repeat split; reflexivity. Qed.

End Persistence.

(* ================================================================== *)
(** * Counting tasks *)
(* ================================================================== *)

Module Statistics.
Import TaskManager Spec.

Lemma filter_all_iff {A} (p : A → bool) (l : list A) :
  length (List.filter p l) = length l ↔ Forall (λ x, p x = true) l.
Proof.
  induction l as [|x l IH]; [split; [constructor | reflexivity]|].
  cbn [List.filter]. pose proof (List.filter_length_le p l) as Hle.
  rewrite Forall_cons, <- IH. destruct (p x); cbn [length].
  - split; [intros [= H]; split; [reflexivity | exact H]
           | intros [_ H]; rewrite H; reflexivity].
  - split; [intros H; lia | intros [? _]; discriminate].
Qed.

Lemma existsb_strict_eq (v : val) (l : list val) :
  existsb (strict_eq v) l = true ↔ v ∈ l.
Proof.
  induction l as [|k l IH]; cbn [existsb].
  - split; [discriminate | intros H; inversion H].
  - rewrite elem_of_cons, <- IH. unfold strict_eq at 1.
    destruct (bool_decide_reflect (v = k)) as [E|E]; cbn [orb].
    + split; [intros _; left; exact E | reflexivity].
    + split; [intros H; right; exact H | intros [H|H]; [contradiction | exact H]].
Qed.

Lemma rev_reverse {A} (l : list A) : rev l = reverse l.
Proof. apply rev_alt. Qed.

(** Four counts by the value of one field, for four different values. *)
Lemma four_counts (f : string) (k1 k2 k3 k4 : val) (ts : list obj) :
  NoDup [k1; k2; k3; k4] →
  let n k := length (List.filter (λ t, strict_eq (prop t f) k) ts) in
  (n k1 + n k2 + n k3 + n k4)%nat =
  length (List.filter (λ t, existsb (strict_eq (prop t f)) [k1; k2; k3; k4]) ts).
Proof.
  intros Hnd. cbv zeta.
  assert (H12 : k1 ≠ k2 ∧ k1 ≠ k3 ∧ k1 ≠ k4 ∧ k2 ≠ k3 ∧ k2 ≠ k4 ∧ k3 ≠ k4).
  { rewrite !NoDup_cons in Hnd. rewrite !not_elem_of_cons in Hnd. tauto. }
  destruct H12 as (? & ? & ? & ? & ? & ?).
  induction ts as [|t ts IH]; [reflexivity|].
  cbn [List.filter existsb] in IH |- *.
  destruct (strict_eq (prop t f) k1) eqn:E1;
    destruct (strict_eq (prop t f) k2) eqn:E2;
    destruct (strict_eq (prop t f) k3) eqn:E3;
    destruct (strict_eq (prop t f) k4) eqn:E4;
    repeat match goal with
           | H : strict_eq _ _ = true |- _ => apply bool_decide_eq_true in H
           end;
    try congruence; cbn [orb length]; lia.
Qed.

Section WithHost.
Context {host : Host}.

(** ** [getStats] and [getByStatus] *)

(** X12. The four counts of [getStats] are the lengths of what [getByStatus]
    returns for the four statuses; together they never exceed [total],
    and they add up to [total] exactly when every task has one of the
    four statuses. *)
Theorem getStats_partition (s : state) :
  let st := getStats (tasks s) in
  let by_status v :=
    match fst (getByStatus v s) with Ok l => length l | Throw _ => O end in
  total st = length (tasks s) ∧
  completed st = by_status (VStr "completed") ∧
  pending st = by_status (VStr "pending") ∧
  inProgress st = by_status (VStr "in-progress") ∧
  skipped st = by_status (VStr "skipped") ∧
  (completed st + pending st + inProgress st + skipped st ≤ total st)%nat ∧
  ((completed st + pending st + inProgress st + skipped st = total st)%nat ↔
   Forall (λ t, prop t "status" ∈ known_statuses) (tasks s)).
Proof.
  cbv zeta. unfold getStats, getByStatus, with_status.
  cbv [bind get_tasks ret]. cbn [fst total completed pending inProgress skipped].
  split; [reflexivity|]. split; [reflexivity|]. split; [reflexivity|].
  split; [reflexivity|]. split; [reflexivity|].
  rewrite (four_counts "status" (VStr "completed") (VStr "pending")
             (VStr "in-progress") (VStr "skipped") (tasks s))
    by (repeat constructor; rewrite ?not_elem_of_cons, ?elem_of_nil;
        intuition discriminate).
  split; [apply List.filter_length_le|].
  rewrite filter_all_iff. apply Forall_iff. intros t.
  apply existsb_strict_eq.
Qed.

End WithHost.

Section WithZone.
Context {host : Host} {zone : LocalTime}.

(** ** [getCategoryDistribution] and [getByCategory] *)

(** X13. The distribution has an entry for each of the four categories and for
    nothing else; the entry of a category is the number of tasks that
    [getByCategory] returns for it; the four entries together never
    exceed the number of tasks, and they add up to it exactly when every
    task has one of the four categories. *)
Theorem getCategoryDistribution_counts (s : state) :
  ∃ d, getCategoryDistribution s = (Ok d, s) ∧
    dom d = list_to_set categories ∧
    (∀ cat, cat ∈ categories →
       fst (getByCategory (VStr cat) s) =
         Ok (List.filter (λ t, strict_eq (prop t "category") (VStr cat)) (tasks s)) ∧
       d !! cat = Some (length (List.filter
                    (λ t, strict_eq (prop t "category") (VStr cat)) (tasks s)))) ∧
    (count_in d "study" + count_in d "work" + count_in d "personal"
     + count_in d "health" ≤ length (tasks s))%nat ∧
    ((count_in d "study" + count_in d "work" + count_in d "personal"
      + count_in d "health" = length (tasks s))%nat ↔
     Forall (λ t, prop t "category" ∈ known_categories) (tasks s)).
Proof.
  unfold getCategoryDistribution. cbv [bind get_tasks ret].
  unfold categories at 1. cbn [foldl].
  set (n := λ cat : string, length (List.filter
              (λ t, strict_eq (prop t "category") (VStr cat)) (tasks s))).
  set (d := <["health" := n "health"]> (<["personal" := n "personal"]> (
            <["work" := n "work"]> (<["study" := n "study"]>
              (∅ : gmap string nat))))).
  assert (Hd : ∀ cat, cat ∈ categories → d !! cat = Some (n cat)).
  { intros cat Hcat. unfold categories in Hcat.
    rewrite !elem_of_cons, elem_of_nil in Hcat. unfold d.
    destruct Hcat as [-> | [-> | [-> | [-> | []]]]];
      repeat (rewrite lookup_insert_ne by discriminate);
      apply lookup_insert_eq. }
  exists d. split; [reflexivity|]. split; [|split].
  - unfold d, categories. rewrite !dom_insert_L, dom_empty_L.
    cbn [list_to_set]. set_solver.
  - intros cat Hcat. split; [reflexivity | apply Hd, Hcat].
  - unfold count_in.
    rewrite !Hd by (unfold categories; rewrite !elem_of_cons; tauto).
    cbn [from_option]. unfold Datatypes.id, n.
    rewrite (four_counts "category" (VStr "study") (VStr "work")
               (VStr "personal") (VStr "health") (tasks s))
      by (repeat constructor; rewrite ?not_elem_of_cons, ?elem_of_nil;
          intuition discriminate).
    split; [apply List.filter_length_le|].
    rewrite filter_all_iff. apply Forall_iff. intros t.
    apply existsb_strict_eq.
Qed.

(** ** The activity graph *)

(** X14. The level of a day is a number from 0 to 4; it is 0 for a day without
    completion only, and it does not fall when the count of the day
    grows. *)
Theorem getActivityLevel_range (count count' : Z) :
  (0 ≤ getActivityLevel count ≤ 4)%Z ∧
  (getActivityLevel count = 0%Z ↔ count = 0%Z) ∧
  ((0 ≤ count ≤ count')%Z → (getActivityLevel count ≤ getActivityLevel count')%Z).
Proof.
  unfold getActivityLevel.
  repeat match goal with
         | |- context [(?a =? ?b)%Z] => destruct (Z.eqb_spec a b)
         | |- context [(?a <=? ?b)%Z] => destruct (Z.leb_spec a b)
         end; lia.
Qed.

Lemma daily_activity_from_typed (today : Z) (ts : list obj) (n : nat)
    (activity : list Activity) :
  Forall (λ t, timestamp_or_null (prop t "completedAt")) ts →
  daily_activity_from today ts n activity =
  Ok (activity ++ (activity_entry today ts <$> rev (seq 0 n))).
Proof.
  intros Hty. revert activity.
  induction n as [|i IH]; intros activity.
  - cbn. rewrite app_nil_r. reflexivity.
  - cbn [daily_activity_from].
    rewrite (DerivedStreak.filter_throwing_total _
               (completed_on_date (dateStr today i))).
    2:{ eapply Forall_impl; [exact Hty|]. intros t Ht.
        apply Persistence.completed_on_date_typed;
          [apply DerivedStreak.dateStr_not_empty | exact Ht]. }
    cbn [obind]. rewrite IH, seq_S, rev_app_distr, <- app_assoc.
    reflexivity.
Qed.

(** X15. Where every [completedAt] is a timestamp or null, and when going
    back [i] days in local time lands on the UTC calendar day [i] days
    back, for the days asked for (as it does in a zone that keeps its
    offset from UTC; where the clocks change, it fails only if the change
    moves the time of day across midnight UTC),
    [getDailyActivity] returns one entry per calendar day for the [days]
    days that end with the UTC day of the call (30 when it is called
    without argument, none for a negative number), the earliest day first:
    with [d] the day of the call, entry [k] is the entry of day
    [d - (days - 1 - k)], and holds the date of that day, the number of
    tasks completed on it and the level of that number.  The call reads
    the clock once and changes nothing else. *)
Theorem getDailyActivity_entries {tza : time_zone} `{!DateConforms host tza}
    (days : option Z) (s : state) :
  Forall (λ t, timestamp_or_null (prop t "completedAt")) (tasks s) →
  let n := Z.to_nat (default 30%Z days) in
  let today := clock (world s) (clock_reads (world s)) in
  in_step tza today n = true →
  ∃ activity,
    fst (getDailyActivity days s) = Ok activity ∧
    length activity = n ∧
    (∀ k, (k < n)%nat →
       activity !! k =
         Some (activity_of_day (tasks s)
                 (day_of today - Z.of_nat (n - 1 - k)))) ∧
    snd (getDailyActivity days s) = snd (new_Date s).
Proof.
  intros Hty. cbv zeta. intros Hstep. unfold getDailyActivity.
  cbv [bind new_Date get_tasks lift]. cbn [tasks world].
  rewrite (daily_activity_from_typed _ _ _ [] Hty). cbn [app fst snd].
  eexists. split; [reflexivity|].
  split; [rewrite length_fmap, length_rev, length_seq; reflexivity|].
  split; [|reflexivity].
  intros k Hk. rewrite list_lookup_fmap, rev_reverse, reverse_lookup
    by (rewrite length_seq; exact Hk).
  rewrite length_seq, lookup_seq_lt by lia. cbn [fmap option_fmap option_map].
  f_equal. unfold activity_entry, activity_of_day.
  replace (Z.to_nat (default 30%Z days) - S k)%nat
    with (Z.to_nat (default 30%Z days) - 1 - k)%nat by lia.
  rewrite (DerivedStreak.dateStr_calendar _ _ _ Hstep) by lia.
  reflexivity.
Qed.

(** X16. The seven numbers of [getWeeklyData] are the counts of the seven
    entries that [getDailyActivity(7)] returns at the same moment, in the
    same order, and the one call throws what the other throws; the seven
    labels are the names of the days of the week on which those days
    fall. *)
Theorem getWeeklyData_is_daily (s : state) :
  let today := clock (world s) (clock_reads (world s)) in
  obind (fst (getWeeklyData s)) (λ w, Ok (data w))
    = obind (fst (getDailyActivity (Some 7%Z) s)) (λ a, Ok (count <$> a)) ∧
  (∀ w, fst (getWeeklyData s) = Ok w →
     length (data w) = 7%nat ∧
     labels w = (λ i, day_name (Date_getDay (Date_daysAgo today i)))
                  <$> rev (seq 0 7)) ∧
  snd (getWeeklyData s) = snd (getDailyActivity (Some 7%Z) s).
Proof.
  cbv zeta. unfold getWeeklyData, getDailyActivity.
  cbv [bind new_Date get_tasks lift ret]. cbn [tasks world from_option].
  change (Z.to_nat (Datatypes.id 7%Z)) with 7%nat.
  cbn [weekly_data_from daily_activity_from weekly_labels_from].
  repeat match goal with
         | |- context [filter_throwing ?p ?l] =>
             generalize (filter_throwing p l); intro
         end.
  repeat match goal with
         | |- context [dateStr ?t ?i] => generalize (dateStr t i); intro
         end.
  repeat match goal with
         | o : outcome (list obj) |- _ =>
             destruct o as [?|?]; cbn [obind fst snd];
             [|split; [reflexivity | split; [discriminate | reflexivity]]]
         end.
  split; [reflexivity|]. split; [|reflexivity].
  intros w [= <-]. split; reflexivity.
Qed.

End WithZone.

(** The four days that end on the leap day, over [three_completions]. *)
Lemma getDailyActivity_entries_witness :
  let s := state_with three_completions None in
  let today := clock (world s) (clock_reads (world s)) in
  ∃ activity,
    fst (getDailyActivity (host:=host_left_first) (Some 4%Z) s) = Ok activity ∧
    length activity = 4%nat ∧
    (∀ k, (k < 4)%nat →
       activity !! k =
         Some (activity_of_day (tasks s)
                 (day_of today - Z.of_nat (4 - 1 - k)))) ∧
    snd (getDailyActivity (host:=host_left_first) (Some 4%Z) s) = snd (new_Date s).
Proof.
  apply (getDailyActivity_entries (host:=host_left_first) (tza:=utc_zone)
           (Some 4%Z) (state_with three_completions None)).
  - repeat constructor.
  - vm_compute. reflexivity.
Defined.

Example getDailyActivity_four_days :
  match fst (getDailyActivity (host:=host_left_first) (Some 4%Z)
               (state_with three_completions None)) with
  | Ok activity => (λ e, (date e, count e, level e)) <$> activity
  | Throw _ => []
  end
  = [ ("2024-02-26", 1%nat, 1%Z); ("2024-02-27", 0%nat, 0%Z);
      ("2024-02-28", 1%nat, 1%Z); ("2024-02-29", 1%nat, 1%Z) ].
Proof. vm_compute. reflexivity. Qed.

(** In New York at 19:30 on the day the clocks went forward, the graph
    shows 10 March twice, with its completion counted on both. *)
Example getDailyActivity_shows_a_day_twice :
  match fst (getDailyActivity (host:=host_new_york) (Some 3%Z) one_evening) with
  | Ok activity => (λ e, (date e, count e)) <$> activity
  | Throw _ => []
  end
  = [ ("2024-03-09", 0%nat); ("2024-03-10", 1%nat); ("2024-03-10", 1%nat) ].
Proof. vm_compute. reflexivity. Qed.

(** The leap day of 2024 was a Thursday. *)
Example getWeeklyData_leap_week :
  match fst (getWeeklyData (host:=host_left_first) (zone:=fixed_offset 0)
               (state_with three_completions None)) with
  | Ok w => (labels w, data w)
  | Throw _ => ([], [])
  end
  = ([VStr "Fri"; VStr "Sat"; VStr "Sun"; VStr "Mon"; VStr "Tue"; VStr "Wed";
      VStr "Thu"],
     [0; 0; 0; 1; 0; 1; 1]%nat).
Proof. vm_compute. reflexivity. Qed.

Example getDailyActivity_default_days :
  match fst (getDailyActivity (host:=host_left_first) None
               (state_with three_completions None)) with
  | Ok activity => length activity
  | Throw _ => O
  end = 30%nat.
Proof. vm_compute. reflexivity. Qed.

End Statistics.

(* ================================================================== *)
(** * Deadlines *)
(* ================================================================== *)

Module Deadlines.
Import TaskManager Spec.

Lemma start_of_day_lt (offset a b : Z) :
  ((a + offset) / MS_PER_DAY * MS_PER_DAY - offset
   <? (b + offset) / MS_PER_DAY * MS_PER_DAY - offset)%Z
  = ((a + offset) / MS_PER_DAY <? (b + offset) / MS_PER_DAY)%Z.
Proof.
  assert (Hday : (0 < MS_PER_DAY)%Z) by reflexivity.
  destruct (Z.ltb_spec ((a + offset) / MS_PER_DAY) ((b + offset) / MS_PER_DAY)).
  - apply Z.ltb_lt. nia.
  - apply Z.ltb_ge. nia.
Qed.

Lemma local_day_east (offset day : Z) :
  (0 ≤ offset < MS_PER_DAY)%Z → ((day * MS_PER_DAY + offset) / MS_PER_DAY = day)%Z.
Proof.
  intros H. rewrite Z.add_comm, Z.div_add by discriminate.
  rewrite Z.div_small by exact H. reflexivity.
Qed.

Lemma local_day_west (offset day : Z) :
  (- MS_PER_DAY ≤ offset < 0)%Z →
  ((day * MS_PER_DAY + offset) / MS_PER_DAY = day - 1)%Z.
Proof.
  intros H.
  replace (day * MS_PER_DAY + offset)%Z
    with ((offset + MS_PER_DAY) + (day - 1) * MS_PER_DAY)%Z by ring.
  rewrite Z.div_add by discriminate.
  rewrite Z.div_small by lia. reflexivity.
Qed.

Section WithHost.
Context {host : Host}.

(** ** [Utils.isOverdue] *)

(** X17. [isOverdue] answers false for a missing deadline, without looking at
    the clock, and for a deadline that is not a date.  In a zone that
    stays [offset] milliseconds ahead of UTC, a deadline is overdue when
    the local day that holds it lies before the local day of the clock.
    For a deadline given as a date only, which [Date] reads as midnight
    UTC of that day: in UTC and east of it the deadline is overdue from
    the local day after it; west of UTC it is overdue from the local day
    of the deadline itself, since midnight UTC falls on the evening
    before. *)
Theorem isOverdue_by_local_day (offset : Z) (dateString : val) (s : state) :
  let now := clock (world s) (clock_reads (world s)) in
  let local_day t := ((t + offset) / MS_PER_DAY)%Z in
  let overdue := fst (isOverdue (zone:=fixed_offset offset) dateString s) in
  (truthy dateString = false →
     isOverdue (zone:=fixed_offset offset) dateString s = (Ok false, s)) ∧
  (truthy dateString = true →
     overdue = Ok (match Date_of dateString with
                   | Some d => (local_day d <? local_day now)%Z
                   | None => false
                   end)) ∧
  (∀ day, truthy dateString = true →
     Date_of dateString = Some (day * MS_PER_DAY)%Z →
     ((0 ≤ offset < MS_PER_DAY)%Z → overdue = Ok (day <? local_day now)%Z) ∧
     ((- MS_PER_DAY ≤ offset < 0)%Z → overdue = Ok (day <=? local_day now)%Z)).
Proof.
  cbv zeta.
  assert (Hrun : truthy dateString = true →
    fst (isOverdue (zone:=fixed_offset offset) dateString s) =
    Ok (match Date_of dateString with
        | Some d => ((d + offset) / MS_PER_DAY
                     <? (clock (world s) (clock_reads (world s)) + offset)
                        / MS_PER_DAY)%Z
        | None => false
        end)).
  { intros Ht. unfold isOverdue. rewrite Ht. cbn [negb].
    cbv [bind new_Date ret]. cbn [fst].
    destruct (Date_of dateString) as [d|]; [|reflexivity].
    cbn [fmap option_fmap option_map Date_setHours0 fixed_offset].
    rewrite start_of_day_lt. reflexivity. }
  split; [|split; [exact Hrun|]].
  - intros Ht. unfold isOverdue. rewrite Ht. reflexivity.
  - intros day Ht Hd. rewrite (Hrun Ht), Hd. split; intros Hoff.
    + rewrite local_day_east by exact Hoff. reflexivity.
    + rewrite local_day_west by exact Hoff. f_equal.
      destruct (Z.ltb_spec (day - 1)
                  ((clock (world s) (clock_reads (world s)) + offset) / MS_PER_DAY));
        symmetry; [apply Z.leb_le | apply Z.leb_gt]; lia.
Qed.

End WithHost.

Section WithZone.
Context {host : Host} {zone : LocalTime}.

(** ** [getOverdue] and [getDueToday] *)

Lemma isOverdue_run (dateString : val) (s : state) :
  ∃ b, isOverdue dateString s =
       (Ok b, if truthy dateString then snd (new_Date s) else s).
Proof.
  unfold isOverdue. destruct (truthy dateString); cbn [negb].
  - cbv [bind new_Date ret]. eexists. reflexivity.
  - exists false. reflexivity.
Qed.

Lemma getOverdue_from (ts : list obj) (s : state) :
  let candidate t :=
    negb (strict_eq (prop t "status") (VStr "completed"))
    && negb (strict_eq (prop t "status") (VStr "skipped"))
    && truthy (prop t "deadline") in
  ∃ l s', filterM is_overdue_task ts s = (Ok l, s') ∧
    sublist l (List.filter candidate ts) ∧
    tasks s' = tasks s ∧ filters s' = filters s ∧ storage s' = storage s ∧
    clock (world s') = clock (world s) ∧
    clock_reads (world s') =
      (clock_reads (world s) + length (List.filter candidate ts))%nat.
Proof.
  cbv zeta. revert s. induction ts as [|t ts IH]; intros s.
  - exists [], s. cbn [filterM List.filter length]. cbv [ret].
    repeat split; try reflexivity; try constructor. lia.
  - cbn [filterM List.filter]. cbv [bind]. unfold is_overdue_task at 1.
    destruct (negb (strict_eq (prop t "status") (VStr "completed"))
              && negb (strict_eq (prop t "status") (VStr "skipped"))
              && truthy (prop t "deadline")) eqn:Hc.
    + destruct (isOverdue_run (prop t "deadline") s) as [b ->].
      apply andb_prop in Hc. destruct Hc as [_ Hd]. rewrite Hd.
      destruct (IH (snd (new_Date s))) as (l & s' & -> & Hsub & T & F & S & C & R).
      cbv [ret]. exists (if b then t :: l else l), s'.
      split; [reflexivity|]. cbn [tasks filters storage world clock
        clock_reads new_Date snd] in *.
      split; [destruct b; [apply sublist_skip | apply sublist_cons]; exact Hsub|].
      repeat split; try assumption. cbn [length]. lia.
    + cbv [ret]. destruct (IH s) as (l & s' & -> & Hsub & T & F & S & C & R).
      exists l, s'. split; [reflexivity|]. repeat split; assumption.
Qed.

(** X18. [getOverdue] and [getDueToday] never throw and change nothing but the
    number of readings of the clock; what they return are tasks of the
    collection, in the order of the collection, that are neither
    completed nor skipped and that have a deadline.  [getOverdue] reads
    the clock once for every such task, [getDueToday] reads it once and
    returns exactly the open tasks whose deadline is the date of that
    reading. *)
Theorem overdue_and_due_today_are_open (s : state) :
  let open t :=
    negb (strict_eq (prop t "status") (VStr "completed"))
    && negb (strict_eq (prop t "status") (VStr "skipped")) in
  (∃ l, fst (getOverdue s) = Ok l ∧
        sublist l (List.filter (λ t, open t && truthy (prop t "deadline")) (tasks s)) ∧
        tasks (snd (getOverdue s)) = tasks s ∧
        storage (snd (getOverdue s)) = storage s ∧
        filters (snd (getOverdue s)) = filters s ∧
        clock_reads (world (snd (getOverdue s))) =
          (clock_reads (world s) + length (List.filter
             (λ t, open t && truthy (prop t "deadline")) (tasks s)))%nat) ∧
  fst (getDueToday s) =
    Ok (List.filter (λ t, open t && strict_eq (prop t "deadline") (VStr (today_in s)))
          (tasks s)) ∧
  snd (getDueToday s) = snd (new_Date s) ∧
  (∀ t l, fst (getDueToday s) = Ok l → t ∈ l →
     open t = true ∧ truthy (prop t "deadline") = true).
Proof.
  cbv zeta. split; [|split; [reflexivity | split; [reflexivity|]]].
  - unfold getOverdue. cbv [bind get_tasks].
    destruct (getOverdue_from (tasks s) s) as (l & s' & -> & Hsub & T & F & S & C & R).
    exists l. cbn [fst snd]. repeat split; assumption.
  - intros t l. unfold getDueToday.
    cbv [bind getTodayString new_Date get_tasks ret]. cbn [fst tasks].
    intros [= <-] Ht. rewrite list_elem_of_In in Ht.
    apply List.filter_In in Ht. destruct Ht as [_ Ht].
    apply andb_prop in Ht. destruct Ht as [Hopen Hdue].
    split; [exact Hopen|].
    apply bool_decide_eq_true in Hdue. rewrite Hdue. cbn [truthy].
    apply negb_true_iff. apply String.eqb_neq.
    apply StreakUpdate.today_not_empty.
Qed.

End WithZone.

(** Noon UTC on the leap day, a deadline on the leap day: not overdue in
    UTC or in Tokyo, overdue in New York, where it is 7:34 in the morning
    of the same day. *)
Example overdue_on_the_day_west_of_UTC :
  let s := state_with [] None in
  fst (isOverdue (host:=host_left_first) (zone:=fixed_offset 0)
         (VStr "2024-02-29") s) = Ok false ∧
  fst (isOverdue (host:=host_left_first) (zone:=fixed_offset 32400000)
         (VStr "2024-02-29") s) = Ok false ∧
  fst (isOverdue (host:=host_left_first) (zone:=fixed_offset (-18000000))
         (VStr "2024-02-29") s) = Ok true ∧
  fst (isOverdue (host:=host_left_first) (zone:=fixed_offset (-18000000))
         (VStr "2024-03-01") s) = Ok false.
Proof. vm_compute. repeat split; reflexivity. Qed.

End Deadlines.

(* ================================================================== *)
(** * The application: first visit and daily check *)
(* ================================================================== *)

Module Application.
Import TaskManager Spec.

Ltac read_prop :=
  repeat first [ rewrite Migration.prop_insert_eq
               | rewrite Migration.prop_insert_ne by discriminate ].

Section WithHost.
Context {host : Host}.

(** [create] on data whose title is a string and whose description is a
    string or missing: the task it builds and the state it leaves. *)
Lemma create_returns (taskData : obj) (title description : string) (s : state) :
  prop taskData "title" = VStr title →
  or_else (prop taskData "description") (VStr "") = VStr description →
  let w := world s in
  let t : obj :=
    <["id" := VStr (string_of_Z (clock w (clock_reads w)) +:+ "-" +:+
                    random w (random_draws w))]> (
    <["title" := VStr (String_trim title)]> (
    <["description" := VStr (String_trim description)]> (
    <["category" := or_else (prop taskData "category") (VStr "study")]> (
    <["priority" := or_else (prop taskData "priority") (VStr "medium")]> (
    <["deadline" := prop taskData "deadline"]> (
    <["status" := VStr "pending"]> (
    <["createdAt" := VStr (toISOString (clock w (S (clock_reads w))))]> (
    <["completedAt" := VNull]> ∅)))))))) in
  create taskData s =
  (Ok t,
   {| tasks := tasks s ++ [t]; filters := filters s;
      storage := Storage.saveStats
        (updateStats_record "created"
           (before "T" (toISOString (clock w (S (S (clock_reads w))))))
           (Storage.getStats (storage s)))
        (Storage.saveTasks (tasks s ++ [t]) (storage s));
      world := {| clock := clock w; clock_reads := S (S (S (clock_reads w)));
                  random := random w; random_draws := S (random_draws w) |} |}).
Proof.
  intros Ht Hd. cbv zeta. unfold create.
  cbv [bind generateId new_Date Math_random_chars ret]. unfold trim.
  rewrite Ht, Hd.
  cbv [now_iso bind new_Date ret get_tasks set_tasks save get_storage
       set_storage].
  rewrite StreakUpdate.updateStats_run. reflexivity.
Qed.

Lemma created_counts (today : string) (stats : Storage.Stats) :
  Storage.totalTasksCreated (updateStats_record "created" today stats)
  = (Storage.totalTasksCreated stats + 1)%Z.
Proof. reflexivity. Qed.

Lemma create_adds (taskData : obj) (title description : string) (s : state) :
  prop taskData "title" = VStr title →
  or_else (prop taskData "description") (VStr "") = VStr description →
  ∃ t s1,
    create taskData s = (Ok t, s1) ∧
    tasks s1 = tasks s ++ [t] ∧
    created_into (storage s) (storage s1) (tasks s ++ [t]) ∧
    filters s1 = filters s ∧
    prop t "status" = VStr "pending" ∧
    prop t "completedAt" = VNull ∧
    prop t "category" = or_else (prop taskData "category") (VStr "study") ∧
    prop t "priority" = or_else (prop taskData "priority") (VStr "medium") ∧
    prop t "deadline" = prop taskData "deadline".
Proof.
  intros Ht Hd. eexists _, _.
  split; [apply (create_returns taskData title description s Ht Hd)|].
  cbv zeta. cbn [tasks storage filters].
  split; [reflexivity|].
  split; [eexists; split; reflexivity|]. split; [reflexivity|].
  repeat split; read_prop; reflexivity.
Qed.

Lemma demoTasks_run (s : state) :
  let w := world s in
  let r := clock_reads w in
  let day t := VStr (before "T" (toISOString t)) in
  App.demoTasks s =
  (Ok [ <["title" := VStr "Complete CS Assignment"]> (
        <["description" :=
            VStr "Finish the data structures homework before the deadline."]> (
        <["category" := VStr "study"]> (
        <["priority" := VStr "high"]> (
        <["deadline" := day (clock w r)]> (
        <["status" := VStr "in-progress"]> ∅)))));
        <["title" := VStr "Read Research Paper"]> (
        <["description" :=
            VStr "Read and summarize the latest ML research paper."]> (
        <["category" := VStr "study"]> (
        <["priority" := VStr "medium"]> (
        <["deadline" := day (clock w (S r) + 86400000)%Z]> (
        <["status" := VStr "pending"]> ∅)))));
        <["title" := VStr "Morning Exercise"]> (
        <["description" := VStr "30 minutes of cardio workout."]> (
        <["category" := VStr "health"]> (
        <["priority" := VStr "medium"]> (
        <["deadline" := day (clock w (S (S r)))]> (
        <["status" := VStr "completed"]> (
        <["completedAt" := VStr (toISOString (clock w (S (S (S r)))))]> ∅))))));
        <["title" := VStr "Update Resume"]> (
        <["description" :=
            VStr "Update CV with recent projects and skills."]> (
        <["category" := VStr "work"]> (
        <["priority" := VStr "low"]> (
        <["deadline" := day (clock w (S (S (S (S r)))) + 172800000)%Z]> (
        <["status" := VStr "pending"]> ∅))))) ],
   {| tasks := tasks s; filters := filters s; storage := storage s;
      world := {| clock := clock w; clock_reads := S (S (S (S (S r))));
                  random := random w; random_draws := random_draws w |} |}).
Proof. reflexivity. Qed.

(** ** [addDemoData] *)

(** X19. On a collection that is not empty [addDemoData] does nothing.  On an
    empty one it creates the four demo tasks, in their order.  All four
    come out pending and without completion time, also the third, which
    the demo data mark as completed: [create] does not read [status] and
    [completedAt].  The four calls of [create] write to [localStorage]
    eight times: where it accepts the writes, the four tasks are saved
    and counted as created; where it refuses them (the application starts
    also when there is no storage), nothing is saved or counted, and the
    tasks exist in memory only. *)
Theorem addDemoData_first_visit (s : state) :
  let s' := snd (App.addDemoData s) in
  let r := clock_reads (world s) in
  let day t := VStr (before "T" (toISOString t)) in
  (tasks s ≠ [] → App.addDemoData s = (Ok false, s)) ∧
  (tasks s = [] →
     fst (App.addDemoData s) = Ok true ∧
     (λ t, prop t "status") <$> tasks s' =
       [VStr "pending"; VStr "pending"; VStr "pending"; VStr "pending"] ∧
     (λ t, prop t "completedAt") <$> tasks s' = [VNull; VNull; VNull; VNull] ∧
     (λ t, prop t "category") <$> tasks s' =
       [VStr "study"; VStr "study"; VStr "health"; VStr "work"] ∧
     (λ t, prop t "priority") <$> tasks s' =
       [VStr "high"; VStr "medium"; VStr "medium"; VStr "low"] ∧
     (λ t, prop t "deadline") <$> tasks s' =
       [ day (clock (world s) r);
         day (clock (world s) (1 + r) + 86400000)%Z;
         day (clock (world s) (2 + r));
         day (clock (world s) (4 + r) + 172800000)%Z ] ∧
     Storage.setItem_calls (storage s') = 8 + Storage.setItem_calls (storage s) ∧
     (writable (storage s) →
        Storage.getTasks (storage s') = JSON_roundtrip <$> tasks s' ∧
        Storage.totalTasksCreated (Storage.getStats (storage s')) =
          (Storage.totalTasksCreated (Storage.getStats (storage s)) + 4)%Z) ∧
     (unwritable (storage s) →
        Storage.stored_tasks (storage s') = Storage.stored_tasks (storage s) ∧
        Storage.stored_stats (storage s') = Storage.stored_stats (storage s))).
Proof.
  cbv zeta. unfold App.addDemoData. cbv [bind getAll get_tasks].
  destruct (tasks s) as [|t0 ts] eqn:Hts.
  2:{ split; [reflexivity | discriminate]. }
  split; [congruence|]. intros _.
  cbn [length Nat.eqb]. rewrite demoTasks_run. cbv zeta.
  change (1 + clock_reads (world s))%nat with (S (clock_reads (world s))).
  change (2 + clock_reads (world s))%nat with (S (S (clock_reads (world s)))).
  change (4 + clock_reads (world s))%nat
    with (S (S (S (S (clock_reads (world s)))))).
  generalize (before "T" (toISOString (clock (world s) (clock_reads (world s))))).
  generalize (before "T" (toISOString
    (clock (world s) (S (clock_reads (world s))) + 86400000)%Z)).
  generalize (before "T" (toISOString
    (clock (world s) (S (S (clock_reads (world s))))))).
  generalize (before "T" (toISOString
    (clock (world s) (S (S (S (S (clock_reads (world s)))))) + 172800000)%Z)).
  generalize (toISOString (clock (world s) (S (S (S (clock_reads (world s))))))).
  intros at3 d4 d3 d2 d1.
  cbn [mapM]. cbv [bind ret].
  match goal with |- context [create ?d ?s0] =>
    destruct (create_adds d "Complete CS Assignment"
      "Finish the data structures homework before the deadline." s0)
      as (t1 & s1 & -> & T1 & G1 & _ & P1)
  end; [unfold or_else; read_prop; reflexivity ..|].
  match goal with |- context [create ?d ?s0] =>
    destruct (create_adds d "Read Research Paper"
      "Read and summarize the latest ML research paper." s0)
      as (t2 & s2 & -> & T2 & G2 & _ & P2)
  end; [unfold or_else; read_prop; reflexivity ..|].
  match goal with |- context [create ?d ?s0] =>
    destruct (create_adds d "Morning Exercise"
      "30 minutes of cardio workout." s0)
      as (t3 & s3 & -> & T3 & G3 & _ & P3)
  end; [unfold or_else; read_prop; reflexivity ..|].
  match goal with |- context [create ?d ?s0] =>
    destruct (create_adds d "Update Resume"
      "Update CV with recent projects and skills." s0)
      as (t4 & s4 & -> & T4 & G4 & _ & P4)
  end; [unfold or_else; read_prop; reflexivity ..|].
  cbn [fst snd].
  cbn [tasks storage] in T1, G1.
  assert (Hcalls : Storage.setItem_calls (storage s4)
                   = 8 + Storage.setItem_calls (storage s)).
  { rewrite (Writes.created_calls _ _ _ G4), (Writes.created_calls _ _ _ G3),
      (Writes.created_calls _ _ _ G2), (Writes.created_calls _ _ _ G1).
    reflexivity. }
  assert (Hsaved : writable (storage s) →
            Storage.getTasks (storage s4) = JSON_roundtrip <$> tasks s4 ∧
            Storage.totalTasksCreated (Storage.getStats (storage s4)) =
              (Storage.totalTasksCreated (Storage.getStats (storage s)) + 4)%Z).
  { intros W0.
    destruct (Writes.created_writable _ _ _ G1 W0) as (W1 & _ & C1).
    destruct (Writes.created_writable _ _ _ G2 W1) as (W2 & _ & C2).
    destruct (Writes.created_writable _ _ _ G3 W2) as (W3 & _ & C3).
    destruct (Writes.created_writable _ _ _ G4 W3) as (_ & S4 & C4).
    rewrite S4, T4, C4, C3, C2, C1. split; [reflexivity | lia]. }
  assert (Hlost : unwritable (storage s) →
            Storage.stored_tasks (storage s4) = Storage.stored_tasks (storage s) ∧
            Storage.stored_stats (storage s4) = Storage.stored_stats (storage s)).
  { intros W0.
    destruct (Writes.created_unwritable _ _ _ G1 W0) as (W1 & A1 & B1).
    destruct (Writes.created_unwritable _ _ _ G2 W1) as (W2 & A2 & B2).
    destruct (Writes.created_unwritable _ _ _ G3 W2) as (W3 & A3 & B3).
    destruct (Writes.created_unwritable _ _ _ G4 W3) as (_ & A4 & B4).
    rewrite A4, A3, A2, A1, B4, B3, B2, B1. split; reflexivity. }
  refine (conj eq_refl (conj _ (conj _ (conj _ (conj _ (conj _
           (conj Hcalls (conj Hsaved Hlost)))))))).
  all: clear G1 G2 G3 G4 Hcalls Hsaved Hlost.
  all: rewrite T4, T3, T2, T1, Hts.
  all: cbn [app fmap list_fmap].
  all: destruct P1 as (E11 & E12 & E13 & E14 & E15).
  all: destruct P2 as (E21 & E22 & E23 & E24 & E25).
  all: destruct P3 as (E31 & E32 & E33 & E34 & E35).
  all: destruct P4 as (E41 & E42 & E43 & E44 & E45).
  all: rewrite ?E11, ?E12, ?E13, ?E14, ?E15, ?E21, ?E22, ?E23, ?E24, ?E25,
         ?E31, ?E32, ?E33, ?E34, ?E35, ?E41, ?E42, ?E43, ?E44, ?E45.
  all: unfold or_else; read_prop;
       cbn [truthy String.eqb Ascii.eqb Bool.eqb negb]; reflexivity.
Qed.

(** ** [checkDailyReset] *)

(** X20. The toast "Your streak was reset" is shown only when there was an
    earlier day of activity, other than today and more than one day back;
    the stats record is not touched then, but the next task created or
    completed on this date will find the gap and set the current streak
    to 1.  When the toast is not shown although there was an earlier day
    of activity, that next task keeps the streak or adds one to it. *)
Theorem checkDailyReset_announces_reset (action : string) (s : state) :
  let stats := Storage.getStats (storage s) in
  let stats' := updateStats_record action (today_in s) stats in
  snd (App.checkDailyReset s) = snd (new_Date s) ∧
  (∃ toast, fst (App.checkDailyReset s) = Ok toast) ∧
  (fst (App.checkDailyReset s) = Ok true →
     truthy (Storage.lastActiveDate stats) = true ∧
     Storage.lastActiveDate stats ≠ VStr (today_in s) ∧
     Storage.currentStreak stats' = 1%Z) ∧
  (fst (App.checkDailyReset s) = Ok false →
     truthy (Storage.lastActiveDate stats) = true →
     Storage.currentStreak stats' = Storage.currentStreak stats ∨
     Storage.currentStreak stats' = (Storage.currentStreak stats + 1)%Z).
Proof.
  cbv zeta. unfold App.checkDailyReset.
  cbv [bind get_storage getTodayString new_Date ret].
  change (before "T" (toISOString (clock (world s) (clock_reads (world s)))))
    with (today_in s).
  set (stats := Storage.getStats (storage s)).
  set (today := today_in s).
  unfold updateStats_record. cbn [Storage.currentStreak].
  destruct (truthy (Storage.lastActiveDate stats)) eqn:Ht; cbn [andb].
  2:{ cbn [fst snd]. split; [reflexivity|].
      split; [eexists; reflexivity|]. split; discriminate. }
  destruct (strict_eq (Storage.lastActiveDate stats) (VStr today)) eqn:He;
    cbn [negb].
  - cbn [fst snd]. split; [reflexivity|].
    split; [eexists; reflexivity|]. split; [discriminate|]. intros _ _.
    apply bool_decide_eq_true in He. rewrite He.
    unfold diffDays, Number_minus.
    destruct (Date_of (VStr today)) as [x|]; [|left; reflexivity].
    rewrite Z.sub_diag. left. reflexivity.
  - apply bool_decide_eq_false in He.
    destruct (diffDays (VStr today) (Storage.lastActiveDate stats)) as [d|].
    + cbn [fst snd]. split; [reflexivity|].
      split; [eexists; reflexivity|].
      destruct (Qle_bool d 1) eqn:Hle; cbn [negb].
      * split; [discriminate|]. intros _ _.
        destruct (Qeq_bool d 1); [right | left]; reflexivity.
      * split; [|discriminate]. intros _.
        split; [reflexivity|]. split; [exact He|].
        destruct (Qeq_bool d 1) eqn:Heq; [|reflexivity].
        apply Qeq_bool_iff in Heq.
        assert (Hone : Qle_bool d 1 = true)
          by (apply Qle_bool_iff; rewrite Heq; apply Qle_refl).
        congruence.
    + cbn [fst snd]. split; [reflexivity|].
      split; [eexists; reflexivity|]. split; [discriminate|].
      intros _ _. left. reflexivity.
Qed.

End WithHost.

(** Last active three days ago: the toast is shown. *)
Example checkDailyReset_after_three_days :
  fst (App.checkDailyReset (host:=host_left_first)
         (state_with [] (Some (stats_of 5 9 (VStr "2024-02-26"))))) = Ok true ∧
  fst (App.checkDailyReset (host:=host_left_first)
         (state_with [] (Some (stats_of 5 9 (VStr "2024-02-28"))))) = Ok false ∧
  fst (App.checkDailyReset (host:=host_left_first)
         (state_with [] None)) = Ok false.
Proof. vm_compute. repeat split; reflexivity. Qed.

(** The first visit, on the leap day. *)
Example addDemoData_on_the_leap_day :
  let s := snd (App.addDemoData (host:=host_left_first) (state_with [] None)) in
  (λ t, (prop t "title", prop t "status", prop t "deadline")) <$> tasks s
  = [ (VStr "Complete CS Assignment", VStr "pending", VStr "2024-02-29");
      (VStr "Read Research Paper", VStr "pending", VStr "2024-03-01");
      (VStr "Morning Exercise", VStr "pending", VStr "2024-02-29");
      (VStr "Update Resume", VStr "pending", VStr "2024-03-02") ] ∧
  Storage.totalTasksCreated (Storage.getStats (storage s)) = 4%Z ∧
  Storage.currentStreak (Storage.getStats (storage s)) = 1%Z.
Proof. vm_compute. repeat split; reflexivity. Qed.

(** The first visit in a browser without storage: the demo tasks are in
    memory, nothing is saved, and the next visit starts from nothing
    again. *)
Example addDemoData_without_storage :
  let s0 := {| tasks := []; filters := no_filters;
               storage := no_storage;
               world := leap_day_noon |} in
  let s := snd (App.addDemoData (host:=host_left_first) s0) in
  length (tasks s) = 4 ∧
  Storage.getTasks (storage s) = [] ∧
  Storage.totalTasksCreated (Storage.getStats (storage s)) = 0%Z ∧
  length (tasks (snd (init s))) = 0.
Proof. vm_compute. repeat split; reflexivity. Qed.

End Application.

(* ================================================================== *)
(** * The orders by priority and by creation time *)
(* ================================================================== *)

Module Orders.
Import TaskManager Spec.

Lemma StronglySorted_weaken {A} (R R' : A → A → Prop) (l : list A) :
  (∀ a b, a ∈ l → b ∈ l → R a b → R' a b) →
  StronglySorted R l → StronglySorted R' l.
Proof.
  intros Himpl Hs. induction Hs as [|a l Hs IH Ha]; [constructor|].
  constructor.
  - apply IH. intros x y Hx Hy. apply Himpl; right; assumption.
  - rewrite Forall_forall in Ha |- *. intros b Hb.
    apply Himpl; [left | right | apply Ha]; auto.
Qed.

Lemma filter_ext_elem {A} (p q : A → bool) (l : list A) :
  (∀ x, x ∈ l → p x = q x) → List.filter p l = List.filter q l.
Proof.
  intros E. induction l as [|x l IH]; [reflexivity|].
  cbn [List.filter]. rewrite (E x) by left.
  rewrite IH by (intros y Hy; apply E; right; exact Hy). reflexivity.
Qed.

Lemma filter_nothing {A} (p : A → bool) (l : list A) :
  (∀ x, x ∈ l → p x = false) → List.filter p l = [].
Proof.
  intros E. induction l as [|x l IH]; [reflexivity|].
  cbn [List.filter]. rewrite (E x) by left.
  apply IH. intros y Hy. apply E. right. exact Hy.
Qed.

Section Keyed.
Context {host : Host} `{!SortConforms host}.
Context (cmp : obj → obj → cmp_result) (key : obj → option Z) (l : list obj).
Hypothesis keyed : ∀ a, a ∈ l → is_Some (key a).
Hypothesis by_key : ∀ a b ka kb,
  key a = Some ka → key b = Some kb → cmp a b = CNum (ka - kb).

Lemma keyed_sign (a b : obj) :
  a ∈ l → b ∈ l →
  ∃ ka kb, key a = Some ka ∧ key b = Some kb ∧
           sign (cmp a b) = Some (ka ?= kb)%Z.
Proof.
  intros Ha Hb. destruct (keyed a Ha) as [ka Hka].
  destruct (keyed b Hb) as [kb Hkb]. exists ka, kb.
  rewrite (by_key a b ka kb Hka Hkb). cbn [sign].
  split; [exact Hka|]. split; [exact Hkb|]. f_equal.
  rewrite (Z.compare_sub ka kb). reflexivity.
Qed.

(** A comparison function that subtracts keys is consistent. *)
Lemma keyed_consistent : consistent cmp l.
Proof.
  split.
  - intros a b Ha Hb. destruct (keyed_sign a b Ha Hb) as (ka & kb & _ & _ & ->).
    discriminate.
  - intros a Ha. destruct (keyed_sign a a Ha Ha) as (ka & ka' & H1 & H2 & E).
    unfold eq_cf. rewrite E. assert (ka' = ka) as -> by congruence.
    rewrite Z.compare_refl. reflexivity.
  - intros a b Ha Hb. unfold eq_cf.
    destruct (keyed_sign a b Ha Hb) as (ka & kb & H1 & H2 & ->).
    destruct (keyed_sign b a Hb Ha) as (kb' & ka' & H3 & H4 & ->).
    assert (ka' = ka) as -> by congruence.
    assert (kb' = kb) as -> by congruence.
    intros [= E]. apply Z.compare_eq_iff in E. subst.
    rewrite Z.compare_refl. reflexivity.
  - intros a b c Ha Hb Hc. unfold eq_cf.
    destruct (keyed_sign a b Ha Hb) as (ka & kb & H1 & H2 & ->).
    destruct (keyed_sign b c Hb Hc) as (kb' & kc & H3 & H4 & ->).
    destruct (keyed_sign a c Ha Hc) as (ka' & kc' & H5 & H6 & ->).
    assert (ka' = ka) as -> by congruence.
    assert (kb' = kb) as -> by congruence.
    assert (kc' = kc) as -> by congruence.
    intros [= E1] [= E2]. apply Z.compare_eq_iff in E1, E2. subst.
    rewrite Z.compare_refl. reflexivity.
  - intros a b c Ha Hb Hc. unfold lt_cf.
    destruct (keyed_sign a b Ha Hb) as (ka & kb & H1 & H2 & ->).
    destruct (keyed_sign b c Hb Hc) as (kb' & kc & H3 & H4 & ->).
    destruct (keyed_sign a c Ha Hc) as (ka' & kc' & H5 & H6 & ->).
    assert (ka' = ka) as -> by congruence.
    assert (kb' = kb) as -> by congruence.
    assert (kc' = kc) as -> by congruence.
    intros [= E1] [= E2].
    pose proof (proj1 (Z.compare_lt_iff _ _) E1).
    pose proof (proj1 (Z.compare_lt_iff _ _) E2).
    f_equal. apply Z.compare_lt_iff. lia.
  - intros a b c Ha Hb Hc. unfold gt_cf.
    destruct (keyed_sign a b Ha Hb) as (ka & kb & H1 & H2 & ->).
    destruct (keyed_sign b c Hb Hc) as (kb' & kc & H3 & H4 & ->).
    destruct (keyed_sign a c Ha Hc) as (ka' & kc' & H5 & H6 & ->).
    assert (ka' = ka) as -> by congruence.
    assert (kb' = kb) as -> by congruence.
    assert (kc' = kc) as -> by congruence.
    intros [= E1] [= E2].
    pose proof (proj1 (Z.compare_gt_iff _ _) E1).
    pose proof (proj1 (Z.compare_gt_iff _ _) E2).
    f_equal. apply Z.compare_gt_iff. lia.
Qed.

(** What every conforming [sort] makes of [l] with such a comparison
    function: the elements in ascending order of their keys, those with
    the same key in their old order. *)
Lemma keyed_sort :
  ∃ r, Array_sort cmp l = Ok r ∧ Permutation l r ∧
       StronglySorted (rank_le key) r ∧
       ∀ k, List.filter (same_key key k) r = List.filter (same_key key k) l.
Proof.
  pose proof keyed_consistent as Hc.
  destruct (sort_returns _ cmp l (cf_total _ _ Hc)) as [r Hr].
  pose proof (sort_permutes _ cmp l r Hr) as Hperm.
  assert (Hin : ∀ x, x ∈ r → x ∈ l).
  { intros x Hx. rewrite list_elem_of_In in *.
    eapply Permutation_in; [symmetry; exact Hperm | exact Hx]. }
  exists r. split; [exact Hr|]. split; [exact Hperm|]. split.
  - apply (StronglySorted_weaken (λ a b, ¬ gt_cf cmp a b)).
    + intros a b Ha Hb Hngt. unfold rank_le, gt_cf in *.
      destruct (keyed_sign a b (Hin a Ha) (Hin b Hb)) as (ka & kb & -> & -> & E).
      rewrite E in Hngt. destruct (Z.compare_spec ka kb); try lia.
      exfalso. apply Hngt. reflexivity.
    + exact (sort_in_order _ cmp l r Hc Hr).
  - intros k. pose proof (sort_stable _ cmp l r Hc Hr) as Hst.
    destruct (existsb (same_key key k) l) eqn:Hex.
    + apply existsb_exists in Hex. destruct Hex as (a & Ha & Hk).
      apply list_elem_of_In in Ha.
      assert (Heq : ∀ x, x ∈ l → same_key key k x = eq_cfb cmp a x).
      { intros x Hx. unfold same_key, eq_cfb in *.
        destruct (keyed_sign a x Ha Hx) as (ka & kx & Hka & Hkx & ->).
        rewrite Hkx. rewrite Hka in Hk. apply Z.eqb_eq in Hk. subst ka.
        destruct (Z.compare_spec k kx); [apply Z.eqb_eq; lia | | ];
          apply Z.eqb_neq; lia. }
      rewrite (filter_ext_elem _ (eq_cfb cmp a) r)
        by (intros x Hx; apply Heq, Hin, Hx).
      rewrite (filter_ext_elem _ (eq_cfb cmp a) l) by exact Heq.
      apply Hst, Ha.
    + assert (Hnone : ∀ x, x ∈ l → same_key key k x = false).
      { intros x Hx. destruct (same_key key k x) eqn:E; [|reflexivity].
        assert (existsb (same_key key k) l = true)
          by (apply existsb_exists; exists x; split;
              [apply list_elem_of_In, Hx | exact E]).
        congruence. }
      rewrite (filter_nothing _ l Hnone).
      apply filter_nothing. intros x Hx. apply Hnone, Hin, Hx.
Qed.

End Keyed.

Section WithHost.
Context {host : Host}.

(** ** By priority *)


(** ** Newest first *)

(** X22. Where every [createdAt] is a date, sorting by [newest] returns on
    every conforming host the tasks from the latest creation time to the
    earliest, and tasks created at the same time in the order they
    had. *)
Theorem sort_newest_first `{!SortConforms host} (l : list obj) :
  Forall (λ t, is_Some (Date_of (prop t "createdAt"))) l →
  ∃ r, sortTasks l (VStr "newest") = Ok r ∧
       Permutation l r ∧
       StronglySorted (λ a b,
         match Date_of (prop a "createdAt"), Date_of (prop b "createdAt") with
         | Some ta, Some tb => (tb ≤ ta)%Z
         | _, _ => False
         end) r ∧
       ∀ time, List.filter (λ t, bool_decide (Date_of (prop t "createdAt") = Some time)) r
               = List.filter (λ t, bool_decide (Date_of (prop t "createdAt") = Some time)) l.
Proof.
  intros Hall. rewrite Forall_forall in Hall.
  destruct (keyed_sort compare_newest newest_rank l) as (r & Hr & Hperm & Hs & Hst).
  - intros a Ha. destruct (Hall a Ha) as [t Ht]. unfold newest_rank.
    rewrite Ht. eexists. reflexivity.
  - intros a b ka kb. unfold newest_rank, compare_newest.
    destruct (Date_of (prop a "createdAt")) as [ta|]; [|discriminate].
    destruct (Date_of (prop b "createdAt")) as [tb|]; [|discriminate].
    cbn. intros [= <-] [= <-]. f_equal. lia.
  - exists r. split; [exact Hr|]. split; [exact Hperm|]. split.
    + eapply StronglySorted_weaken; [|exact Hs].
      intros a b _ _. unfold rank_le, newest_rank.
      destruct (Date_of (prop a "createdAt")) as [ta|]; [|intros []].
      destruct (Date_of (prop b "createdAt")) as [tb|]; [|intros []].
      cbn. lia.
    + intros time.
      assert (Hsame : ∀ x : obj,
        bool_decide (Date_of (prop x "createdAt") = Some time)
        = same_key newest_rank (- time) x).
      { intros x. unfold same_key, newest_rank.
        destruct (Date_of (prop x "createdAt")) as [tx|]; cbn.
        - destruct (Z.eqb_spec (- tx) (- time)) as [E|E].
          + apply bool_decide_eq_true. f_equal. lia.
          + apply bool_decide_eq_false. intros [= ->]. apply E. reflexivity.
        - apply bool_decide_eq_false. discriminate. }
      rewrite (Repository.filter_ext_bool _ _ r Hsame).
      rewrite (Repository.filter_ext_bool _ _ l Hsame).
      apply Hst.
Qed.

End WithHost.


Example sort_by_priority_example :
  let with_priority (id p : string) : obj :=
    <["priority" := VStr p]> (task id "Essay" "pending" VNull) in
  let l := [ with_priority "a" "low"; with_priority "b" "high";
             with_priority "c" "medium"; with_priority "d" "high";
             with_priority "e" "low" ] in
  ids_of (sortTasks (host:=host_left_first) l (VStr "priority"))
    = Ok [VStr "b"; VStr "d"; VStr "c"; VStr "a"; VStr "e"] ∧
  ids_of (sortTasks (host:=host_item_first) l (VStr "priority"))
    = Ok [VStr "b"; VStr "d"; VStr "c"; VStr "a"; VStr "e"].
Proof. vm_compute. split; reflexivity. Qed.

(** Three tasks, two of them created at the same moment. *)
Lemma sort_newest_first_witness :
  let created (id at_ : string) : obj :=
    <["createdAt" := VStr at_]> (task id "Essay" "pending" VNull) in
  let l := [ created "a" "2024-02-20T08:00:00.000Z";
             created "b" "2024-02-25T08:00:00.000Z";
             created "c" "2024-02-20T08:00:00.000Z" ] in
  ∃ r, sortTasks (host:=host_left_first) l (VStr "newest") = Ok r ∧
       Permutation l r ∧
       StronglySorted (λ a b,
         match Date_of (host:=host_left_first) (prop a "createdAt"),
               Date_of (host:=host_left_first) (prop b "createdAt") with
         | Some ta, Some tb => (tb ≤ ta)%Z
         | _, _ => False
         end) r ∧
       ∀ time,
         List.filter (λ t, bool_decide
            (Date_of (host:=host_left_first) (prop t "createdAt") = Some time)) r
         = List.filter (λ t, bool_decide
            (Date_of (host:=host_left_first) (prop t "createdAt") = Some time)) l.
Proof.
  cbv zeta.
  apply (sort_newest_first (host:=host_left_first)).
  repeat constructor; eexists; vm_compute; reflexivity.
Defined.

Example sort_newest_first_example :
  let created (id at_ : string) : obj :=
    <["createdAt" := VStr at_]> (task id "Essay" "pending" VNull) in
  let l := [ created "a" "2024-02-20T08:00:00.000Z";
             created "b" "2024-02-25T08:00:00.000Z";
             created "c" "2024-02-20T08:00:00.000Z" ] in
  ids_of (sortTasks (host:=host_left_first) l (VStr "newest"))
    = Ok [VStr "b"; VStr "a"; VStr "c"] ∧
  ids_of (sortTasks (host:=host_item_first) l (VStr "newest"))
    = Ok [VStr "b"; VStr "a"; VStr "c"].
Proof. vm_compute. split; reflexivity. Qed.

End Orders.

(* ================================================================== *)
(** * Filtering, exporting, creating *)
(* ================================================================== *)

Module Queries.
Import TaskManager Spec.

Lemma filter_throwing_Ok {A} (p : A → outcome bool) (l l' : list A) :
  filter_throwing p l = Ok l' →
  sublist l' l ∧ ∀ x, x ∈ l' ↔ x ∈ l ∧ p x = Ok true.
Proof.
  revert l'. induction l as [|y l IH]; intros l'.
  - intros [= <-]. split; [constructor|]. intros x. split.
    + intros H. inversion H.
    + intros [H _]. inversion H.
  - cbn [filter_throwing]. destruct (p y) as [keep|e] eqn:Hy; [|discriminate].
    cbn [obind]. destruct (filter_throwing p l) as [r|e]; [|discriminate].
    cbn [obind]. intros [= <-]. destruct (IH r eq_refl) as [Hsub Hin].
    destruct keep.
    + split; [apply sublist_skip, Hsub|]. intros x.
      rewrite !elem_of_cons, Hin. split.
      * intros [-> | [? ?]]; [split; [left; reflexivity | exact Hy] | auto].
      * intros [[-> | ?] ?]; [left; reflexivity | right; auto].
    + split; [apply sublist_cons, Hsub|]. intros x.
      rewrite elem_of_cons, Hin. split.
      * intros [? ?]; auto.
      * intros [[-> | ?] ?]; [congruence | auto].
Qed.

Lemma filter_sublist {A} (p : A → bool) (l : list A) :
  sublist (List.filter p l) l.
Proof.
  induction l as [|x l IH]; [constructor|].
  cbn [List.filter]. destruct (p x); [apply sublist_skip | apply sublist_cons];
    exact IH.
Qed.

Lemma elem_of_filter_bool {A} (p : A → bool) (l : list A) (x : A) :
  x ∈ List.filter p l ↔ x ∈ l ∧ p x = true.
Proof. rewrite !list_elem_of_In. apply List.filter_In. Qed.

Section WithHost.
Context {host : Host}.

(** ** [getFiltered] under any filter state *)

(** The part of [getFiltered] before the sorting: what passes the three
    filters, in the order of the collection. *)
Lemma filtered_before_sorting (f : Filters) (ts r : list obj) :
  filtered f ts = Ok r →
  ∃ kept, sortTasks kept (sortBy f) = Ok r ∧ sublist kept ts ∧
          ∀ t, t ∈ kept ↔ t ∈ ts ∧ passes f t.
Proof.
  unfold filtered.
  set (ts1 := if negb (strict_eq (status f) (VStr "all"))
              then List.filter (λ t, strict_eq (prop t "status") (status f)) ts
              else ts).
  set (ts2 := if negb (strict_eq (category f) (VStr "all"))
              then List.filter (λ t, strict_eq (prop t "category") (category f)) ts1
              else ts1).
  assert (H1 : sublist ts1 ts ∧ ∀ t, t ∈ ts1 ↔
            t ∈ ts ∧ (status f = VStr "all" ∨ prop t "status" = status f)).
  { unfold ts1. destruct (strict_eq (status f) (VStr "all")) eqn:E; cbn [negb].
    - apply bool_decide_eq_true in E. split; [reflexivity|]. intros t. tauto.
    - apply bool_decide_eq_false in E. split; [apply filter_sublist|].
      intros t. rewrite elem_of_filter_bool. unfold strict_eq.
      rewrite bool_decide_eq_true. tauto. }
  assert (H2 : sublist ts2 ts1 ∧ ∀ t, t ∈ ts2 ↔
            t ∈ ts1 ∧ (category f = VStr "all" ∨ prop t "category" = category f)).
  { unfold ts2. destruct (strict_eq (category f) (VStr "all")) eqn:E; cbn [negb].
    - apply bool_decide_eq_true in E. split; [reflexivity|]. intros t. tauto.
    - apply bool_decide_eq_false in E. split; [apply filter_sublist|].
      intros t. rewrite elem_of_filter_bool. unfold strict_eq.
      rewrite bool_decide_eq_true. tauto. }
  destruct H1 as [S1 M1]. destruct H2 as [S2 M2].
  destruct (truthy (search f)) eqn:Hq.
  - destruct (toLowerCase (search f)) as [q|e] eqn:Hlow; [|discriminate].
    cbn [obind].
    destruct (filter_throwing (matches_search q) ts2) as [ts3|e] eqn:H3;
      [|discriminate].
    cbn [obind]. intros Hsort.
    destruct (filter_throwing_Ok _ _ _ H3) as [S3 M3].
    exists ts3. split; [exact Hsort|].
    split; [etransitivity; [exact S3|]; etransitivity; [exact S2 | exact S1]|].
    intros t. rewrite M3, M2, M1. unfold passes. rewrite Hq, Hlow. split.
    + intros [[[Ht Hs] Hc] Hm]. split; [exact Ht|].
      split; [exact Hs|]. split; [exact Hc|]. right. exists q. auto.
    + intros (Ht & Hs & Hc & [Hf | (q' & [= <-] & Hm)]); [discriminate|]. auto.
  - cbn [obind]. intros Hsort. exists ts2. split; [exact Hsort|].
    split; [etransitivity; [exact S2 | exact S1]|].
    intros t. rewrite M2, M1. unfold passes. rewrite Hq. split.
    + intros [[Ht Hs] Hc]. auto.
    + intros (Ht & Hs & Hc & _). auto.
Qed.

(** X23. On a host whose [sort] conforms, whatever the filter state: what
    [getFiltered] returns holds exactly the tasks of the collection that
    pass the status, category and search filters, each as often as the
    collection holds it, and the state of the manager is as before.  In
    particular, after [setFilter('status', v)] with [v] other than [all],
    every task returned has the status [v], and after [clearFilters]
    every task of the collection is returned. *)
Theorem getFiltered_returns_matching `{!SortConforms host} (s : state) :
  snd (getFiltered s) = s ∧
  (∀ r, fst (getFiltered s) = Ok r →
     (∃ kept, sublist kept (tasks s) ∧ Permutation kept r) ∧
     (∀ t, t ∈ r ↔ t ∈ tasks s ∧ passes (filters s) t)) ∧
  (∀ v r, v ≠ VStr "all" →
     fst (getFiltered (snd (setFilter "status" v s))) = Ok r →
     Forall (λ t, prop t "status" = v) r) ∧
  (∀ r, fst (getFiltered (snd (clearFilters s))) = Ok r →
     Permutation (tasks s) r).
Proof.
  assert (Hmain : ∀ s0 r, fst (getFiltered s0) = Ok r →
     (∃ kept, sublist kept (tasks s0) ∧ Permutation kept r) ∧
     (∀ t, t ∈ r ↔ t ∈ tasks s0 ∧ passes (filters s0) t)).
  { intros s0 r Hr. unfold getFiltered in Hr. cbn [fst] in Hr.
    destruct (filtered_before_sorting _ _ _ Hr) as (kept & Hsort & Hsub & Hin).
    assert (Hperm : Permutation kept r).
    { rewrite Filtering.sortTasks_comparison in Hsort.
      destruct (comparison_of (sortBy (filters s0))) as [cmp|].
      - eapply sort_permutes. exact Hsort.
      - injection Hsort as <-. reflexivity. }
    split; [exists kept; split; assumption|].
    intros t. rewrite <- Hin. rewrite !list_elem_of_In. split.
    - apply Permutation_in. symmetry. exact Hperm.
    - apply Permutation_in. exact Hperm. }
  split; [reflexivity|]. split; [apply Hmain|]. split.
  - intros v r Hv Hr. apply Forall_forall. intros t Ht.
    destruct (Hmain _ r Hr) as [_ Hin]. apply Hin in Ht.
    destruct Ht as (_ & [Hall | Hst] & _).
    + cbn in Hall. contradiction.
    + cbn in Hst. exact Hst.
  - intros r Hr. unfold getFiltered, clearFilters in Hr. cbn [fst snd filters tasks] in Hr.
    change (filtered _ (tasks s)) with (Array_sort compare_newest (tasks s)) in Hr.
    eapply sort_permutes. exact Hr.
Qed.

(** ** [export] and [import] *)

Lemma objects_not_null (ts : list obj) :
  existsb is_null_element (Object <$> ts) = false.
Proof. induction ts as [|t ts IH]; [reflexivity | exact IH]. Qed.

(** X24. [export] hands the whole collection to the download, with the time of
    the export, the version and a file name that carries the date; it
    changes nothing.  Importing that very object appends one more copy of
    every task, under a new id: nothing tells [import] that the tasks are
    already there. *)
Theorem export_then_import {zone : LocalTime} (s : state) :
  let r := clock_reads (world s) in
  let s1 := snd (export s) in
  ∃ data file,
    fst (export s) = Ok (data, file) ∧
    payload_tasks data = ArrayOf (Object <$> tasks s) ∧
    exportDate data = VStr (toISOString (clock (world s) r)) ∧
    version data = VStr "1.0" ∧
    file = "tasks-" +:+ before "T" (toISOString (clock (world s) (1 + r)))
           +:+ ".json" ∧
    tasks s1 = tasks s ∧ storage s1 = storage s ∧ filters s1 = filters s ∧
    ∃ news,
      fst (import (Data data) s1) = Ok (length (tasks s)) ∧
      tasks (snd (import (Data data) s1)) = tasks s ++ news ∧
      Forall2 (imported_in s1) (Object <$> tasks s) news.
Proof.
  cbv zeta. eexists _, _. split; [reflexivity|].
  cbn [payload_tasks exportDate version].
  split; [reflexivity|]. split; [reflexivity|]. split; [reflexivity|].
  split; [reflexivity|]. split; [reflexivity|]. split; [reflexivity|].
  split; [reflexivity|].
  match goal with |- context [import ?d ?s0] =>
    rewrite (Importing.import_array d (Object <$> tasks s) s0 eq_refl);
    destruct (Importing.import_tasks_run (Object <$> tasks s) s0
                (objects_not_null (tasks s)))
      as (news & s2 & -> & Hnew & (T & _))
  end.
  pose proof (Forall2_length _ _ _ Hnew) as Hlen.
  rewrite length_fmap in Hlen.
  exists news. cbn [fst snd tasks]. rewrite T, Hlen.
  split; [reflexivity|]. split; [reflexivity | exact Hnew].
Qed.

(** ** What [create] reads and when it throws *)

(** X25. [create] reads the five fields of the form and nothing else: data
    that agree on them give the same task and the same state, whatever
    [id], [status], [createdAt] or [completedAt] they carry. *)
Theorem create_reads_the_form (taskData taskData' : obj) (s : state) :
  Forall (λ k, prop taskData k = prop taskData' k) form_fields →
  create taskData s = create taskData' s.
Proof.
  unfold form_fields. rewrite !Forall_cons.
  intros (Ht & Hd & Hc & Hp & Hdl & _). unfold create.
  rewrite Ht, Hd, Hc, Hp, Hdl. reflexivity.
Qed.

(** X26. [create] throws a [TypeError] exactly when the title is not a string,
    or the description is neither a string nor falsy; it does so before
    it touches the collection, the saved data or the stats.  Otherwise it
    returns the new task, which is then the last one of the collection,
    and it writes to [localStorage] twice: the collection, and a stats
    record that counts one task more.  Where [localStorage] accepts the
    writes, the task is saved and counted; where it refuses them, the
    saved data are what they were, and [create] returns the task all the
    same. *)
Theorem create_throws_on_bad_form (taskData : obj) (s : state) :
  let s1 := snd (create taskData s) in
  (well_formed taskData = false →
     fst (create taskData s) = Throw TypeError ∧
     tasks s1 = tasks s ∧ storage s1 = storage s ∧ filters s1 = filters s) ∧
  (well_formed taskData = true →
     ∃ t, fst (create taskData s) = Ok t ∧
          tasks s1 = tasks s ++ [t] ∧
          created_into (storage s) (storage s1) (tasks s ++ [t]) ∧
          (writable (storage s) →
             Storage.getTasks (storage s1) = JSON_roundtrip <$> (tasks s ++ [t]) ∧
             Storage.totalTasksCreated (Storage.getStats (storage s1)) =
               (Storage.totalTasksCreated (Storage.getStats (storage s)) + 1)%Z) ∧
          (unwritable (storage s) →
             Storage.stored_tasks (storage s1) = Storage.stored_tasks (storage s) ∧
             Storage.stored_stats (storage s1) = Storage.stored_stats (storage s))).
Proof.
  cbv zeta. unfold well_formed. split.
  - intros Hbad. unfold create.
    cbv [bind generateId new_Date Math_random_chars ret]. unfold trim.
    destruct (prop taskData "title") as [| | b | n | title];
      try (cbv [throw]; repeat split; reflexivity).
    cbv [ret].
    destruct (or_else (prop taskData "description") (VStr ""))
      as [| | b | n | description];
      try (cbv [throw]; repeat split; reflexivity).
    discriminate.
  - intros Hok.
    destruct (prop taskData "title") as [| | b | n | title] eqn:Ht;
      try discriminate.
    destruct (or_else (prop taskData "description") (VStr ""))
      as [| | b | n | description] eqn:Hd; try discriminate.
    destruct (Application.create_adds taskData title description s Ht Hd)
      as (t & s1 & -> & T & G & _).
    exists t. cbn [fst snd].
    split; [reflexivity|]. split; [exact T|]. split; [exact G|]. split.
    + intros Hw. apply (Writes.created_writable _ _ _ G Hw).
    + intros Hw. apply (Writes.created_unwritable _ _ _ G Hw).
Qed.

End WithHost.

(** Search for "run" among four tasks, sorted by priority. *)
Lemma getFiltered_returns_matching_witness :
  let s := {| tasks := [ task "a" "Essay" "pending" VNull;
                         task "b" "Run 5k" "pending" VNull;
                         task "c" "Call" "completed"
                           (VStr "2024-02-28T18:30:00.000Z");
                         task "d" "Pruning" "pending" VNull ];
              filters := {| status := VStr "pending"; category := VStr "all";
                            search := VStr "RUN"; sortBy := VStr "priority" |};
              storage := empty_storage;
              world := leap_day_noon |} in
  snd (getFiltered (host:=host_left_first) s) = s ∧
  (∀ r, fst (getFiltered (host:=host_left_first) s) = Ok r →
     (∃ kept, sublist kept (tasks s) ∧ Permutation kept r) ∧
     (∀ t, t ∈ r ↔ t ∈ tasks s ∧ passes (host:=host_left_first) (filters s) t)) ∧
  (∀ v r, v ≠ VStr "all" →
     fst (getFiltered (host:=host_left_first) (snd (setFilter "status" v s))) = Ok r →
     Forall (λ t, prop t "status" = v) r) ∧
  (∀ r, fst (getFiltered (host:=host_left_first) (snd (clearFilters s))) = Ok r →
     Permutation (tasks s) r).
Proof.
  cbv zeta. apply (getFiltered_returns_matching (host:=host_left_first)).
Defined.

Example getFiltered_search_example :
  let s := {| tasks := [ task "a" "Essay" "pending" VNull;
                         task "b" "Run 5k" "pending" VNull;
                         task "c" "Call" "completed"
                           (VStr "2024-02-28T18:30:00.000Z");
                         task "d" "Pruning" "pending" VNull ];
              filters := {| status := VStr "pending"; category := VStr "all";
                            search := VStr "RUN"; sortBy := VStr "priority" |};
              storage := empty_storage;
              world := leap_day_noon |} in
  ids_of (fst (getFiltered (host:=host_left_first) s)) = Ok [VStr "b"; VStr "d"].
Proof. vm_compute. reflexivity. Qed.

(** Two sets of data from the same form, the second with fields that the
    form does not have. *)
Lemma create_reads_the_form_witness :
  let form := <["title" := VStr "Essay"]> (<["priority" := VStr "high"]> ∅) in
  let more := <["status" := VStr "completed"]> (
              <["id" := VStr "mine"]> (
              <["completedAt" := VStr "2024-02-28T18:30:00.000Z"]> form)) in
  create (host:=host_left_first) form (state_with [] None)
  = create (host:=host_left_first) more (state_with [] None).
Proof.
  cbv zeta. apply (create_reads_the_form (host:=host_left_first)).
  repeat constructor; vm_compute; reflexivity.
Defined.

Example create_without_title :
  fst (create (host:=host_left_first) (<["priority" := VStr "high"]> ∅)
         (state_with [] None)) = Throw TypeError ∧
  fst (create (host:=host_left_first)
         (<["title" := VStr "Essay"]> (<["description" := VNum 5]> ∅))
         (state_with [] None)) = Throw TypeError ∧
  returned (fst (create (host:=host_left_first)
         (<["title" := VStr "Essay"]> (<["description" := VNum 0]> ∅))
         (state_with [] None))) = true.
Proof. vm_compute. repeat split; reflexivity. Qed.

End Queries.

(* ================================================================== *)
(** * Ids, and the stats record over time *)
(* ================================================================== *)

Module Identifiers.
Import TaskManager Spec.

(** X27. [Utils.generateId] gives two calls the same id only if they read
    the same time from the clock and draw the same characters: the id
    determines both.  (The time is the number of milliseconds since 1970,
    which is not negative.) *)
Theorem generateId_injective (s s' : state) :
  let now := clock (world s) (clock_reads (world s)) in
  let now' := clock (world s') (clock_reads (world s')) in
  let r := random (world s) (random_draws (world s)) in
  let r' := random (world s') (random_draws (world s')) in
  (0 ≤ now)%Z → (0 ≤ now')%Z →
  (fst (generateId s) = fst (generateId s') ↔ now = now' ∧ r = r').
Proof.
  cbv zeta. intros Hnow Hnow'. unfold generateId.
  cbv [bind new_Date Math_random_chars ret]. cbn [fst world clock random
    random_draws clock_reads].
  split.
  - intros [= E].
    destruct (IdStrings.dash_split _ _ _ _
                (IdStrings.string_of_Z_no_dash _ Hnow)
                (IdStrings.string_of_Z_no_dash _ Hnow') E) as [Ez Er].
    split; [apply IdStrings.string_of_Z_inj, Ez | exact Er].
  - intros [-> ->]. reflexivity.
Qed.

(** Two ids made one after the other at [leap_day_noon], where the clock
    has advanced by a millisecond. *)
Lemma generateId_injective_witness :
  let s := state_with [] None in
  let s' := snd (generateId s) in
  fst (generateId s) = fst (generateId s') ↔
  clock (world s) (clock_reads (world s)) = clock (world s') (clock_reads (world s')) ∧
  random (world s) (random_draws (world s)) = random (world s') (random_draws (world s')).
Proof.
  cbv zeta.
  apply (generateId_injective (state_with [] None)
           (snd (generateId (state_with [] None)))).
  - vm_compute. discriminate.
  - vm_compute. discriminate.
Defined.

Example two_ids_differ :
  let s := state_with [] None in
  fst (generateId s) = Ok (VStr "1709210096789-k3j2h1g00") ∧
  fst (generateId (snd (generateId s))) = Ok (VStr "1709210096790-k3j2h1g01").
Proof. vm_compute. split; reflexivity. Qed.

End Identifiers.

Module Totals.
Import TaskManager Spec.

Lemma grown_refl (st : Storage.Stats) : grown st st.
Proof. unfold grown. repeat split; lia || auto. Qed.

Lemma grown_trans (a b c : Storage.Stats) : grown a b → grown b c → grown a c.
Proof. unfold grown. intros (? & ? & ? & ?) (? & ? & ? & ?). repeat split; lia || auto. Qed.

(** A write of a record that has grown leaves a record that has grown,
    whether [localStorage] takes it or not. *)
Lemma grown_saveStats (st : Storage.store) (r : Storage.Stats) :
  grown (Storage.getStats st) r →
  grown (Storage.getStats st) (Storage.getStats (Storage.saveStats r st)).
Proof.
  intros Hr. destruct (Storage.accepted st) eqn:Hacc.
  - rewrite Writes.getStats_saveStats by exact Hacc. exact Hr.
  - rewrite Writes.getStats_saveStats_refused by exact Hacc. apply grown_refl.
Qed.

Lemma grown_updateDailyStats (date : string) (data : Storage.DayPatch)
    (st : Storage.store) :
  grown (Storage.getStats st)
        (Storage.getStats (Storage.updateDailyStats date data st)).
Proof.
  unfold Storage.updateDailyStats. apply grown_saveStats.
  unfold grown.
  cbn [Storage.totalTasksCreated Storage.totalTasksCompleted
       Storage.longestStreak Storage.currentStreak].
  repeat split; lia || auto.
Qed.

Section WithHost.
Context {host : Host}.

Lemma updateStats_record_grown (action today : string) (st : Storage.Stats) :
  grown st (updateStats_record action today st).
Proof.
  pose proof (StreakUpdate.updateStats_record_longest action today st) as Hl.
  unfold grown. split; [|split; [|split]].
  - unfold updateStats_record. cbn [Storage.totalTasksCreated].
    destruct (String.eqb action "created"); lia.
  - unfold updateStats_record. cbn [Storage.totalTasksCompleted].
    destruct (String.eqb action "created"); [lia|].
    destruct (String.eqb action "completed"); lia.
  - unfold updateStats_record. cbn [Storage.longestStreak].
    match goal with |- (_ ≤ if (?l <? ?c)%Z then _ else _)%Z =>
      destruct (Z.ltb_spec l c); lia end.
  - intros _. exact Hl.
Qed.

Lemma create_grown (taskData : obj) (s : state) :
  grown (Storage.getStats (storage s))
        (Storage.getStats (storage (snd (create taskData s)))).
Proof.
  unfold create.
  cbv [bind generateId new_Date Math_random_chars ret]. unfold trim.
  destruct (prop taskData "title") as [| | b | n | title]; try apply grown_refl.
  cbv [ret].
  destruct (or_else (prop taskData "description") (VStr ""))
    as [| | b | n | description]; try apply grown_refl.
  cbv [now_iso bind new_Date ret get_tasks set_tasks save get_storage
       set_storage].
  rewrite StreakUpdate.updateStats_run. cbn [snd storage].
  match goal with |- grown _ (Storage.getStats (Storage.saveStats _ ?st)) =>
    apply (grown_saveStats st) end.
  apply updateStats_record_grown.
Qed.

Lemma update_grown (id : val) (updates : obj) (s : state) :
  grown (Storage.getStats (storage s))
        (Storage.getStats (storage (snd (update id updates s)))).
Proof.
  unfold update.
  cbv [bind get_tasks set_tasks save get_storage set_storage ret].
  destruct (findIndex _ (tasks s)) as [index|]; [|apply grown_refl].
  destruct (strict_eq (prop updates "status") (VStr "completed")
            && negb (strict_eq (prop (default ∅ (tasks s !! index)) "status")
                       (VStr "completed"))); [|apply grown_refl].
  cbv [handle_change_to_completed bind now_iso new_Date ret getTodayString
       get_storage set_storage lift updateStats].
  cbn [tasks filters storage world clock clock_reads random random_draws].
  match goal with |- context [Storage.getCompletedCountByDate ?d ?st] =>
    destruct (Storage.getCompletedCountByDate d st) as [n|e] end;
    cbn [snd storage].
  - rewrite Writes.getStats_saveTasks.
    match goal with
    | |- grown _ (Storage.getStats (Storage.updateDailyStats _ _ ?st1)) =>
        apply (grown_trans _ (Storage.getStats st1));
        [|apply grown_updateDailyStats]
    end.
    apply grown_saveStats, updateStats_record_grown.
  - apply grown_saveStats, updateStats_record_grown.
Qed.

Lemma bulkUpdate_grown (ids : list val) (updates : obj) (count : nat)
    (s : state) :
  grown (Storage.getStats (storage s))
        (Storage.getStats (storage (snd (bulkUpdate_from count ids updates s)))).
Proof.
  revert updates count s.
  induction ids as [|id ids IH]; intros updates count s; [apply grown_refl|].
  cbn [bulkUpdate_from]. cbv [bind].
  pose proof (update_grown id updates s) as H1.
  destruct (update id updates s) as [[r|e] s1]; cbn [snd] in *; [|exact H1].
  eapply grown_trans; [exact H1 | apply IH].
Qed.

Lemma same_stats_grown (st st' : Storage.store) :
  Storage.stored_stats st' = Storage.stored_stats st →
  grown (Storage.getStats st) (Storage.getStats st').
Proof. unfold Storage.getStats. intros ->. apply grown_refl. Qed.

Lemma perform_grown (o : operation) (s : state) :
  grown (Storage.getStats (storage s))
        (Storage.getStats (storage (snd (perform o s)))).
Proof.
  destruct o as [taskData | id patch | id | | ids patch | ids | data].
  - cbn [perform]. rewrite Identity.perform_state. apply create_grown.
  - cbn [perform]. rewrite Identity.perform_state. apply update_grown.
  - apply same_stats_grown, (Persistence.perform_leaves_stats (Delete id) s I).
  - apply same_stats_grown, (Persistence.perform_leaves_stats ClearCompleted s I).
  - cbn [perform]. rewrite Identity.perform_state. apply bulkUpdate_grown.
  - apply same_stats_grown, (Persistence.perform_leaves_stats (BulkDelete ids) s I).
  - apply same_stats_grown, (Persistence.perform_leaves_stats (Import data) s I).
Qed.

(** X28. Whatever the operations, and whether they throw or not, the
    stats record only grows: the total of tasks created, the total of
    tasks completed and the longest streak never fall, and once the
    current streak is not above the longest one, it never is again. *)
Theorem stats_only_grow (ops : list operation) (s : state) :
  grown (Storage.getStats (storage s)) (Storage.getStats (storage (run ops s))).
Proof.
  revert s. induction ops as [|o ops IH]; intros s; [apply grown_refl|].
  cbn [run]. eapply grown_trans; [apply perform_grown | apply IH].
Qed.

End WithHost.

Example a_morning_totals :
  let s := run (host:=host_left_first) a_morning (state_with [] None) in
  Storage.totalTasksCreated (Storage.getStats (storage s)) = 3%Z ∧
  Storage.totalTasksCompleted (Storage.getStats (storage s)) = 2%Z ∧
  length (tasks s) = 2%nat.
Proof. vm_compute. repeat split; reflexivity. Qed.

End Totals.

(* ================================================================== *)
(** * An update that throws *)
(* ================================================================== *)

Module Failures.
Import TaskManager Spec.

Lemma filter_throwing_Throw {A} (p : A → outcome bool) (l : list A) (x : A)
    (e : error) :
  (∀ y e', p y = Throw e' → e' = e) →
  x ∈ l → p x = Throw e → filter_throwing p l = Throw e.
Proof.
  intros Honly Hx Hp. induction l as [|y l IH]; [inversion Hx|].
  cbn [filter_throwing]. apply elem_of_cons in Hx.
  destruct (p y) as [keep|e'] eqn:Hy.
  - destruct Hx as [-> | Hx]; [congruence|].
    cbn [obind]. rewrite (IH Hx). reflexivity.
  - cbn [obind]. rewrite (Honly y e' Hy). reflexivity.
Qed.

Lemma completed_on_throws (date : string) (t : obj) (e : error) :
  Storage.completed_on date t = Throw e → e = TypeError.
Proof.
  unfold Storage.completed_on.
  destruct (strict_eq (prop t "status") (VStr "completed")); [|discriminate].
  destruct (truthy (prop t "completedAt")); [|discriminate].
  destruct (prop t "completedAt"); try discriminate; intros [= <-]; reflexivity.
Qed.

Section WithHost.
Context {host : Host}.

(** X29. [update] is not all or nothing.  When a task is being completed
    and the saved collection holds a completed task whose [completedAt] is
    neither a string nor empty (a number from an imported file, say), the
    count of the day's completions throws a [TypeError]: the task stays
    as it was and nothing of the collection is saved, but the stats
    record has been written by then.  So, unless [localStorage] refused
    that write, the completion has already been counted, with the streak
    and the last active date updated, and it is counted again on every
    retry. *)
Theorem update_counts_before_it_throws (id : val) (updates : obj) (s : state)
    (index : nat) (old bad : obj) :
  findIndex (λ t, strict_eq (prop t "id") id) (tasks s) = Some index →
  tasks s !! index = Some old →
  prop updates "status" = VStr "completed" →
  prop old "status" ≠ VStr "completed" →
  bad ∈ Storage.getTasks (storage s) →
  prop bad "status" = VStr "completed" →
  truthy (prop bad "completedAt") = true →
  (∀ at_, prop bad "completedAt" ≠ VStr at_) →
  let s1 := snd (update id updates s) in
  let stats := Storage.getStats (storage s) in
  let stats1 := Storage.getStats (storage s1) in
  let written :=
    updateStats_record "completed"
      (before "T" (toISOString
         (clock (world s) (1 + clock_reads (world s))))) stats in
  fst (update id updates s) = Throw TypeError ∧
  tasks s1 = tasks s ∧
  Storage.stored_tasks (storage s1) = Storage.stored_tasks (storage s) ∧
  storage s1 = Storage.saveStats written (storage s) ∧
  (Storage.accepted (storage s) = true →
   stats1 = written ∧
   Storage.totalTasksCompleted stats1 = (Storage.totalTasksCompleted stats + 1)%Z ∧
   Storage.dailyStats stats1 = Storage.dailyStats stats).
Proof.
  intros Hfind Hold Hnew Hopen Hbad Hst Htruthy Hnot. cbv zeta.
  unfold update.
  cbv [bind get_tasks set_tasks save get_storage set_storage ret].
  rewrite Hfind, Hold. cbn [from_option]. unfold Datatypes.id. rewrite Hnew.
  replace (strict_eq (prop old "status") (VStr "completed")) with false
    by (symmetry; apply bool_decide_eq_false; exact Hopen).
  replace (strict_eq (VStr "completed") (VStr "completed")) with true
    by reflexivity.
  cbn [andb negb].
  cbv [handle_change_to_completed bind now_iso new_Date ret getTodayString
       get_storage set_storage lift updateStats].
  cbn [tasks filters storage world clock clock_reads random random_draws].
  set (today := before "T"
         (toISOString (clock (world s) (S (S (clock_reads (world s))))))).
  set (st1 := Storage.saveStats _ (storage s)).
  assert (Hthrow : Storage.getCompletedCountByDate today st1 = Throw TypeError).
  { unfold Storage.getCompletedCountByDate.
    change (Storage.getTasks st1) with (Storage.getTasks (storage s)).
    rewrite (filter_throwing_Throw _ _ bad TypeError); [reflexivity | | exact Hbad |].
    - intros y e'. apply completed_on_throws.
    - unfold Storage.completed_on. rewrite Hst, Htruthy.
      replace (strict_eq (VStr "completed") (VStr "completed")) with true
        by reflexivity.
      destruct (prop bad "completedAt") as [| | b | n | at_]; try reflexivity.
      exfalso. apply (Hnot at_). reflexivity. }
  rewrite Hthrow. cbn [fst snd tasks storage].
  split; [reflexivity|]. split; [reflexivity|]. split; [reflexivity|].
  split; [reflexivity|]. intros Hacc. unfold st1.
  rewrite Writes.getStats_saveStats by exact Hacc.
  split; [reflexivity|]. split; reflexivity.
Qed.

End WithHost.

(** The saved collection holds a task whose completion time is a number. *)
Lemma update_counts_before_it_throws_witness :
  let bad := task "a" "Essay" "completed" (VNum 1709200000000) in
  let old := task "b" "Run" "pending" VNull in
  let s := state_with [bad; old] (Some (stats_of 2 4 (VStr "2024-02-28"))) in
  let patch := <["status" := VStr "completed"]> ∅ in
  let s1 := snd (update (host:=host_left_first) (VStr "b") patch s) in
  let stats := Storage.getStats (storage s) in
  let stats1 := Storage.getStats (storage s1) in
  let written :=
    updateStats_record (host:=host_left_first) "completed"
      (before "T" (toISOString
         (clock (world s) (1 + clock_reads (world s))))) stats in
  fst (update (host:=host_left_first) (VStr "b") patch s) = Throw TypeError ∧
  tasks s1 = tasks s ∧
  Storage.stored_tasks (storage s1) = Storage.stored_tasks (storage s) ∧
  storage s1 = Storage.saveStats written (storage s) ∧
  (Storage.accepted (storage s) = true →
   stats1 = written ∧
   Storage.totalTasksCompleted stats1 = (Storage.totalTasksCompleted stats + 1)%Z ∧
   Storage.dailyStats stats1 = Storage.dailyStats stats).
Proof.
  cbv zeta.
  refine (update_counts_before_it_throws (host:=host_left_first) (VStr "b")
            (<["status" := VStr "completed"]> ∅)
            (state_with [task "a" "Essay" "completed" (VNum 1709200000000);
                         task "b" "Run" "pending" VNull]
                        (Some (stats_of 2 4 (VStr "2024-02-28"))))
            1 (task "b" "Run" "pending" VNull)
            (JSON_roundtrip (task "a" "Essay" "completed" (VNum 1709200000000)))
            _ _ _ _ _ _ _ _).
  - vm_compute. reflexivity.
  - reflexivity.
  - vm_compute. reflexivity.
  - vm_compute. discriminate.
  - apply (list_elem_of_fmap_2 JSON_roundtrip). left.
  - vm_compute. reflexivity.
  - vm_compute. reflexivity.
  - intros at_. vm_compute. discriminate.
Defined.

Example update_counted_twice :
  let bad := task "a" "Essay" "completed" (VNum 1709200000000) in
  let old := task "b" "Run" "pending" VNull in
  let s := state_with [bad; old] (Some (stats_of 2 4 (VStr "2024-02-28"))) in
  let patch := <["status" := VStr "completed"]> ∅ in
  let s1 := snd (update (host:=host_left_first) (VStr "b") patch s) in
  let s2 := snd (update (host:=host_left_first) (VStr "b") patch s1) in
  (λ t, prop t "status") <$> tasks s2 = [VStr "completed"; VStr "pending"] ∧
  Storage.totalTasksCompleted (Storage.getStats (storage s2)) = 5%Z ∧
  Storage.currentStreak (Storage.getStats (storage s2)) = 3%Z.
Proof. vm_compute. repeat split; reflexivity. Qed.

End Failures.
